(** * mex-common: schema reconciliation helpers, settings context and
      wikidata claim parsing, embedded in Rocq.

    The development follows the Python sources:
    - [tests/models/test_model_schemas.py]: the field normalizer
      [prepare_field] with its helpers, the loader of the specified schemas
      and the discriminant check;
    - [mex/common/settings.py]: [BaseSettings.get] over [SettingsContext];
    - [mex/common/wikidata/models/organization.py]:
      [DataValue.transform_strings_to_dict]. *)

From Stdlib Require Import String Ascii List ZArith Bool Lia Arith.
From Stdlib Require Import Permutation Sorted OrderedTypeEx.
Import ListNotations.
Open Scope string_scope.
Open Scope list_scope.

(** ** JSON-like Python values *)

(** The values that [json.load] and [model_json_schema] hand to the code:
    [None], booleans, integers, strings, lists and dicts with string keys.
    A dict keeps its insertion order (it decides what [json.dumps] prints),
    so it is an association list.  Floating-point numbers are left out. *)
#[local] Unset Elimination Schemes.
Inductive json : Type :=
| JNull
| JBool (b : bool)
| JNum (z : Z)
| JStr (s : string)
| JList (items : list json)
| JDict (entries : list (string * json)).
#[local] Set Elimination Schemes.

Definition dict : Type := list (string * json).

(** Number of nodes of a value, a key counting for one. *)
Fixpoint size (j : json) : nat :=
  match j with
  | JList l => S (list_sum (map size l))
  | JDict d => S (list_sum (map (fun kv => S (size (snd kv))) d))
  | _ => 1
  end.

Definition entries_size (d : dict) : nat :=
  list_sum (map (fun kv => S (size (snd kv))) d).
Arguments entries_size : simpl never.

(** Structural equality.  On these values [json.dumps] is injective and
    [json.loads] inverts it, so two items have the same dump exactly when
    they are equal as ordered trees. *)
Fixpoint json_eqb (a b : json) : bool :=
  match a, b with
  | JNull, JNull => true
  | JBool x, JBool y => Bool.eqb x y
  | JNum x, JNum y => Z.eqb x y
  | JStr x, JStr y => String.eqb x y
  | JList l, JList m =>
      (fix go (l m : list json) : bool :=
         match l, m with
         | [], [] => true
         | x :: l', y :: m' => json_eqb x y && go l' m'
         | _, _ => false
         end) l m
  | JDict d, JDict e =>
      (fix go (d e : list (string * json)) : bool :=
         match d, e with
         | [], [] => true
         | (k, x) :: d', (k', y) :: e' =>
             String.eqb k k' && json_eqb x y && go d' e'
         | _, _ => false
         end) d e
  | _, _ => false
  end.

(** Python truthiness: [if item]. *)
Definition truthy (j : json) : bool :=
  match j with
  | JNull => false
  | JBool b => b
  | JNum z => negb (Z.eqb z 0)
  | JStr s => negb (String.eqb s "")
  | JList l => match l with [] => false | _ => true end
  | JDict d => match d with [] => false | _ => true end
  end.

(** ** Exceptions and outcomes *)

Inductive exn : Type :=
| KeyError
| AttributeError
| TypeError
| JSONDecodeError
| AssertionError
| ValidationError
| RuntimeError.

(** What a call does: it returns, it raises, or the model ran out of fuel. *)
Inductive outcome (A : Type) : Type :=
| Ok (a : A)
| Raise (e : exn)
| OutOfFuel.
Arguments Ok {A} a.
Arguments Raise {A} e.
Arguments OutOfFuel {A}.

Definition bind {A B : Type} (c : outcome A) (k : A -> outcome B) : outcome B :=
  match c with
  | Ok a => k a
  | Raise e => Raise e
  | OutOfFuel => OutOfFuel
  end.

Notation "x <- c ;; k" := (bind c (fun x => k))
  (at level 61, c at next level, right associativity).

(** [for item in xs: f(item)], collecting what each call leaves behind. *)
Fixpoint map_m {A B : Type} (f : A -> outcome B) (xs : list A) : outcome (list B) :=
  match xs with
  | [] => Ok []
  | x :: xs' => y <- f x ;; ys <- map_m f xs' ;; Ok (y :: ys)
  end.

(** [for x in xs: state = f(x, state)]. *)
Fixpoint fold_m {A S : Type} (f : A -> S -> outcome S) (xs : list A) (s : S) : outcome S :=
  match xs with
  | [] => Ok s
  | x :: xs' => s' <- f x s ;; fold_m f xs' s'
  end.

(** ** Dict operations *)

(** [dct.get(key)] *)
Fixpoint dict_get (k : string) (d : dict) : option json :=
  match d with
  | [] => None
  | (k', v) :: d' => if String.eqb k k' then Some v else dict_get k d'
  end.

(** [key in dct] *)
Definition dict_mem (k : string) (d : dict) : bool :=
  match dict_get k d with Some _ => true | None => false end.

(** [dct.pop(key, None)], keeping only the dict. *)
Fixpoint dict_pop (k : string) (d : dict) : dict :=
  match d with
  | [] => []
  | (k', v) :: d' => if String.eqb k k' then dict_pop k d' else (k', v) :: dict_pop k d'
  end.

(** [dct[key] = value]: an existing key keeps its place, a new one goes last. *)
Fixpoint dict_set (k : string) (v : json) (d : dict) : dict :=
  match d with
  | [] => [(k, v)]
  | (k', v') :: d' =>
      if String.eqb k k' then (k', v) :: d' else (k', v') :: dict_set k v d'
  end.

(** [dct.update(other)] *)
Definition dict_update (d other : dict) : dict :=
  fold_left (fun acc kv => dict_set (fst kv) (snd kv) acc) other d.

(** [dct.get(key) == text] for a string constant. *)
Definition str_is (k : string) (text : string) (d : dict) : bool :=
  match dict_get k d with
  | Some (JStr s) => String.eqb s text
  | _ => false
  end.

(** ** String helpers *)

(** [s.removeprefix(p)] *)
Definition removeprefix (p s : string) : string :=
  if String.prefix p s then substring (String.length p) (String.length s - String.length p) s
  else s.

(** [s.endswith(x)] *)
Definition endswith (x s : string) : bool :=
  (String.length x <=? String.length s)%nat
  && String.eqb (substring (String.length s - String.length x) (String.length x) s) x.

(** [s.removesuffix(x)] *)
Definition removesuffix (x s : string) : string :=
  if endswith x s && negb (String.eqb x "")
  then substring 0 (String.length s - String.length x) s
  else s.

(** The character class [[a-zA-Z_-]] of [sub_only_text]. *)
Definition is_text_char (c : ascii) : bool :=
  let n := nat_of_ascii c in
  ((97 <=? n) && (n <=? 122) || (65 <=? n) && (n <=? 90) || (n =? 95) || (n =? 45))%nat.

Definition flush (repl : string -> string) (tok : string) : string :=
  match tok with
  | EmptyString => EmptyString
  | _ => repl tok
  end.

(** The scan of [re.sub(r"([a-zA-Z_-]+)", ...)]: [tok] is the run of text
    characters read so far. *)
Fixpoint sub_scan (repl : string -> string) (tok s : string) : string :=
  match s with
  | EmptyString => flush repl tok
  | String c s' =>
      if is_text_char c then sub_scan repl (tok ++ String c EmptyString) s'
      else flush repl tok ++ String c (sub_scan repl EmptyString s')
  end.

(** [sub_only_text(repl, string)]: every maximal run of text characters is
    replaced by [repl] of it, the rest (slashes, [#], digits) stays. *)
Definition sub_only_text (repl : string -> string) (s : string) : string :=
  sub_scan repl EmptyString s.

(** ** The field normalizer (tests/models/test_model_schemas.py) *)

(** The dump of [x] is among the dumps of [l]. *)
Fixpoint json_mem (x : json) (l : list json) : bool :=
  match l with
  | [] => false
  | y :: l' => json_eqb x y || json_mem x l'
  end.

(** [dict.fromkeys]: first occurrences, in order; [seen] holds what was
    kept, newest first. *)
Fixpoint fromkeys (seen l : list json) : list json :=
  match l with
  | [] => rev seen
  | x :: l' => if json_mem x seen then fromkeys seen l' else fromkeys (x :: seen) l'
  end.

(** The characters of a string, one string each (byte by byte here, which
    is Python's reading for ASCII text). *)
Definition chars (s : string) : list json :=
  map (fun c => JStr (String c EmptyString)) (list_ascii_of_string s).

(** What [for d in value] yields: the items of a list, the keys of a dict,
    the characters of a string; anything else is not iterable. *)
Definition iterate (v : json) : outcome (list json) :=
  match v with
  | JList l => Ok l
  | JDict e => Ok (map (fun kv => JStr (fst kv)) e)
  | JStr s => Ok (chars s)
  | _ => Raise TypeError
  end.

(** [deduplicate_dicts(dct, key)]: the items of [dct[key]] are dumped to
    JSON text, [dict.fromkeys] keeps the first occurrence of every text and
    [json.loads] reads them back. *)
Definition deduplicate_dicts (dct : dict) (key : string) : outcome dict :=
  match dict_get key dct with
  | None => Raise KeyError
  | Some v => l <- iterate v ;; Ok (dict_set key (JList (fromkeys [] l)) dct)
  end.

(** [dissolve_single_item_lists(dct, key)]: a list with exactly one item
    that is a dict is popped and its entries are written into the parent. *)
Definition dissolve_single_item_lists (dct : dict) (key : string) : outcome dict :=
  match dict_get key dct with
  | None => Raise KeyError
  | Some (JList [JDict item]) => Ok (dict_update (dict_pop key dct) item)
  | Some (JList _) => Ok dct
  | Some (JDict [_]) => Raise KeyError
  | Some (JDict _) => Ok dct
  | Some (JStr _) => Ok dct
  | Some _ => Raise TypeError
  end.

Definition concept_ref : string := "/schema/entities/concept#/identifier".

Section Normalizer.

(** Imported by the test module from packages outside [src/]:
    [mex.common.types.identifier.MEX_ID_PATTERN],
    [mex.common.types.timestamp.TIMESTAMP_REGEX] and
    [mex.common.transform.dromedary_to_kebab]. *)
Variable MEX_ID_PATTERN : string.
Variable TIMESTAMP_REGEX : string.
Variable dromedary_to_kebab : string -> string.

(** The order in which [{"anyOf", "allOf"} & set(obj)] is iterated: it is
    the order of a set of strings, which Python does not fix. *)
Variable anyOf_first : bool.

(** [obj.get("format") in ("date", "date-time") or
     obj.get("pattern") == TIMESTAMP_REGEX] *)
Definition is_date (d : dict) : bool :=
  str_is "format" "date" d || str_is "format" "date-time" d
  || str_is "pattern" TIMESTAMP_REGEX d.

(** Lines 129-131. *)
Definition unify_dates (d : dict) : dict :=
  if is_date d
  then dict_set "format" (JStr "date-time") (dict_pop "pattern" (dict_pop "examples" d))
  else d.

(** [field in ("identifier", "stableTargetId")] *)
Definition is_identifier_field (field : string) : bool :=
  String.eqb field "identifier" || String.eqb field "stableTargetId".

(** [title.removesuffix("Identifier").removeprefix("Merged")
     .removeprefix("Extracted")]; a title that is no string has no such
    method. *)
Definition entity_name (title : json) : outcome string :=
  match title with
  | JStr t => Ok (removeprefix "Extracted" (removeprefix "Merged" (removesuffix "Identifier" t)))
  | _ => Raise AttributeError
  end.

(** Lines 136-146. *)
Definition align_identifier (field : string) (title : json) (d : dict) : outcome dict :=
  if str_is "pattern" MEX_ID_PATTERN d then
    let d := dict_pop "pattern" d in
    match dict_get "type" d with
    | None => Raise KeyError
    | Some _ =>
        let d := dict_pop "type" d in
        if is_identifier_field field
        then Ok (dict_set "$ref" (JStr "/schema/fields/identifier") d)
        else
          name <- entity_name title ;;
          Ok (dict_set "$ref" (JStr ("/schema/entities/" ++ name ++ "#/identifier")) d)
    end
  else Ok d.

(** Lines 150-151. *)
Definition align_concept (vocabulary : string) (d : dict) : dict :=
  if str_is "$ref" concept_ref d
  then dict_set "$ref" (JStr ("/schema/fields/" ++ vocabulary)) d
  else d.

(** Lines 155-156: [re.sub] wants a string. *)
Definition kebab_ref (d : dict) : outcome dict :=
  match dict_get "$ref" d with
  | None => Ok d
  | Some (JStr s) => Ok (dict_set "$ref" (JStr (sub_only_text dromedary_to_kebab s)) d)
  | Some _ => Raise TypeError
  end.

(** [obj.pop(key, default)], the value. *)
Definition pop_value (k : string) (default : json) (d : dict) : json :=
  match dict_get k d with Some v => v | None => default end.

(** Lines 113-156 of [prepare_field]: everything before the recursive
    calls. *)
Definition prepare_head (field : string) (obj : dict) : outcome dict :=
  let d := dict_pop "sameAs" obj in
  let d := dict_pop "subPropertyOf" d in
  let d := dict_pop "description" d in
  let title := pop_value "title" (JStr "") d in
  let d := dict_pop "title" d in
  let use_scheme := pop_value "useScheme" (JStr "") d in
  let d := dict_pop "useScheme" d in
  vocabulary <- match use_scheme with
                | JStr u => Ok (removeprefix "https://mex.rki.de/item/" u)
                | _ => Raise AttributeError
                end ;;
  let d := unify_dates d in
  d <- align_identifier field title d ;;
  let d := align_concept vocabulary d in
  kebab_ref d.

(** Lines 159-160. *)
Definition prepare_items (rec : json -> outcome json) (d : dict) : outcome dict :=
  if str_is "type" "array" d then
    match dict_get "items" d with
    | None => Raise KeyError
    | Some items => r <- rec items ;; Ok (dict_set "items" r d)
    end
  else Ok d.

(** [{"anyOf", "allOf"} & set(obj)], computed once before the loop. *)
Definition quantifiers (d : dict) : list string :=
  filter (fun q => dict_mem q d)
         (if anyOf_first then ["anyOf"; "allOf"] else ["allOf"; "anyOf"]).

(** The body of the loop, lines 164-168.  The recursive call works in
    place, so its result is what [obj[quantifier]] holds afterwards. *)
Definition prepare_quantifier (rec : json -> outcome json) (q : string) (d : dict)
  : outcome dict :=
  match dict_get q d with
  | None => Raise KeyError
  | Some v =>
      r <- rec v ;;
      d <- deduplicate_dicts (dict_set q r d) q ;;
      dissolve_single_item_lists d q
  end.

(** [prepare_field(field, obj)].  The Python function works in place and
    returns [None]; the model returns the object as the call leaves it.
    A value that is neither a list nor a dict has no [pop]. *)
Fixpoint prepare_field (fuel : nat) (field : string) (obj : json) : outcome json :=
  match fuel with
  | O => OutOfFuel
  | S fuel' =>
      match obj with
      | JList items =>
          rs <- map_m (prepare_field fuel' field) items ;;
          Ok (JList (filter truthy rs))
      | JDict d =>
          d <- prepare_head field d ;;
          d <- prepare_items (prepare_field fuel' field) d ;;
          d <- fold_m (prepare_quantifier (prepare_field fuel' field)) (quantifiers d) d ;;
          Ok (JDict d)
      | _ => Raise AttributeError
      end
  end.

End Normalizer.

(** ** A concrete reading of the imported names *)

Definition is_upper (c : ascii) : bool :=
  let n := nat_of_ascii c in ((65 <=? n) && (n <=? 90))%nat.

Definition lower (c : ascii) : ascii :=
  if is_upper c then ascii_of_nat (nat_of_ascii c + 32) else c.

(** Modelled from the spec: [dromedary_to_kebab] of [mex.common.transform]
    is not under [src/]; the spec asks for the canonical kebab-case form of
    a token, read here as: every capital is lowered, and a capital that
    does not start the token gets a dash in front. *)
Fixpoint kebab_from (start : bool) (s : string) : string :=
  match s with
  | EmptyString => EmptyString
  | String c s' =>
      if is_upper c
      then (if start then String (lower c) (kebab_from false s')
            else String "-"%char (String (lower c) (kebab_from false s')))
      else String c (kebab_from false s')
  end.

Definition kebab (s : string) : string := kebab_from true s.

(** Sample values of the two imported patterns. *)
Definition sample_id_pattern : string := "^[a-zA-Z0-9]{14,22}$".
Definition sample_timestamp_regex : string :=
  "^\d{4}(-\d{2})?(-\d{2})?(T\d{2}:\d{2}:\d{2}Z)?$".

(** The normalizer on these readings, with [anyOf] iterated first. *)
Definition sample_prepare (fuel : nat) (field : string) (obj : json) : outcome json :=
  prepare_field sample_id_pattern sample_timestamp_regex kebab true fuel field obj.

Definition run (field : string) (obj : json) : outcome json :=
  sample_prepare (size obj) field obj.

(** ** Loading the specified schemas and the discriminant check *)

(** [value[key]] for a string key: only a dict can answer. *)
Definition subscript (v : json) (k : string) : outcome json :=
  match v with
  | JDict d => match dict_get k d with Some x => Ok x | None => Raise KeyError end
  | _ => Raise TypeError
  end.

(** [text.replace(" ", "")] *)
Fixpoint remove_spaces (s : string) : string :=
  match s with
  | EmptyString => EmptyString
  | String c s' => if Ascii.eqb c " "%char then remove_spaces s' else String c (remove_spaces s')
  end.

(** [value.replace(" ", "")]: a method of strings only. *)
Definition replace_spaces (v : json) : outcome string :=
  match v with
  | JStr s => Ok (remove_spaces s)
  | _ => Raise AttributeError
  end.

(** [a in b] for two strings. *)
Fixpoint is_substring (a b : string) : bool :=
  String.prefix a b
  || match b with
     | EmptyString => false
     | String _ b' => is_substring a b'
     end.

(** Python [==] on JSON-like values: booleans are the integers 0 and 1,
    lists are compared in order, dicts as sets of entries. *)
Fixpoint py_eq (a b : json) : bool :=
  match a, b with
  | JNull, JNull => true
  | JBool x, JBool y => Bool.eqb x y
  | JBool x, JNum y => Z.eqb (if x then 1 else 0) y
  | JNum x, JBool y => Z.eqb x (if y then 1 else 0)
  | JNum x, JNum y => Z.eqb x y
  | JStr x, JStr y => String.eqb x y
  | JList l, JList m =>
      (fix go (l m : list json) : bool :=
         match l, m with
         | [], [] => true
         | x :: l', y :: m' => py_eq x y && go l' m'
         | _, _ => false
         end) l m
  | JDict d, JDict e =>
      Nat.eqb (List.length d) (List.length e)
      && (fix go (d : list (string * json)) : bool :=
            match d with
            | [] => true
            | (k, x) :: d' =>
                match dict_get k e with
                | Some y => py_eq x y
                | None => false
                end && go d'
            end) d
  | _, _ => false
  end.

(** [name in value]: substring of a string, member of a list, key of a
    dict. *)
Definition py_in (name : string) (v : json) : outcome bool :=
  match v with
  | JStr c => Ok (is_substring name c)
  | JList l => Ok (existsb (py_eq (JStr name)) l)
  | JDict d => Ok (dict_mem name d)
  | _ => Raise TypeError
  end.

(** [generated["properties"]["$type"]["const"]] *)
Definition discriminant (generated : json) : outcome json :=
  p <- subscript generated "properties" ;;
  t <- subscript p "$type" ;;
  subscript t "const".

(** [test_entity_type_matches_class_name]: it passes when it returns, a
    failed [assert] raises [AssertionError]. *)
Definition test_entity_type_matches_class_name (generated specified : json)
  : outcome unit :=
  title <- subscript generated "title" ;;
  const <- discriminant generated ;;
  if negb (py_eq title const) then Raise AssertionError
  else
    spec_title <- subscript specified "title" ;;
    name <- replace_spaces spec_title ;;
    const <- discriminant generated ;;
    found <- py_in name const ;;
    if found then Ok tt else Raise AssertionError.

(** What [json.load(open(file_name))] makes of a file. *)
Inductive file : Type :=
| Malformed
| Document (schema : json).

(** [value.startswith("Concept")]: a method of strings only. *)
Definition startswith_concept (v : json) : outcome bool :=
  match v with
  | JStr s => Ok (String.prefix "Concept" s)
  | _ => Raise AttributeError
  end.

(** The dict comprehension of [SPECIFIED_SCHEMAS], one file after the
    other; [acc] is the dict built so far. *)
Fixpoint collect_schemas (files : list file) (acc : dict) : outcome dict :=
  match files with
  | [] => Ok acc
  | Malformed :: _ => Raise JSONDecodeError
  | Document schema :: files' =>
      if truthy schema then
        title <- subscript schema "title" ;;
        concept <- startswith_concept title ;;
        if concept then collect_schemas files' acc
        else
          title <- subscript schema "title" ;;
          key <- replace_spaces title ;;
          collect_schemas files' (dict_set key schema acc)
      else collect_schemas files' acc
  end.

(** [sorted(items)] on entries with distinct keys: by key. *)
Fixpoint insert_sorted (kv : string * json) (d : dict) : dict :=
  match d with
  | [] => [kv]
  | kv' :: d' =>
      if String.leb (fst kv) (fst kv') then kv :: d else kv' :: insert_sorted kv d'
  end.

Definition sorted (d : dict) : dict := fold_right insert_sorted [] d.

Definition SPECIFIED_SCHEMAS (files : list file) : outcome dict :=
  d <- collect_schemas files [] ;; Ok (sorted d).

(** Importing the test module: [SPECIFIED_SCHEMAS] is a module-level
    statement, whatever follows it in the module ([rest]: the remaining
    definitions and every test) runs only when it returned. *)
Definition import_module {A : Type} (files : list file) (rest : dict -> outcome A)
  : outcome A :=
  specified <- SPECIFIED_SCHEMAS files ;; rest specified.

(** [schema] is a document that gets past [if (schema := ...)] and has no
    ["title"] to offer. *)
Definition lacks_title (schema : json) : bool :=
  match schema with
  | JDict d => negb (dict_mem "title" d)
  | _ => true
  end.

(** ** Settings (mex/common/settings.py) *)

Section Settings.

(** The settings classes, [issubclass] on them, and whether pydantic can
    build an instance of a class from the environment ([parse_obj({})]
    raises a [ValidationError] when it cannot). *)
Variable cls : Type.
Variable issubclass : cls -> cls -> bool.
Variable validates : cls -> bool.

(** A settings object: its class and its identity. *)
Record instance : Type := { type_of : cls; ident : nat }.

(** [SettingsContext] and the allocator of object identities. *)
Record world : Type := { context : option instance; next_ident : nat }.

Definition isinstance (s : instance) (c : cls) : bool := issubclass (type_of s) c.

(** [cls.parse_obj({})] *)
Definition parse_obj (c : cls) (w : world) : outcome instance * world :=
  if validates c
  then (Ok {| type_of := c; ident := next_ident w |},
        {| context := context w; next_ident := S (next_ident w) |})
  else (Raise ValidationError, w).

(** [SettingsContext.set(settings)] *)
Definition context_set (s : option instance) (w : world) : world :=
  {| context := s; next_ident := next_ident w |}.

(** [BaseSettings.get], called on the class [c]. *)
Definition get (c : cls) (w : world) : outcome instance * world :=
  let found :=
    match context w with
    | Some s => (Ok s, w)
    | None =>
        match parse_obj c w with
        | (Ok s, w') => (Ok s, context_set (Some s) w')
        | (r, w') => (r, w')
        end
    end in
  match found with
  | (Ok s, w') => if isinstance s c then (Ok s, w') else (Raise RuntimeError, w')
  | (r, w') => (r, w')
  end.

End Settings.

Arguments type_of {cls} _.
Arguments ident {cls} _.
Arguments context {cls} _.
Arguments next_ident {cls} _.

(** ** Wikidata claims (mex/common/wikidata/models/organization.py) *)

(** [DataValue.transform_strings_to_dict], the pre-parse root validator. *)
Definition transform_strings_to_dict (values : dict) : dict :=
  let wrap (text : json) :=
    [("value", JDict [("language", JNull); ("text", text)])] in
  match dict_get "value" values with
  | None => wrap JNull
  | Some JNull => wrap JNull
  | Some (JStr s) => wrap (JStr s)
  | Some _ => values
  end.

(** ** The other checks of the comparator (tests/models/test_model_schemas.py) *)

(** [GENERATED_SCHEMAS], from the schemas of the model classes by class
    name ([EXTRACTED_MODEL_CLASSES_BY_NAME] with [model_json_schema] applied,
    both outside [src/]). *)
Definition GENERATED_SCHEMAS (schemas_by_name : dict) : dict :=
  sorted (fold_left
            (fun acc kv => dict_set (removeprefix "Extracted" (fst kv)) (snd kv) acc)
            schemas_by_name []).

(** [list(dct)]: the keys. *)
Definition keys (d : dict) : list string := map fst d.

(** [test_entity_types_match_spec], on the two loaded schema sets. *)
Definition test_entity_types_match_spec (generated specified : dict) : outcome unit :=
  if list_eq_dec string_dec (keys generated) (keys specified)
  then Ok tt else Raise AssertionError.

(** [value.items()]: a method of dicts only. *)
Definition items_of (v : json) : outcome dict :=
  match v with
  | JDict d => Ok d
  | _ => Raise AttributeError
  end.

(** Lists and dicts have no hash. *)
Definition hashable (v : json) : bool :=
  match v with
  | JList _ | JDict _ => false
  | _ => true
  end.

(** [set(value)], as the list of what it iterates over. *)
Definition py_set (v : json) : outcome (list json) :=
  l <- iterate v ;;
  if forallb hashable l then Ok l else Raise TypeError.

(** [a == b] for two sets given by their members. *)
Definition set_eq (a b : list json) : bool :=
  forallb (fun x => existsb (py_eq x) b) a && forallb (fun x => existsb (py_eq x) a) b.

(** [test_field_names_match_spec] *)
Definition test_field_names_match_spec (generated specified : json) : outcome unit :=
  properties <- subscript generated "properties" ;;
  entries <- items_of properties ;;
  let generated := dict_pop "$type" entries in
  properties <- subscript specified "properties" ;;
  names <- py_set properties ;;
  if set_eq (map JStr (keys generated)) names then Ok tt else Raise AssertionError.

(** [test_required_fields_match_spec] *)
Definition test_required_fields_match_spec (generated specified : json) : outcome unit :=
  required <- subscript generated "required" ;;
  g <- py_set required ;;
  required <- subscript specified "required" ;;
  s <- py_set required ;;
  if set_eq g s then Ok tt else Raise AssertionError.

(** The last three statements of [test_field_defs_match_spec]: both
    fragments are normalized and compared with [==]. *)
Definition compare_fragments (mex ts : string) (repl : string -> string) (af : bool)
           (fuel : nat) (field_name : string) (generated specified : json)
  : outcome unit :=
  specified <- prepare_field mex ts repl af fuel field_name specified ;;
  generated <- prepare_field mex ts repl af fuel field_name generated ;;
  if py_eq generated specified then Ok tt else Raise AssertionError.

(** [test_field_defs_match_spec], on the two loaded schema sets. *)
Definition test_field_defs_match_spec (mex ts : string) (repl : string -> string)
           (af : bool) (fuel : nat) (generated_schemas specified_schemas : dict)
           (entity_type field_name : string) : outcome unit :=
  schema <- subscript (JDict specified_schemas) entity_type ;;
  specified_properties <- subscript schema "properties" ;;
  schema <- subscript (JDict generated_schemas) entity_type ;;
  generated_properties <- subscript schema "properties" ;;
  specified <- subscript specified_properties field_name ;;
  generated <- subscript generated_properties field_name ;;
  compare_fragments mex ts repl af fuel field_name generated specified.

(** ** Rendering the settings (mex/common/settings.py) *)

Definition quote : ascii := ascii_of_nat 34.
Definition backslash : ascii := ascii_of_nat 92.
Definition newline : ascii := ascii_of_nat 10.

(** [value.replace(QUOTE, BACKSLASH + QUOTE)] of [env_text]. *)
Fixpoint escape_quotes (s : string) : string :=
  match s with
  | EmptyString => EmptyString
  | String c s' =>
      if Ascii.eqb c quote then String backslash (String quote (escape_quotes s'))
      else String c (escape_quotes s')
  end.

(** One line of [env_text]: the key, [=], and the escaped value in quotes. *)
Definition env_line (kv : string * string) : string :=
  (fst kv ++ "=" ++ String quote (escape_quotes (snd kv) ++ String quote EmptyString))%string.

(** [sorted(mapping.items())] for a mapping from strings to strings. *)
Fixpoint insert_variable (kv : string * string) (l : list (string * string))
  : list (string * string) :=
  match l with
  | [] => [kv]
  | kv' :: l' =>
      if String.leb (fst kv) (fst kv') then kv :: l else kv' :: insert_variable kv l'
  end.

(** [env_text], from what [self.env()] returns. *)
Definition env_text (env : list (string * string)) : string :=
  String.concat (String newline EmptyString)
                (map env_line (fold_right insert_variable [] env)).

(** [isolate_settings_context] of the pytest plugin
    (mex/common/testing/plugin.py), after the test: [SettingsContext.set(None)]. *)
Definition isolate_settings_context {cls : Type} (w : world cls) : world cls :=
  context_set cls None w.

(** ** Organigram lookups (mex/common/organigram/extract.py) *)

Module Organigram.

(** [Text] and the fields of [ExtractedOrganizationalUnit] that the module
    reads (the classes are declared outside [src/]). *)
Record Text : Type := { value : string; language : option string }.

Record ExtractedOrganizationalUnit : Type := {
  name : list Text;
  shortName : list Text;
  alternativeName : list Text;
  email : list string;
  stableTargetId : string
}.

(** A dict from strings to identifiers, in insertion order. *)
Definition mapping : Type := list (string * string).

Fixpoint lookup (k : string) (m : mapping) : option string :=
  match m with
  | [] => None
  | (k', v) :: m' => if String.eqb k k' then Some v else lookup k m'
  end.

(** [m[k] = v] *)
Fixpoint assign (k v : string) (m : mapping) : mapping :=
  match m with
  | [] => [(k, v)]
  | (k', v') :: m' =>
      if String.eqb k k' then (k', v) :: m' else (k', v') :: assign k v m'
  end.

(** [get_synonyms] *)
Definition get_synonyms (extracted_unit : ExtractedOrganizationalUnit) : list Text :=
  name extracted_unit ++ shortName extracted_unit ++ alternativeName extracted_unit.

(** [get_unit_merged_ids_by_synonyms]: the comprehension, unit by unit and
    synonym by synonym. *)
Definition get_unit_merged_ids_by_synonyms
           (extracted_units : list ExtractedOrganizationalUnit) : mapping :=
  fold_left
    (fun acc extracted_unit =>
       fold_left (fun acc synonym => assign (value synonym) (stableTargetId extracted_unit) acc)
                 (get_synonyms extracted_unit) acc)
    extracted_units [].

Section Emails.

(** [str.lower] *)
Variable str_lower : string -> string.

(** [get_unit_merged_ids_by_emails] *)
Definition get_unit_merged_ids_by_emails
           (extracted_units : list ExtractedOrganizationalUnit) : mapping :=
  fold_left
    (fun acc extracted_unit =>
       fold_left (fun acc address => assign (str_lower address) (stableTargetId extracted_unit) acc)
                 (email extracted_unit) acc)
    extracted_units [].

End Emails.

(** [str.lower] on ASCII text. *)
Fixpoint ascii_lower (s : string) : string :=
  match s with
  | EmptyString => EmptyString
  | String c s' => String (lower c) (ascii_lower s')
  end.

End Organigram.

(** ** Notions the further properties are stated with *)

(** The keys of a dict are distinct, as Python has them. *)
Fixpoint unique_keys (d : dict) : bool :=
  match d with
  | [] => true
  | (k, _) :: d' => negb (dict_mem k d') && unique_keys d'
  end.

(** Every dict inside the value has distinct keys. *)
Fixpoint well_formed (j : json) : bool :=
  match j with
  | JList l => forallb well_formed l
  | JDict d => unique_keys d && forallb (fun kv => well_formed (snd kv)) d
  | _ => true
  end.

(** What a normalized dict never shows: the annotations that are popped, a
    date-only format, the timestamp pattern, the identifier pattern. *)
Definition normal_keys (MEX_ID_PATTERN TIMESTAMP_REGEX : string) (d : dict) : bool :=
  negb (dict_mem "sameAs" d) && negb (dict_mem "subPropertyOf" d)
  && negb (dict_mem "description" d) && negb (dict_mem "title" d)
  && negb (dict_mem "useScheme" d)
  && negb (str_is "format" "date" d)
  && negb (str_is "pattern" TIMESTAMP_REGEX d)
  && negb (str_is "pattern" MEX_ID_PATTERN d).

(** A normalized fragment: a dict with distinct and normal keys, or a list
    of normalized fragments. *)
Fixpoint normalized (MEX_ID_PATTERN TIMESTAMP_REGEX : string) (j : json) : bool :=
  match j with
  | JList l => forallb (normalized MEX_ID_PATTERN TIMESTAMP_REGEX) l
  | JDict d => unique_keys d && normal_keys MEX_ID_PATTERN TIMESTAMP_REGEX d
  | _ => true
  end.

(** Every character of the string is in the class of [sub_only_text]. *)
Fixpoint all_text (s : string) : bool :=
  match s with
  | EmptyString => true
  | String c s' => is_text_char c && all_text s'
  end.

(** The names come in ascending order. *)
Definition ascending (l : list string) : Prop :=
  StronglySorted (fun a b => String.leb a b = true) l.

(** [schema] is a document of [files] that is kept under [key]: it is
    truthy, and its title is a string that does not start with
    ["Concept"] and gives the key once its spaces are removed. *)
Definition kept_under (files : list file) (key : string) (schema : json) : Prop :=
  In (Document schema) files /\ truthy schema = true
  /\ exists title,
       subscript schema "title" = Ok (JStr title)
       /\ String.prefix "Concept" title = false
       /\ key = remove_spaces title.

(** The value under ["value"] is neither missing, nor [None], nor a bare
    string. *)
Definition structured (values : dict) : bool :=
  match dict_get "value" values with
  | None | Some JNull | Some (JStr _) => false
  | Some _ => true
  end.

(** The identifiers that a list of units gives to the keys [keys_of] reads
    off each unit, unit by unit and key by key: the shape of both lookup
    tables of the organigram. *)
Definition index_by (keys_of : Organigram.ExtractedOrganizationalUnit -> list string)
           (units : list Organigram.ExtractedOrganizationalUnit) : Organigram.mapping :=
  fold_left
    (fun acc unit =>
       fold_left (fun acc k => Organigram.assign k (Organigram.stableTargetId unit) acc)
                 (keys_of unit) acc)
    units [].

(** The values of a dict all satisfy [P]. *)
Definition values_all (P : json -> Prop) (d : dict) : Prop :=
  Forall (fun kv => P (snd kv)) d.

(** The keys [normal_keys] looks at. *)
Definition normal_key_names : list string :=
  ["sameAs"; "subPropertyOf"; "description"; "title"; "useScheme"; "format"; "pattern"].

(** [rec] turns values with distinct keys into normalized ones. *)
Definition normalizes (MEX_ID_PATTERN TIMESTAMP_REGEX : string)
           (rec : json -> outcome json) : Prop :=
  forall v r, well_formed v = true -> rec v = Ok r ->
              well_formed r = true
              /\ normalized MEX_ID_PATTERN TIMESTAMP_REGEX r = true.

(** A dict with distinct keys everywhere and normal keys on top. *)
Definition normal_dict (MEX_ID_PATTERN TIMESTAMP_REGEX : string) (d : dict) : Prop :=
  well_formed (JDict d) = true
  /\ normal_keys MEX_ID_PATTERN TIMESTAMP_REGEX d = true.

(** ** Notions the properties are stated with *)

(** No rule of the normalizer applies to the dict: none of the annotations
    it pops, no date, no identifier pattern, no reference, no array, no
    union. *)
Definition matches_no_rule (MEX_ID_PATTERN TIMESTAMP_REGEX : string) (d : dict) : bool :=
  negb (dict_mem "sameAs" d) && negb (dict_mem "subPropertyOf" d)
  && negb (dict_mem "description" d) && negb (dict_mem "title" d)
  && negb (dict_mem "useScheme" d) && negb (is_date TIMESTAMP_REGEX d)
  && negb (str_is "pattern" MEX_ID_PATTERN d) && negb (dict_mem "$ref" d)
  && negb (str_is "type" "array" d)
  && negb (dict_mem "anyOf" d) && negb (dict_mem "allOf" d).

(** The dict has no union-like container. *)
Definition no_union (d : dict) : bool :=
  negb (dict_mem "anyOf" d) && negb (dict_mem "allOf" d).

(** The value under [k], when there is one, is a string. *)
Definition str_or_absent (k : string) (d : dict) : bool :=
  match dict_get k d with
  | None | Some (JStr _) => true
  | Some _ => false
  end.

(** Lines 113-119: the annotations that are popped. *)
Definition discard_annotations (d : dict) : dict :=
  dict_pop "useScheme" (dict_pop "title" (dict_pop "description"
    (dict_pop "subPropertyOf" (dict_pop "sameAs" d)))).

(** [title.removesuffix("Identifier").removeprefix("Merged")
     .removeprefix("Extracted")] on a string. *)
Definition strip_title (title : string) : string :=
  removeprefix "Extracted" (removeprefix "Merged" (removesuffix "Identifier" title)).

(** The reference an identifier fragment ends up with, before its casing
    is aligned: the shared identifier for the two universal fields, else
    the identifier of the entity the title names; the generic concept
    identifier is replaced by the vocabulary. *)
Definition reference_path (field title vocabulary : string) : string :=
  if is_identifier_field field then "/schema/fields/identifier"
  else
    let path := ("/schema/entities/" ++ strip_title title ++ "#/identifier")%string in
    if String.eqb path concept_ref then ("/schema/fields/" ++ vocabulary)%string else path.

(** The reference of the dict, when it has one, is in the casing [repl]
    gives it and is not the generic concept reference. *)
Definition ref_settled (repl : string -> string) (d : dict) : bool :=
  match dict_get "$ref" d with
  | Some (JStr s) => String.eqb (sub_only_text repl s) s && negb (String.eqb s concept_ref)
  | _ => true
  end.

(** [p] holds of the fragment and of every dict the normalizer reaches
    from it through lists and ["items"]. *)
Fixpoint throughout (p : dict -> bool) (j : json) : bool :=
  match j with
  | JList l => forallb (throughout p) l
  | JDict d =>
      p d && forallb (fun kv => negb (String.eqb (fst kv) "items") || throughout p (snd kv)) d
  | _ => true
  end.

(** No dict the normalizer reaches has a union-like container. *)
Definition union_free (j : json) : bool := throughout no_union j.

(** Every reference the normalizer reaches is settled. *)
Definition settled (repl : string -> string) (j : json) : bool :=
  throughout (ref_settled repl) j.

Definition is_container (j : json) : bool :=
  match j with
  | JList _ | JDict _ => true
  | _ => false
  end.

Definition sizes (l : list json) : nat := list_sum (map size l).
Arguments sizes : simpl never.

(** [rec] answers on every value of size at most [n], with a list or a dict
    that is no larger than what it was given. *)
Definition answers (n : nat) (rec : json -> outcome json) : Prop :=
  forall v, size v <= n ->
    rec v <> OutOfFuel /\
    forall r, rec v = Ok r -> size r <= size v /\ is_container r = true.

(** [g] answers as [f] wherever [f] answers. *)
Definition extends (f g : json -> outcome json) : Prop :=
  forall v, f v <> OutOfFuel -> g v = f v.

(** The keys the head of the normalizer reads or writes. *)
Definition head_keys : list string :=
  ["sameAs"; "subPropertyOf"; "description"; "title"; "useScheme";
   "format"; "pattern"; "examples"; "type"; "$ref"].

(** What the date rule leaves, before the reference rules run. *)
Definition unified (d : dict) : dict :=
  dict_set "format" (JStr "date-time")
    (dict_pop "pattern" (dict_pop "examples" (discard_annotations d))).

(** The fragment once the pattern and the type are gone. *)
Definition stripped (d : dict) : dict :=
  dict_pop "type" (dict_pop "pattern" (discard_annotations d)).

(** A file that cannot be loaded: its text is no JSON, or its document is
    truthy and has no title. *)
Definition unloadable (f : file) : bool :=
  match f with
  | Malformed => true
  | Document schema => truthy schema && lacks_title schema
  end.

(** What loading a schema file can raise: [json.load] on bad text, a
    subscript on a document without title or on one that is no dict, a string
    method on a title that is no string. *)
Definition load_errors : list exn :=
  [JSONDecodeError; KeyError; TypeError; AttributeError].

(** Whitespace as the specification of the discriminant check has it:
    what [str.isspace] accepts among the ASCII characters. *)
Definition is_whitespace (c : ascii) : bool :=
  let n := nat_of_ascii c in
  ((9 <=? n) && (n <=? 13) || (28 <=? n) && (n <=? 32))%nat.

(** The title with its whitespace removed, in the words of the
    specification; the code removes spaces only, see [remove_spaces]. *)
Fixpoint remove_whitespace (s : string) : string :=
  match s with
  | EmptyString => EmptyString
  | String c s' =>
      if is_whitespace c then remove_whitespace s' else String c (remove_whitespace s')
  end.

Definition tab : ascii := ascii_of_nat 9.

(** A title with a tab between its words. *)
Definition tabbed_title : string := ("Contact" ++ String tab "Point")%string.

(** Two classes, [BaseSettings] ([false]) and a subclass of it ([true]). *)
Definition two_classes_issubclass (a b : bool) : bool := implb b a.

(** The one item of a list, when it is a dict. *)
Definition single_dict (l : list json) : option dict :=
  match l with
  | [JDict item] => Some item
  | _ => None
  end.

(** [rec] treats a reordered list as it treats the list, up to the order
    of what it leaves. *)
Definition order_blind (rec : json -> outcome json) : Prop :=
  forall l l' r,
    Permutation l l' -> rec (JList l) = Ok r ->
    exists m m', r = JList m /\ rec (JList l') = Ok (JList m') /\ Permutation m m'.

(** Two values under the key [k] are the same, or, under the key [q] of the
    reordered container, two lists with the same items in another order. *)
Definition same_or_permuted (q k : string) (v v' : json) : Prop :=
  v = v' \/ (k = q /\ exists l l', v = JList l /\ v' = JList l' /\ Permutation l l').

(** Two dicts have the same keys in the same order, with the same values
    but for the order of the items under [q]. *)
Definition reordered (q : string) (d d' : dict) : Prop :=
  Forall2 (fun e e' => fst e = fst e' /\ same_or_permuted q (fst e) (snd e) (snd e')) d d'.

(** What the head of the normalizer leaves behind: no annotation, no
    identifier pattern, a unified date if any, and a string as reference. *)
Definition head_normal (MEX_ID_PATTERN TIMESTAMP_REGEX : string) (d : dict) : Prop :=
  dict_get "sameAs" d = None /\ dict_get "subPropertyOf" d = None
  /\ dict_get "description" d = None /\ dict_get "title" d = None
  /\ dict_get "useScheme" d = None
  /\ str_is "pattern" MEX_ID_PATTERN d = false
  /\ (is_date TIMESTAMP_REGEX d = true ->
      dict_get "format" d = Some (JStr "date-time")
      /\ dict_get "pattern" d = None /\ dict_get "examples" d = None)
  /\ str_or_absent "$ref" d = true.

(** * Properties *)

(** ** Dicts *)

Lemma dict_get_pop_same (k : string) (d : dict) : dict_get k (dict_pop k d) = None.
Proof.
  induction d as [|[k' v] d IH]; simpl; auto.
  destruct (String.eqb k k') eqn:E; simpl; auto.
  now rewrite E.
Qed.

Lemma dict_get_pop_other (k k' : string) (d : dict) :
  k <> k' -> dict_get k (dict_pop k' d) = dict_get k d.
Proof.
  intros Hk. induction d as [|[k0 v] d IH]; simpl; auto.
  destruct (String.eqb k' k0) eqn:E; simpl.
  - apply String.eqb_eq in E. subst k0.
    apply String.eqb_neq in Hk. now rewrite Hk.
  - now rewrite IH.
Qed.

Lemma dict_get_set_same (k : string) (v : json) (d : dict) :
  dict_get k (dict_set k v d) = Some v.
Proof.
  induction d as [|[k' v'] d IH]; simpl.
  - now rewrite String.eqb_refl.
  - destruct (String.eqb k k') eqn:E; simpl; now rewrite E.
Qed.

Lemma dict_get_set_other (k k' : string) (v : json) (d : dict) :
  k <> k' -> dict_get k (dict_set k' v d) = dict_get k d.
Proof.
  intros Hk. induction d as [|[k0 v0] d IH]; simpl.
  - apply String.eqb_neq in Hk. now rewrite Hk.
  - destruct (String.eqb k' k0) eqn:E; simpl.
    + apply String.eqb_eq in E. subst k0.
      apply String.eqb_neq in Hk. now rewrite Hk.
    + now rewrite IH.
Qed.

Lemma dict_pop_absent (k : string) (d : dict) :
  dict_get k d = None -> dict_pop k d = d.
Proof.
  induction d as [|[k' v] d IH]; simpl; auto.
  destruct (String.eqb k k'); [discriminate|].
  intros H. now rewrite IH.
Qed.

Lemma dict_set_same_value (k : string) (v : json) (d : dict) :
  dict_get k d = Some v -> dict_set k v d = d.
Proof.
  induction d as [|[k' v'] d IH]; simpl; [discriminate|].
  destruct (String.eqb k k').
  - now intros [= ->].
  - intros H. now rewrite IH.
Qed.

Lemma dict_mem_pop_other (k k' : string) (d : dict) :
  k <> k' -> dict_mem k (dict_pop k' d) = dict_mem k d.
Proof. intros H. unfold dict_mem. now rewrite dict_get_pop_other. Qed.

Lemma dict_mem_set_other (k k' : string) (v : json) (d : dict) :
  k <> k' -> dict_mem k (dict_set k' v d) = dict_mem k d.
Proof. intros H. unfold dict_mem. now rewrite dict_get_set_other. Qed.

Lemma str_is_pop_other (k k' text : string) (d : dict) :
  k <> k' -> str_is k text (dict_pop k' d) = str_is k text d.
Proof. intros H. unfold str_is. now rewrite dict_get_pop_other. Qed.

Lemma str_is_set_other (k k' text : string) (v : json) (d : dict) :
  k <> k' -> str_is k text (dict_set k' v d) = str_is k text d.
Proof. intros H. unfold str_is. now rewrite dict_get_set_other. Qed.

Lemma str_is_pop_same (k text : string) (d : dict) :
  str_is k text (dict_pop k d) = false.
Proof. unfold str_is. now rewrite dict_get_pop_same. Qed.

Lemma str_is_absent (k text : string) (d : dict) :
  dict_get k d = None -> str_is k text d = false.
Proof. unfold str_is. now intros ->. Qed.

(** ** Sizes *)

Lemma size_pos (j : json) : 1 <= size j.
Proof. destruct j; simpl; lia. Qed.

Lemma size_dict (d : dict) : size (JDict d) = S (entries_size d).
Proof. reflexivity. Qed.

Lemma entries_size_cons (k : string) (v : json) (d : dict) :
  entries_size ((k, v) :: d) = S (size v) + entries_size d.
Proof. reflexivity. Qed.

Lemma entries_size_pop (k : string) (d : dict) :
  entries_size (dict_pop k d) <= entries_size d.
Proof.
  induction d as [|[k' v] d IH]; cbn [dict_set dict_pop dict_get]; auto.
  destruct (String.eqb k k'); rewrite ?entries_size_cons; lia.
Qed.

Lemma entries_size_pop_present (k : string) (v : json) (d : dict) :
  dict_get k d = Some v ->
  entries_size (dict_pop k d) + S (size v) <= entries_size d.
Proof.
  induction d as [|[k' v'] d IH]; cbn [dict_set dict_pop dict_get]; [discriminate|].
  destruct (String.eqb k k').
  - intros [= ->]. rewrite entries_size_cons.
    pose proof (entries_size_pop k d). lia.
  - intros H. rewrite !entries_size_cons. specialize (IH H). lia.
Qed.

Lemma entries_size_set (k : string) (v : json) (d : dict) :
  entries_size (dict_set k v d) <= entries_size d + S (size v).
Proof.
  induction d as [|[k' v'] d IH]; cbn [dict_set dict_pop dict_get].
  - rewrite entries_size_cons. unfold entries_size; simpl. lia.
  - destruct (String.eqb k k'); rewrite !entries_size_cons; lia.
Qed.

Lemma entries_size_set_str (k s : string) (d : dict) :
  entries_size (dict_set k (JStr s) d) <= entries_size d + 2.
Proof. pose proof (entries_size_set k (JStr s) d) as H. cbn [size] in H. lia. Qed.

Lemma entries_size_set_present (k : string) (v v0 : json) (d : dict) :
  dict_get k d = Some v0 ->
  entries_size (dict_set k v d) + size v0 = entries_size d + size v.
Proof.
  induction d as [|[k' v'] d IH]; cbn [dict_set dict_pop dict_get]; [discriminate|].
  destruct (String.eqb k k').
  - intros [= ->]. rewrite !entries_size_cons. lia.
  - intros H. rewrite !entries_size_cons. specialize (IH H). lia.
Qed.

Lemma entries_size_update (d other : dict) :
  entries_size (dict_update d other) <= entries_size d + entries_size other.
Proof.
  unfold dict_update. revert d.
  induction other as [|[k v] o IH]; intros d; simpl.
  - unfold entries_size at 3; simpl. lia.
  - rewrite entries_size_cons. specialize (IH (dict_set k v d)).
    pose proof (entries_size_set k v d). lia.
Qed.

Lemma sizes_cons (x : json) (l : list json) : sizes (x :: l) = size x + sizes l.
Proof. reflexivity. Qed.

Lemma sizes_app (l m : list json) : sizes (l ++ m) = sizes l + sizes m.
Proof. unfold sizes. now rewrite map_app, list_sum_app. Qed.

Lemma sizes_rev (l : list json) : sizes (rev l) = sizes l.
Proof.
  induction l as [|x l IH]; cbn [rev]; auto.
  rewrite sizes_app, IH, !sizes_cons. unfold sizes at 2; simpl. lia.
Qed.

Lemma sizes_filter (p : json -> bool) (l : list json) : sizes (filter p l) <= sizes l.
Proof.
  induction l as [|x l IH]; cbn [filter]; auto.
  destruct (p x); rewrite ?sizes_cons; lia.
Qed.

Lemma size_list (l : list json) : size (JList l) = S (sizes l).
Proof. reflexivity. Qed.

Lemma sizes_fromkeys (seen l : list json) :
  sizes (fromkeys seen l) <= sizes seen + sizes l.
Proof.
  revert seen. induction l as [|x l IH]; intros seen; cbn [fromkeys].
  - rewrite sizes_rev. lia.
  - destruct (json_mem x seen).
    + specialize (IH seen). rewrite sizes_cons. lia.
    + specialize (IH (x :: seen)). rewrite !sizes_cons in *. lia.
Qed.

Lemma dict_get_size (k : string) (v : json) (d : dict) :
  dict_get k d = Some v -> S (size v) <= entries_size d.
Proof.
  intros H. pose proof (entries_size_pop_present k v d H). lia.
Qed.

Lemma sizes_keys (e : dict) :
  sizes (map (fun kv => JStr (fst kv)) e) <= entries_size e.
Proof.
  induction e as [|[k v] e IH]; cbn [map].
  - unfold sizes, entries_size; simpl; lia.
  - rewrite sizes_cons, entries_size_cons. simpl. lia.
Qed.

(** ** Termination of the normalizer *)

Lemma map_m_answers (n : nat) (rec : json -> outcome json) (l : list json) :
  answers n rec -> sizes l <= n ->
  map_m rec l <> OutOfFuel /\
  forall rs, map_m rec l = Ok rs -> sizes rs <= sizes l.
Proof.
  intros Hrec. induction l as [|x l IH]; intros Hn; cbn [map_m].
  - split; [discriminate|]. intros rs [= <-]. lia.
  - rewrite sizes_cons in Hn. pose proof (size_pos x).
    destruct (Hrec x) as [Hx1 Hx2]; [lia|].
    destruct IH as [IH1 IH2]; [lia|].
    destruct (rec x) as [y| |]; cbn [bind]; [|split; [discriminate|discriminate]|contradiction].
    destruct (map_m rec l) as [ys| |]; cbn [bind];
      [|split; [discriminate|discriminate]|contradiction].
    split; [discriminate|]. intros rs [= <-].
    rewrite !sizes_cons. specialize (IH2 ys eq_refl).
    destruct (Hx2 y eq_refl). lia.
Qed.

Lemma deduplicate_dicts_size (d d' : dict) (q : string) (v : json) :
  dict_get q d = Some v -> is_container v = true ->
  deduplicate_dicts d q = Ok d' ->
  entries_size d' <= entries_size d /\
  exists l, dict_get q d' = Some (JList l).
Proof.
  intros Hget Hc. unfold deduplicate_dicts. rewrite Hget.
  destruct v as [| | | |l|e]; try discriminate; cbn [iterate bind]; intros [= <-].
  - split; [|eexists; apply dict_get_set_same].
    pose proof (entries_size_set_present q (JList (fromkeys [] l)) _ d Hget) as E.
    pose proof (sizes_fromkeys [] l) as F.
    rewrite !size_list in E. unfold sizes at 2 in F. simpl in F. lia.
  - split; [|eexists; apply dict_get_set_same].
    pose proof (entries_size_set_present q
                  (JList (fromkeys [] (map (fun kv => JStr (fst kv)) e))) _ d Hget) as E.
    pose proof (sizes_fromkeys [] (map (fun kv => JStr (fst kv)) e)) as F.
    pose proof (sizes_keys e) as G.
    rewrite size_list, size_dict in E. unfold sizes at 2 in F. simpl in F. lia.
Qed.

Lemma dissolve_single_item_lists_size (d d' : dict) (q : string) (l : list json) :
  dict_get q d = Some (JList l) ->
  dissolve_single_item_lists d q = Ok d' ->
  entries_size d' <= entries_size d.
Proof.
  intros Hget. unfold dissolve_single_item_lists. rewrite Hget.
  destruct l as [|[| | | |m|item] [|y l]]; try (intros [= <-]; lia).
  intros [= <-].
  pose proof (entries_size_update (dict_pop q d) item).
  pose proof (entries_size_pop_present q _ d Hget) as E.
  rewrite size_list, sizes_cons, size_dict in E. lia.
Qed.

Lemma dissolve_single_item_lists_returns (d : dict) (q : string) (l : list json) :
  dict_get q d = Some (JList l) ->
  exists d', dissolve_single_item_lists d q = Ok d'.
Proof.
  intros Hget. unfold dissolve_single_item_lists. rewrite Hget.
  destruct l as [|[| | | |m|item] [|y l]]; eexists; reflexivity.
Qed.

Lemma str_is_true (k text : string) (d : dict) :
  str_is k text d = true -> dict_get k d = Some (JStr text).
Proof.
  unfold str_is. destruct (dict_get k d) as [[| | |s| |]|]; try discriminate.
  intros H. apply String.eqb_eq in H. now subst.
Qed.

Lemma str_is_get (k text : string) (d : dict) :
  dict_get k d = Some (JStr text) -> str_is k text d = true.
Proof. unfold str_is. intros ->. apply String.eqb_refl. Qed.

Ltac str_neq := let H := fresh in intro H; discriminate H.

Section NormalizerFacts.

Variable MEX_ID_PATTERN : string.
Variable TIMESTAMP_REGEX : string.
Variable dromedary_to_kebab : string -> string.
Variable anyOf_first : bool.

Local Abbreviation head := (prepare_head MEX_ID_PATTERN TIMESTAMP_REGEX dromedary_to_kebab).
Local Abbreviation prepare :=
  (prepare_field MEX_ID_PATTERN TIMESTAMP_REGEX dromedary_to_kebab anyOf_first).

Lemma is_date_cases (d : dict) :
  is_date TIMESTAMP_REGEX d = true ->
  (exists s, dict_get "format" d = Some (JStr s))
  \/ (exists s, dict_get "pattern" d = Some (JStr s)).
Proof.
  unfold is_date. intros H.
  apply orb_true_iff in H as [H|H]; [apply orb_true_iff in H as [H|H]|];
    apply str_is_true in H; eauto.
Qed.

Lemma unify_dates_size (d : dict) :
  entries_size (unify_dates TIMESTAMP_REGEX d) <= entries_size d.
Proof.
  unfold unify_dates. destruct (is_date TIMESTAMP_REGEX d) eqn:E; [|lia].
  pose proof (entries_size_pop "examples" d) as Hex.
  destruct (dict_get "pattern" (dict_pop "examples" d)) as [p|] eqn:P.
  - pose proof (entries_size_pop_present _ _ _ P).
    pose proof (entries_size_set "format" (JStr "date-time")
                  (dict_pop "pattern" (dict_pop "examples" d))).
    pose proof (size_pos p). cbn [size] in *. lia.
  - rewrite (dict_pop_absent _ _ P).
    rewrite dict_get_pop_other in P by str_neq.
    apply is_date_cases in E as [[s F]|[s F]]; [|congruence].
    assert (dict_get "format" (dict_pop "examples" d) = Some (JStr s)) as F'
        by (rewrite dict_get_pop_other by str_neq; exact F).
    pose proof (entries_size_set_present "format" (JStr "date-time") _ _ F') as G.
    cbn [size] in G. lia.
Qed.

Lemma align_identifier_size (field : string) (title : json) (d d' : dict) :
  align_identifier MEX_ID_PATTERN field title d = Ok d' ->
  entries_size d' <= entries_size d.
Proof.
  unfold align_identifier.
  destruct (str_is "pattern" MEX_ID_PATTERN d) eqn:E; [|intros [= <-]; lia].
  apply str_is_true in E.
  pose proof (entries_size_pop_present _ _ _ E) as P. cbn [size] in P.
  destruct (dict_get "type" (dict_pop "pattern" d)); [|discriminate].
  pose proof (entries_size_pop "type" (dict_pop "pattern" d)) as T.
  destruct (is_identifier_field field).
  - intros [= <-].
    etransitivity; [apply entries_size_set_str|lia].
  - destruct (entity_name title) as [name| |]; cbn [bind]; try discriminate.
    intros [= <-].
    etransitivity; [apply entries_size_set_str|lia].
Qed.

Lemma align_identifier_answers (field : string) (title : json) (d : dict) :
  align_identifier MEX_ID_PATTERN field title d <> OutOfFuel.
Proof.
  unfold align_identifier.
  destruct (str_is "pattern" MEX_ID_PATTERN d); [|discriminate].
  destruct (dict_get "type" (dict_pop "pattern" d)); [|discriminate].
  destruct (is_identifier_field field); [discriminate|].
  destruct title; cbn; discriminate.
Qed.

Lemma align_concept_size (vocabulary : string) (d : dict) :
  entries_size (align_concept vocabulary d) = entries_size d.
Proof.
  unfold align_concept. destruct (str_is "$ref" concept_ref d) eqn:E; [|reflexivity].
  apply str_is_true in E.
  pose proof (entries_size_set_present "$ref" (JStr ("/schema/fields/" ++ vocabulary)) _ _ E) as G.
  cbn [size] in G. lia.
Qed.

Lemma kebab_ref_size (d d' : dict) :
  kebab_ref dromedary_to_kebab d = Ok d' -> entries_size d' = entries_size d.
Proof.
  unfold kebab_ref. destruct (dict_get "$ref" d) as [[| | |s| |]|] eqn:E;
    try discriminate; intros [= <-]; [|reflexivity].
  pose proof (entries_size_set_present "$ref"
                (JStr (sub_only_text dromedary_to_kebab s)) _ _ E) as G.
  cbn [size] in G. lia.
Qed.

Lemma kebab_ref_answers (d : dict) : kebab_ref dromedary_to_kebab d <> OutOfFuel.
Proof.
  unfold kebab_ref. destruct (dict_get "$ref" d) as [[| | |s| |]|]; discriminate.
Qed.

Lemma prepare_head_size (field : string) (d d' : dict) :
  head field d = Ok d' -> entries_size d' <= entries_size d.
Proof.
  unfold prepare_head.
  set (d0 := dict_pop "useScheme" _).
  assert (entries_size d0 <= entries_size d) as H0.
  { subst d0. repeat (etransitivity; [apply entries_size_pop|]). lia. }
  destruct (pop_value "useScheme" _ _) as [| | |u| |]; cbn [bind]; try discriminate.
  destruct (align_identifier _ _ _ _) as [d1| |] eqn:A; cbn [bind]; try discriminate.
  apply align_identifier_size in A.
  intros K. apply kebab_ref_size in K. rewrite align_concept_size in K.
  pose proof (unify_dates_size d0). lia.
Qed.

Lemma prepare_head_answers (field : string) (d : dict) : head field d <> OutOfFuel.
Proof.
  unfold prepare_head.
  destruct (pop_value "useScheme" _ _) as [| | |u| |]; cbn [bind]; try discriminate.
  destruct (align_identifier _ _ _ _) as [d1| |] eqn:A; cbn [bind]; try discriminate.
  - apply kebab_ref_answers.
  - now apply align_identifier_answers in A.
Qed.

Lemma prepare_items_answers (n : nat) (rec : json -> outcome json) (d : dict) :
  answers n rec -> entries_size d <= n ->
  prepare_items rec d <> OutOfFuel /\
  forall d', prepare_items rec d = Ok d' -> entries_size d' <= entries_size d.
Proof.
  intros Hrec Hn. unfold prepare_items.
  destruct (str_is "type" "array" d); [|split; [discriminate|intros d' [= <-]; lia]].
  destruct (dict_get "items" d) as [items|] eqn:E; [|split; discriminate].
  pose proof (dict_get_size _ _ _ E) as Hv.
  destruct (Hrec items) as [H1 H2]; [lia|].
  destruct (rec items) as [r| |]; cbn [bind]; [|split; discriminate|contradiction].
  split; [discriminate|]. intros d' [= <-].
  destruct (H2 r eq_refl) as [Hr _].
  pose proof (entries_size_set_present "items" r _ _ E). lia.
Qed.

Lemma prepare_quantifier_answers (n : nat) (rec : json -> outcome json)
      (q : string) (d : dict) :
  answers n rec -> entries_size d <= n ->
  prepare_quantifier rec q d <> OutOfFuel /\
  forall d', prepare_quantifier rec q d = Ok d' -> entries_size d' <= entries_size d.
Proof.
  intros Hrec Hn. unfold prepare_quantifier.
  destruct (dict_get q d) as [v|] eqn:E; [|split; discriminate].
  pose proof (dict_get_size _ _ _ E) as Hv.
  destruct (Hrec v) as [H1 H2]; [lia|].
  destruct (rec v) as [r| |]; cbn [bind]; [|split; discriminate|contradiction].
  destruct (H2 r eq_refl) as [Hr Hc].
  pose proof (entries_size_set_present q r _ _ E) as Hset.
  pose proof (dict_get_set_same q r d) as Hget.
  destruct (deduplicate_dicts (dict_set q r d) q) as [d1| |] eqn:D; cbn [bind].
  - destruct (deduplicate_dicts_size _ _ _ _ Hget Hc D) as [Hd [l Hl]].
    destruct (dissolve_single_item_lists_returns _ _ _ Hl) as [d2 Hd2].
    rewrite Hd2. split; [discriminate|]. intros d' [= <-].
    apply (dissolve_single_item_lists_size _ _ _ _ Hl) in Hd2. lia.
  - split; discriminate.
  - exfalso. unfold deduplicate_dicts in D. rewrite Hget in D.
    destruct r; discriminate.
Qed.

Lemma fold_quantifiers_answers (n : nat) (rec : json -> outcome json)
      (qs : list string) (d : dict) :
  answers n rec -> entries_size d <= n ->
  fold_m (prepare_quantifier rec) qs d <> OutOfFuel /\
  forall d', fold_m (prepare_quantifier rec) qs d = Ok d' ->
             entries_size d' <= entries_size d.
Proof.
  intros Hrec. revert d. induction qs as [|q qs IH]; intros d Hn; cbn [fold_m].
  - split; [discriminate|intros d' [= <-]; lia].
  - destruct (prepare_quantifier_answers n rec q d Hrec Hn) as [H1 H2].
    destruct (prepare_quantifier rec q d) as [d1| |]; cbn [bind];
      [|split; discriminate|contradiction].
    specialize (H2 d1 eq_refl).
    destruct (IH d1) as [I1 I2]; [lia|].
    split; [assumption|]. intros d' Hd'. specialize (I2 d' Hd'). lia.
Qed.

(** With fuel for every node of the fragment, [prepare_field] answers. *)
Lemma prepare_field_answers (fuel : nat) (field : string) :
  answers fuel (prepare fuel field).
Proof.
  induction fuel as [|fuel IH]; intros obj Hsize.
  - pose proof (size_pos obj). lia.
  - cbn [prepare_field].
    destruct obj as [| | | |l|d];
      try (split; [discriminate|discriminate]).
    + rewrite size_list in *.
      destruct (map_m_answers fuel _ l IH) as [H1 H2]; [lia|].
      destruct (map_m _ l) as [rs| |]; cbn [bind];
        [|split; discriminate|contradiction].
      split; [discriminate|]. intros r [= <-]. split; [|reflexivity].
      rewrite size_list. specialize (H2 rs eq_refl).
      pose proof (sizes_filter truthy rs). lia.
    + rewrite size_dict in *.
      pose proof (prepare_head_answers field d) as Hh.
      destruct (head field d) as [d1| |] eqn:E1; cbn [bind];
        [|split; discriminate|contradiction].
      apply prepare_head_size in E1.
      destruct (prepare_items_answers fuel _ d1 IH) as [H1 H2]; [lia|].
      destruct (prepare_items _ d1) as [d2| |]; cbn [bind];
        [|split; discriminate|contradiction].
      specialize (H2 d2 eq_refl).
      destruct (fold_quantifiers_answers fuel _ (quantifiers anyOf_first d2) d2 IH)
        as [F1 F2]; [lia|].
      destruct (fold_m _ _ d2) as [d3| |]; cbn [bind];
        [|split; discriminate|contradiction].
      specialize (F2 d3 eq_refl).
      split; [discriminate|]. intros r [= <-]. split; [|reflexivity].
      rewrite size_dict. lia.
Qed.

End NormalizerFacts.

(** ** More fuel, same answer *)

Lemma map_m_extends (f g : json -> outcome json) (l : list json) :
  extends f g -> map_m f l <> OutOfFuel -> map_m g l = map_m f l.
Proof.
  intros H. induction l as [|x l IH]; cbn [map_m]; [reflexivity|].
  pose proof (H x) as Hx.
  destruct (f x) as [y|e|]; cbn [bind].
  - rewrite Hx by discriminate. cbn [bind].
    destruct (map_m f l) as [ys|e|]; cbn [bind].
    + intros _. now rewrite IH by discriminate.
    + intros _. now rewrite IH by discriminate.
    + intros K. now contradiction K.
  - rewrite Hx by discriminate. reflexivity.
  - intros K. now contradiction K.
Qed.

Lemma prepare_items_extends (f g : json -> outcome json) (d : dict) :
  extends f g -> prepare_items f d <> OutOfFuel -> prepare_items g d = prepare_items f d.
Proof.
  intros H. unfold prepare_items.
  destruct (str_is "type" "array" d); [|reflexivity].
  destruct (dict_get "items" d) as [items|]; [|reflexivity].
  pose proof (H items) as Hx.
  destruct (f items) as [y|e|]; cbn [bind].
  - now rewrite Hx by discriminate.
  - now rewrite Hx by discriminate.
  - intros K. now contradiction K.
Qed.

Lemma prepare_quantifier_extends (f g : json -> outcome json) (k : string) (d : dict) :
  extends f g -> prepare_quantifier f k d <> OutOfFuel ->
  prepare_quantifier g k d = prepare_quantifier f k d.
Proof.
  intros H. unfold prepare_quantifier.
  destruct (dict_get k d) as [v|]; [|reflexivity].
  pose proof (H v) as Hx.
  destruct (f v) as [y|e|]; cbn [bind].
  - now rewrite Hx by discriminate.
  - now rewrite Hx by discriminate.
  - intros K. now contradiction K.
Qed.

Lemma fold_quantifiers_extends (f g : json -> outcome json) (qs : list string) (d : dict) :
  extends f g -> fold_m (prepare_quantifier f) qs d <> OutOfFuel ->
  fold_m (prepare_quantifier g) qs d = fold_m (prepare_quantifier f) qs d.
Proof.
  intros H. revert d. induction qs as [|k qs IH]; intros d; cbn [fold_m]; [reflexivity|].
  pose proof (prepare_quantifier_extends f g k d H) as Hk.
  destruct (prepare_quantifier f k d) as [d1|e|]; cbn [bind].
  - rewrite Hk by discriminate. cbn [bind]. apply IH.
  - rewrite Hk by discriminate. reflexivity.
  - intros K. now contradiction K.
Qed.

Lemma prepare_field_S (mex ts : string) (repl : string -> string) (af : bool)
      (field : string) (fuel : nat) (obj : json) :
  prepare_field mex ts repl af (S fuel) field obj
  = match obj with
    | JList items =>
        rs <- map_m (prepare_field mex ts repl af fuel field) items ;;
        Ok (JList (filter truthy rs))
    | JDict d =>
        d <- prepare_head mex ts repl field d ;;
        d <- prepare_items (prepare_field mex ts repl af fuel field) d ;;
        d <- fold_m (prepare_quantifier (prepare_field mex ts repl af fuel field))
                    (quantifiers af d) d ;;
        Ok (JDict d)
    | _ => Raise AttributeError
    end.
Proof. reflexivity. Qed.

Lemma prepare_field_more_fuel (mex ts : string) (repl : string -> string) (af : bool)
      (field : string) (fuel : nat) :
  extends (prepare_field mex ts repl af fuel field)
          (prepare_field mex ts repl af (S fuel) field).
Proof.
  induction fuel as [|fuel IH]; intros obj; [intros K; now contradiction K|].
  rewrite (prepare_field_S mex ts repl af field (S fuel)).
  rewrite (prepare_field_S mex ts repl af field fuel).
  destruct obj as [| | | |l|d]; try reflexivity.
  - pose proof (map_m_extends _ _ l IH) as M.
    destruct (map_m (prepare_field mex ts repl af fuel field) l) as [rs|e|]; cbn [bind].
    + now rewrite M by discriminate.
    + now rewrite M by discriminate.
    + intros K. now contradiction K.
  - destruct (prepare_head mex ts repl field d) as [d1|e|]; cbn [bind]; try reflexivity.
    pose proof (prepare_items_extends _ _ d1 IH) as I.
    destruct (prepare_items (prepare_field mex ts repl af fuel field) d1) as [d2|e|];
      cbn [bind].
    + rewrite I by discriminate. cbn [bind].
      pose proof (fold_quantifiers_extends _ _ (quantifiers af d2) d2 IH) as F.
      destruct (fold_m (prepare_quantifier (prepare_field mex ts repl af fuel field))
                       (quantifiers af d2) d2) as [d3|e|]; cbn [bind].
      * now rewrite F by discriminate.
      * now rewrite F by discriminate.
      * intros K. now contradiction K.
    + now rewrite I by discriminate.
    + intros K. now contradiction K.
Qed.

Lemma prepare_field_fuel_enough (mex ts : string) (repl : string -> string) (af : bool)
      (field : string) (obj : json) (extra : nat) :
  prepare_field mex ts repl af (size obj + extra) field obj
  = prepare_field mex ts repl af (size obj) field obj.
Proof.
  induction extra as [|extra IH]; [now rewrite Nat.add_0_r|].
  rewrite Nat.add_succ_r, <- IH.
  apply prepare_field_more_fuel. rewrite IH.
  apply (prepare_field_answers mex ts repl af (size obj) field obj). lia.
Qed.

(** ** Fragments that no rule touches *)

Lemma dict_mem_false (k : string) (d : dict) :
  dict_mem k d = false -> dict_get k d = None.
Proof. unfold dict_mem. now destruct (dict_get k d). Qed.

Lemma negb_dict_mem (k : string) (d : dict) :
  negb (dict_mem k d) = true -> dict_get k d = None.
Proof. intros H. apply dict_mem_false. now apply negb_true_iff. Qed.

Section PassThrough.

Variable MEX_ID_PATTERN : string.
Variable TIMESTAMP_REGEX : string.
Variable dromedary_to_kebab : string -> string.
Variable anyOf_first : bool.

Local Abbreviation head := (prepare_head MEX_ID_PATTERN TIMESTAMP_REGEX dromedary_to_kebab).
Local Abbreviation prepare :=
  (prepare_field MEX_ID_PATTERN TIMESTAMP_REGEX dromedary_to_kebab anyOf_first).

Lemma quantifiers_no_union (d : dict) :
  no_union d = true -> quantifiers anyOf_first d = [].
Proof.
  unfold no_union. intros H. apply andb_true_iff in H as [A B].
  apply negb_true_iff in A, B.
  unfold quantifiers. destruct anyOf_first; cbn [filter]; now rewrite A, B.
Qed.

Lemma prepare_head_no_rule (field : string) (d : dict) :
  matches_no_rule MEX_ID_PATTERN TIMESTAMP_REGEX d = true -> head field d = Ok d.
Proof.
  unfold matches_no_rule. intros H.
  repeat (apply andb_true_iff in H as [H ?]).
  repeat match goal with
         | K : negb (dict_mem _ _) = true |- _ => apply negb_dict_mem in K
         | K : negb _ = true |- _ => apply negb_true_iff in K
         end.
  unfold prepare_head, pop_value.
  rewrite (dict_pop_absent "sameAs") by assumption.
  rewrite (dict_pop_absent "subPropertyOf") by assumption.
  rewrite (dict_pop_absent "description") by assumption.
  rewrite (dict_pop_absent "title") by assumption.
  rewrite (dict_pop_absent "useScheme") by assumption.
  match goal with K : dict_get "useScheme" d = None |- _ => rewrite K end.
  cbn [bind]. unfold unify_dates, align_identifier.
  match goal with K : is_date _ d = false |- _ => rewrite K end.
  match goal with K : str_is "pattern" _ d = false |- _ => rewrite K end.
  cbn [bind]. unfold align_concept.
  match goal with K : dict_get "$ref" d = None |- _ =>
    rewrite (str_is_absent _ _ _ K); unfold kebab_ref; rewrite K end.
  reflexivity.
Qed.

(** C1. On every field name and fragment [prepare_field] terminates: with
    fuel for every node of the fragment the call returns or raises, and
    more fuel does not change the answer.  A dict that matches no
    normalization rule is returned as it was.  (The call does raise on other
    shapes, see the evaluations further down.) *)
Theorem prepare_field_terminates_and_passes_through :
  (forall field obj,
     prepare (size obj) field obj <> OutOfFuel
     /\ forall extra, prepare (size obj + extra) field obj = prepare (size obj) field obj)
  /\ (forall fuel field d,
        matches_no_rule MEX_ID_PATTERN TIMESTAMP_REGEX d = true ->
        prepare (S fuel) field (JDict d) = Ok (JDict d)).
Proof.
  split.
  - intros field obj. split.
    + now apply (prepare_field_answers MEX_ID_PATTERN TIMESTAMP_REGEX
                   dromedary_to_kebab anyOf_first (size obj) field obj).
    + apply prepare_field_fuel_enough.
  - intros fuel field d H. cbn [prepare_field].
    rewrite (prepare_head_no_rule field d H). cbn [bind].
    unfold matches_no_rule in H.
    repeat (apply andb_true_iff in H as [H ?]).
    unfold prepare_items.
    match goal with K : negb (str_is "type" _ d) = true |- _ =>
      apply negb_true_iff in K; rewrite K end.
    cbn [bind]. rewrite quantifiers_no_union.
    + reflexivity.
    + unfold no_union. now apply andb_true_iff.
Qed.

End PassThrough.

(** The pass-through at a concrete fragment. *)
Lemma prepare_field_passes_through_witness :
  run "name" (JDict [("type", JStr "string"); ("maxLength", JNum 5)])
  = Ok (JDict [("type", JStr "string"); ("maxLength", JNum 5)]).
Proof.
  apply (proj2 (prepare_field_terminates_and_passes_through
                  sample_id_pattern sample_timestamp_regex kebab true) 4).
  reflexivity.
Defined.

(** An array fragment without ["items"], and an identifier pattern without
    ["type"], both raise [KeyError]. *)
Lemma prepare_field_raises_on_missing_keys :
  run "name" (JDict [("type", JStr "array")]) = Raise KeyError
  /\ run "name" (JDict [("pattern", JStr sample_id_pattern)]) = Raise KeyError.
Proof. split; reflexivity. Qed.

(** ** Reading a dict after the head of the normalizer *)

Create Rewrite HintDb dict_rw.
#[export] Hint Rewrite dict_get_pop_same dict_get_set_same str_is_pop_same : dict_rw.
#[export] Hint Rewrite dict_get_pop_other dict_get_set_other str_is_pop_other
  str_is_set_other dict_mem_pop_other dict_mem_set_other using str_neq : dict_rw.

Ltac dict_rw := autorewrite with dict_rw.

Lemma is_date_discard (ts : string) (d : dict) :
  is_date ts (discard_annotations d) = is_date ts d.
Proof. unfold is_date, discard_annotations. now dict_rw. Qed.

Lemma dict_get_discard (k : string) (d : dict) :
  k <> "sameAs" -> k <> "subPropertyOf" -> k <> "description" ->
  k <> "title" -> k <> "useScheme" ->
  dict_get k (discard_annotations d) = dict_get k d.
Proof.
  intros. unfold discard_annotations.
  now rewrite !dict_get_pop_other by assumption.
Qed.

Lemma align_concept_get_other (vocabulary k : string) (d : dict) :
  k <> "$ref" -> dict_get k (align_concept vocabulary d) = dict_get k d.
Proof.
  intros H. unfold align_concept. destruct (str_is "$ref" concept_ref d); auto.
  now rewrite dict_get_set_other.
Qed.

Lemma kebab_ref_get_other (repl : string -> string) (k : string) (d d' : dict) :
  k <> "$ref" -> kebab_ref repl d = Ok d' -> dict_get k d' = dict_get k d.
Proof.
  intros H. unfold kebab_ref.
  destruct (dict_get "$ref" d) as [[| | |s| |]|]; try discriminate; intros [= <-]; auto.
  now rewrite dict_get_set_other.
Qed.

Lemma align_identifier_get_other (mex field k : string) (title : json) (d d' : dict) :
  k <> "$ref" -> k <> "pattern" -> k <> "type" ->
  align_identifier mex field title d = Ok d' -> dict_get k d' = dict_get k d.
Proof.
  intros H1 H2 H3. unfold align_identifier.
  destruct (str_is "pattern" mex d); [|now intros [= <-]].
  destruct (dict_get "type" (dict_pop "pattern" d)); [|discriminate].
  destruct (is_identifier_field field).
  - intros [= <-]. now rewrite dict_get_set_other, !dict_get_pop_other.
  - destruct (entity_name title); cbn [bind]; try discriminate.
    intros [= <-]. now rewrite dict_get_set_other, !dict_get_pop_other.
Qed.

Lemma unify_dates_get_other (ts k : string) (d : dict) :
  k <> "format" -> k <> "pattern" -> k <> "examples" ->
  dict_get k (unify_dates ts d) = dict_get k d.
Proof.
  intros. unfold unify_dates. destruct (is_date ts d); auto.
  now rewrite dict_get_set_other, !dict_get_pop_other.
Qed.

Lemma not_in_head_keys (k : string) :
  ~ In k head_keys ->
  k <> "sameAs" /\ k <> "subPropertyOf" /\ k <> "description" /\ k <> "title"
  /\ k <> "useScheme" /\ k <> "format" /\ k <> "pattern" /\ k <> "examples"
  /\ k <> "type" /\ k <> "$ref".
Proof.
  unfold head_keys. cbn [In]. intros H.
  repeat split; intros ->; apply H; tauto.
Qed.

(** Every other key keeps its value through the head. *)
Lemma prepare_head_frame (mex ts field k : string) (repl : string -> string) (d d' : dict) :
  ~ In k head_keys ->
  prepare_head mex ts repl field d = Ok d' -> dict_get k d' = dict_get k d.
Proof.
  intros H. apply not_in_head_keys in H.
  destruct H as (?&?&?&?&?&Hf&Hp&He&Ht&Hr).
  unfold prepare_head. fold (discard_annotations d).
  destruct (pop_value "useScheme" _ _) as [| | |u| |]; cbn [bind]; try discriminate.
  destruct (align_identifier _ _ _ _) as [d1| |] eqn:A; cbn [bind]; try discriminate.
  intros K.
  rewrite (kebab_ref_get_other _ k _ _ Hr K).
  rewrite align_concept_get_other by assumption.
  rewrite (align_identifier_get_other _ _ k _ _ _ Hr Hp Ht A).
  rewrite unify_dates_get_other by assumption.
  now apply dict_get_discard.
Qed.

Lemma prepare_head_no_union (mex ts field : string) (repl : string -> string) (d d' : dict) :
  prepare_head mex ts repl field d = Ok d' -> no_union d' = no_union d.
Proof.
  intros H. unfold no_union, dict_mem.
  rewrite (prepare_head_frame _ _ _ "anyOf" _ _ _ ltac:(cbv; intuition discriminate) H).
  rewrite (prepare_head_frame _ _ _ "allOf" _ _ _ ltac:(cbv; intuition discriminate) H).
  reflexivity.
Qed.

Lemma prepare_items_get_other (rec : json -> outcome json) (k : string) (d d' : dict) :
  k <> "items" -> prepare_items rec d = Ok d' -> dict_get k d' = dict_get k d.
Proof.
  intros H. unfold prepare_items.
  destruct (str_is "type" "array" d); [|now intros [= <-]].
  destruct (dict_get "items" d); [|discriminate].
  destruct (rec j); cbn [bind]; try discriminate.
  intros [= <-]. now rewrite dict_get_set_other.
Qed.

Lemma prepare_items_no_union (rec : json -> outcome json) (d d' : dict) :
  prepare_items rec d = Ok d' -> no_union d' = no_union d.
Proof.
  intros H. unfold no_union, dict_mem.
  pose proof (fun k n => prepare_items_get_other rec k d d' n H) as F.
  now rewrite !F by str_neq.
Qed.

Lemma pop_value_use_scheme (d : dict) :
  pop_value "useScheme" (JStr "")
    (dict_pop "title" (dict_pop "description"
       (dict_pop "subPropertyOf" (dict_pop "sameAs" d))))
  = pop_value "useScheme" (JStr "") d.
Proof. unfold pop_value. now dict_rw. Qed.

Lemma pop_value_title (d : dict) :
  pop_value "title" (JStr "")
    (dict_pop "description" (dict_pop "subPropertyOf" (dict_pop "sameAs" d)))
  = pop_value "title" (JStr "") d.
Proof. unfold pop_value. now dict_rw. Qed.

(** ** Dates *)

Section Dates.

Variable MEX_ID_PATTERN : string.
Variable TIMESTAMP_REGEX : string.
Variable dromedary_to_kebab : string -> string.
Variable anyOf_first : bool.

Local Abbreviation head := (prepare_head MEX_ID_PATTERN TIMESTAMP_REGEX dromedary_to_kebab).
Local Abbreviation prepare :=
  (prepare_field MEX_ID_PATTERN TIMESTAMP_REGEX dromedary_to_kebab anyOf_first).

Lemma align_identifier_unified (field : string) (title : json) (d : dict) :
  align_identifier MEX_ID_PATTERN field title (unified d) = Ok (unified d).
Proof.
  unfold align_identifier, unified, str_is. now dict_rw.
Qed.

Lemma prepare_head_date (field : string) (d d' : dict) :
  is_date TIMESTAMP_REGEX d = true ->
  head field d = Ok d' ->
  dict_get "format" d' = Some (JStr "date-time")
  /\ dict_get "pattern" d' = None /\ dict_get "examples" d' = None.
Proof.
  intros Hd. unfold prepare_head. fold (discard_annotations d).
  destruct (pop_value "useScheme" _ _) as [| | |u| |]; cbn [bind]; try discriminate.
  unfold unify_dates. rewrite is_date_discard, Hd. fold (unified d).
  rewrite align_identifier_unified. cbn [bind]. intros K.
  pose proof (fun k n => kebab_ref_get_other _ k _ _ n K) as F.
  rewrite !F by str_neq.
  rewrite !align_concept_get_other by str_neq.
  unfold unified. now dict_rw.
Qed.

Lemma prepare_head_date_returns (field : string) (d : dict) :
  is_date TIMESTAMP_REGEX d = true ->
  str_or_absent "useScheme" d = true -> str_or_absent "$ref" d = true ->
  exists d', head field d = Ok d'.
Proof.
  intros Hd Hu Hr. unfold prepare_head. rewrite pop_value_use_scheme.
  fold (discard_annotations d).
  unfold str_or_absent in Hu. unfold pop_value.
  destruct (dict_get "useScheme" d) as [[| | |u| |]|]; try discriminate; cbn [bind].
  all: unfold unify_dates; rewrite is_date_discard, Hd; fold (unified d);
    rewrite align_identifier_unified; cbn [bind];
    unfold kebab_ref, align_concept;
    match goal with |- context [if ?c then _ else _] => destruct c end;
    [rewrite dict_get_set_same; eauto|];
    replace (dict_get "$ref" (unified d)) with (dict_get "$ref" d)
      by (unfold unified, discard_annotations; now dict_rw);
    unfold str_or_absent in Hr;
    destruct (dict_get "$ref" d) as [[| | |s| |]|]; try discriminate; eauto.
Qed.

(** C3. A dict fragment without union container that declares the format
    ["date"] or ["date-time"], or whose pattern is [TIMESTAMP_REGEX],
    normalizes (whenever the call returns) to a dict whose format is
    ["date-time"] and that has neither a pattern nor examples; the call does
    return when the fragment is no array and its ["useScheme"] and ["$ref"],
    if present, are strings. *)
Theorem date_fragments_unify :
  forall fuel field d,
    is_date TIMESTAMP_REGEX d = true -> no_union d = true ->
    (forall r, prepare fuel field (JDict d) = Ok r ->
       exists d', r = JDict d'
         /\ dict_get "format" d' = Some (JStr "date-time")
         /\ dict_get "pattern" d' = None /\ dict_get "examples" d' = None)
    /\ (str_or_absent "useScheme" d = true -> str_or_absent "$ref" d = true ->
        str_is "type" "array" d = false ->
        exists d', prepare (S fuel) field (JDict d) = Ok (JDict d')).
Proof.
  intros fuel field d Hd Hu. split.
  - destruct fuel as [|fuel]; [discriminate|]. cbn [prepare_field]. intros r.
    destruct (head field d) as [d1| |] eqn:E1; cbn [bind]; try discriminate.
    destruct (prepare_items _ d1) as [d2| |] eqn:E2; cbn [bind]; try discriminate.
    rewrite quantifiers_no_union
      by (rewrite (prepare_items_no_union _ _ _ E2),
                  (prepare_head_no_union _ _ _ _ _ _ E1); exact Hu).
    cbn [fold_m bind]. intros [= <-]. exists d2. split; [reflexivity|].
    pose proof (fun k n => prepare_items_get_other _ k _ _ n E2) as F.
    rewrite !F by str_neq.
    now apply (prepare_head_date field d d1).
  - intros Hs Hr Ht. cbn [prepare_field].
    destruct (prepare_head_date_returns field d Hd Hs Hr) as [d1 E1].
    rewrite E1. cbn [bind].
    assert (str_is "type" "array" d1 = false) as Ht1.
    { revert E1. unfold prepare_head. fold (discard_annotations d).
      destruct (pop_value "useScheme" _ _) as [| | |u| |]; cbn [bind]; try discriminate.
      unfold unify_dates. rewrite is_date_discard, Hd. fold (unified d).
      rewrite align_identifier_unified. cbn [bind]. intros K.
      pose proof (fun k n => kebab_ref_get_other _ k _ _ n K) as F.
      unfold str_is. rewrite F by str_neq.
      rewrite align_concept_get_other by str_neq.
      unfold unified, discard_annotations. dict_rw. exact Ht. }
    unfold prepare_items. rewrite Ht1. cbn [bind].
    rewrite quantifiers_no_union
      by (rewrite (prepare_head_no_union _ _ _ _ _ _ E1); exact Hu).
    cbn [fold_m bind]. eauto.
Qed.

End Dates.

(** A date at a concrete fragment. *)
Lemma date_fragments_unify_witness :
  let d := [("format", JStr "date"); ("examples", JList [JStr "2020-01-01"])] in
  (forall r, sample_prepare 4 "created" (JDict d) = Ok r ->
     exists d', r = JDict d'
       /\ dict_get "format" d' = Some (JStr "date-time")
       /\ dict_get "pattern" d' = None /\ dict_get "examples" d' = None)
  /\ (str_or_absent "useScheme" d = true -> str_or_absent "$ref" d = true ->
      str_is "type" "array" d = false ->
      exists d', sample_prepare 5 "created" (JDict d) = Ok (JDict d')).
Proof.
  apply (date_fragments_unify sample_id_pattern sample_timestamp_regex kebab true
           4 "created"); reflexivity.
Defined.

(** A date fragment with a single-choice union: the alternative is spliced
    in after the date rule ran, and brings a pattern along. *)
Lemma date_fragment_keeps_spliced_pattern :
  run "created"
      (JDict [("format", JStr "date"); ("anyOf", JList [JDict [("pattern", JStr "x")]])])
  = Ok (JDict [("format", JStr "date-time"); ("pattern", JStr "x")]).
Proof. reflexivity. Qed.

(** ** Identifier references *)

Lemma dict_set_set (k : string) (v v' : json) (d : dict) :
  dict_set k v (dict_set k v' d) = dict_set k v d.
Proof.
  induction d as [|[k0 v0] d IH]; cbn [dict_set].
  - now rewrite String.eqb_refl.
  - destruct (String.eqb k k0) eqn:E; cbn [dict_set]; rewrite E; congruence.
Qed.

Section Identifiers.

Variable MEX_ID_PATTERN : string.
Variable TIMESTAMP_REGEX : string.
Variable dromedary_to_kebab : string -> string.
Variable anyOf_first : bool.

Local Abbreviation head := (prepare_head MEX_ID_PATTERN TIMESTAMP_REGEX dromedary_to_kebab).
Local Abbreviation prepare :=
  (prepare_field MEX_ID_PATTERN TIMESTAMP_REGEX dromedary_to_kebab anyOf_first).

Lemma kebab_ref_set (path : string) (d : dict) :
  kebab_ref dromedary_to_kebab (dict_set "$ref" (JStr path) d)
  = Ok (dict_set "$ref" (JStr (sub_only_text dromedary_to_kebab path)) d).
Proof. unfold kebab_ref. now rewrite dict_get_set_same, dict_set_set. Qed.

Lemma align_concept_set (vocabulary path : string) (d : dict) :
  align_concept vocabulary (dict_set "$ref" (JStr path) d)
  = dict_set "$ref"
      (JStr (if String.eqb path concept_ref
             then ("/schema/fields/" ++ vocabulary)%string else path))
      d.
Proof.
  unfold align_concept, str_is. rewrite dict_get_set_same.
  destruct (String.eqb path concept_ref); [apply dict_set_set|reflexivity].
Qed.

Lemma prepare_head_identifier (field t u : string) (d : dict) :
  str_is "pattern" MEX_ID_PATTERN d = true ->
  is_date TIMESTAMP_REGEX d = false ->
  dict_mem "type" d = true ->
  pop_value "useScheme" (JStr "") d = JStr u ->
  (is_identifier_field field = false -> pop_value "title" (JStr "") d = JStr t) ->
  head field d
  = Ok (dict_set "$ref"
          (JStr (sub_only_text dromedary_to_kebab
                   (reference_path field t (removeprefix "https://mex.rki.de/item/" u))))
          (stripped d)).
Proof.
  intros Hp Hd Ht Hu Htitle. unfold prepare_head.
  rewrite pop_value_use_scheme, pop_value_title, Hu. cbn [bind].
  fold (discard_annotations d).
  unfold unify_dates. rewrite is_date_discard, Hd.
  unfold align_identifier.
  replace (str_is "pattern" MEX_ID_PATTERN (discard_annotations d)) with true
    by (unfold discard_annotations; dict_rw; now rewrite Hp).
  replace (dict_get "type" (dict_pop "pattern" (discard_annotations d)))
    with (dict_get "type" d) by (unfold discard_annotations; now dict_rw).
  unfold dict_mem in Ht. destruct (dict_get "type" d); [|discriminate].
  fold (stripped d). unfold reference_path.
  destruct (is_identifier_field field) eqn:F.
  - cbn [bind]. rewrite align_concept_set. apply kebab_ref_set.
  - rewrite (Htitle eq_refl). cbn [entity_name bind]. fold (strip_title t).
    rewrite align_concept_set. apply kebab_ref_set.
Qed.

(** C4. A dict fragment whose pattern is [MEX_ID_PATTERN], that declares
    no date, has a ["type"], no union container, and string annotations,
    normalizes to the fragment without its annotations, pattern and type and
    with a ["$ref"]: the kebab-cased [reference_path].  When the two patterns
    differ and the casing leaves ["/schema/fields/identifier"] alone, the
    field ["identifier"] with exactly the pattern and the type ["string"]
    normalizes to exactly that reference. *)
Theorem identifier_fragments_become_references :
  (forall fuel field d t u,
     str_is "pattern" MEX_ID_PATTERN d = true ->
     is_date TIMESTAMP_REGEX d = false ->
     dict_mem "type" d = true ->
     no_union d = true ->
     pop_value "useScheme" (JStr "") d = JStr u ->
     (is_identifier_field field = false -> pop_value "title" (JStr "") d = JStr t) ->
     prepare (S fuel) field (JDict d)
     = Ok (JDict
             (dict_set "$ref"
                (JStr (sub_only_text dromedary_to_kebab
                         (reference_path field t
                            (removeprefix "https://mex.rki.de/item/" u))))
                (dict_pop "type" (dict_pop "pattern" (discard_annotations d))))))
  /\ (MEX_ID_PATTERN <> TIMESTAMP_REGEX ->
      sub_only_text dromedary_to_kebab "/schema/fields/identifier"
      = "/schema/fields/identifier" ->
      forall fuel,
        prepare (S fuel) "identifier"
                (JDict [("pattern", JStr MEX_ID_PATTERN); ("type", JStr "string")])
        = Ok (JDict [("$ref", JStr "/schema/fields/identifier")])).
Proof.
  assert (forall fuel field d t u,
     str_is "pattern" MEX_ID_PATTERN d = true ->
     is_date TIMESTAMP_REGEX d = false ->
     dict_mem "type" d = true ->
     no_union d = true ->
     pop_value "useScheme" (JStr "") d = JStr u ->
     (is_identifier_field field = false -> pop_value "title" (JStr "") d = JStr t) ->
     prepare (S fuel) field (JDict d)
     = Ok (JDict
             (dict_set "$ref"
                (JStr (sub_only_text dromedary_to_kebab
                         (reference_path field t
                            (removeprefix "https://mex.rki.de/item/" u))))
                (stripped d)))) as General.
  { intros fuel field d t u Hp Hd Ht Hn Hu Htitle. cbn [prepare_field].
    rewrite (prepare_head_identifier field t u d Hp Hd Ht Hu Htitle). cbn [bind].
    unfold prepare_items.
    replace (str_is "type" "array" (dict_set "$ref" _ (stripped d))) with false
      by (unfold stripped, str_is; now dict_rw).
    cbn [bind]. rewrite quantifiers_no_union; [reflexivity|].
    rewrite <- Hn. unfold no_union, stripped, discard_annotations. now dict_rw. }
  split; [exact General|].
  intros Hneq Hfix fuel.
  rewrite (General fuel "identifier" _ "" "").
  - replace (reference_path "identifier" "" (removeprefix "https://mex.rki.de/item/" ""))
      with "/schema/fields/identifier" by reflexivity.
    rewrite Hfix. reflexivity.
  - unfold str_is. cbn [dict_get]. change (String.eqb "pattern" "pattern") with true.
    cbn iota. apply String.eqb_refl.
  - unfold is_date, str_is. cbn [dict_get].
    change (String.eqb "format" "pattern") with false.
    change (String.eqb "format" "type") with false.
    change (String.eqb "pattern" "pattern") with true.
    cbn iota. cbn [orb]. now apply String.eqb_neq.
  - reflexivity.
  - reflexivity.
  - reflexivity.
  - discriminate.
Qed.

End Identifiers.

(** The rewrite at two concrete fragments: an entity reference and the
    universal identifier. *)
Lemma identifier_fragments_witness :
  sample_prepare 1 "usedIn"
    (JDict [("pattern", JStr sample_id_pattern); ("type", JStr "string");
            ("title", JStr "MergedResourceIdentifier")])
  = Ok (JDict [("$ref", JStr "/schema/entities/resource#/identifier")])
  /\ sample_prepare 1 "identifier"
       (JDict [("pattern", JStr sample_id_pattern); ("type", JStr "string")])
     = Ok (JDict [("$ref", JStr "/schema/fields/identifier")]).
Proof.
  split.
  - apply (proj1 (identifier_fragments_become_references
                    sample_id_pattern sample_timestamp_regex kebab true)
             0 "usedIn"
             [("pattern", JStr sample_id_pattern); ("type", JStr "string");
              ("title", JStr "MergedResourceIdentifier")]
             "MergedResourceIdentifier" ""); reflexivity.
  - apply (proj2 (identifier_fragments_become_references
                    sample_id_pattern sample_timestamp_regex kebab true));
      [discriminate|reflexivity].
Defined.

(** An identifier pattern on a fragment that also declares a date: the date
    rule pops the pattern first, the type stays and no reference is added. *)
Lemma identifier_pattern_lost_to_date_rule :
  run "identifier"
      (JDict [("format", JStr "date"); ("pattern", JStr sample_id_pattern);
              ("type", JStr "string")])
  = Ok (JDict [("format", JStr "date-time"); ("type", JStr "string")]).
Proof. reflexivity. Qed.

(** ** Lists and single-choice unions *)

Lemma map_m_Forall2 {A B : Type} (f : A -> outcome B) (xs : list A) (ys : list B) :
  Forall2 (fun x y => f x = Ok y) xs ys <-> map_m f xs = Ok ys.
Proof.
  split.
  - induction 1 as [|x y xs ys Hx _ IH]; cbn [map_m]; [reflexivity|].
    now rewrite Hx, IH.
  - revert ys. induction xs as [|x xs IH]; cbn [map_m]; intros ys.
    + intros [= <-]. constructor.
    + destruct (f x) as [y| |] eqn:E; cbn [bind]; try discriminate.
      destruct (map_m f xs) as [zs| |]; cbn [bind]; try discriminate.
      intros [= <-]. constructor; auto.
Qed.

Lemma dict_pop_set_same (k : string) (v : json) (d : dict) :
  dict_pop k (dict_set k v d) = dict_pop k d.
Proof.
  induction d as [|[k0 v0] d IH]; cbn [dict_set dict_pop].
  - now rewrite String.eqb_refl.
  - destruct (String.eqb k k0) eqn:E; cbn [dict_pop]; rewrite E; congruence.
Qed.


(** ** Loading the specified schemas *)

Lemma subscript_lacks_title (schema : json) :
  lacks_title schema = true -> exists e, subscript schema "title" = Raise e.
Proof.
  destruct schema as [| | | |l|d]; cbn [subscript lacks_title]; eauto.
  unfold dict_mem. destruct (dict_get "title" d); [discriminate|eauto].
Qed.

Lemma lacks_title_subscript (schema title : json) :
  subscript schema "title" = Ok title -> lacks_title schema = false.
Proof.
  destruct schema as [| | | |l|d]; cbn [subscript lacks_title]; try discriminate.
  unfold dict_mem. now destruct (dict_get "title" d).
Qed.

Lemma collect_schemas_raises (files : list file) (acc : dict) :
  existsb unloadable files = true -> exists e, collect_schemas files acc = Raise e.
Proof.
  revert acc. induction files as [|f files IH]; intros acc; cbn [existsb]; [discriminate|].
  destruct f as [|schema]; cbn [collect_schemas unloadable]; [eauto|].
  destruct (truthy schema); cbn [andb]; [|apply IH].
  destruct (subscript schema "title") as [title|e|] eqn:E; cbn [bind]; eauto.
  - rewrite (lacks_title_subscript _ _ E). cbn [orb]. intros H.
    destruct title as [| | |t| |]; cbn [startswith_concept replace_spaces bind]; eauto.
    destruct (String.prefix "Concept" t); eauto.
  - exfalso. destruct schema as [| | | |l|d]; try discriminate.
    cbn [subscript] in E. destruct (dict_get "title" d); discriminate.
Qed.

Lemma subscript_raises (v : json) (k : string) (e : exn) :
  subscript v k = Raise e -> e = KeyError \/ e = TypeError.
Proof.
  destruct v as [| | | |l|d]; cbn [subscript]; try (intros [= <-]; auto).
  destruct (dict_get k d); [discriminate|]. intros [= <-]. auto.
Qed.

Lemma collect_schemas_load_errors (files : list file) (acc : dict) (e : exn) :
  collect_schemas files acc = Raise e -> In e load_errors.
Proof.
  revert acc. induction files as [|f files IH]; intros acc; cbn [collect_schemas];
    [discriminate|].
  destruct f as [|schema]; [intros [= <-]; cbn; auto|].
  destruct (truthy schema); [|apply IH].
  destruct (subscript schema "title") as [title|e'|] eqn:E; cbn [bind].
  - destruct title as [| | |t| |]; cbn [startswith_concept replace_spaces bind];
      try (intros [= <-]; cbn; tauto).
    destruct (String.prefix "Concept" t); apply IH.
  - intros [= <-]. apply subscript_raises in E as [->| ->]; cbn; tauto.
  - discriminate.
Qed.

(** C7. Loading the specified schemas raises as soon as one file of the
    directory holds malformed JSON, or a document that is not empty and
    has no title; the exception is one of [load_errors], the one Python
    raises there (no dedicated load error exists), and since loading is a
    module-level statement, nothing that follows it in the module runs. *)
Theorem unloadable_file_aborts_the_run :
  forall files,
    existsb unloadable files = true ->
    exists e,
      In e load_errors
      /\ SPECIFIED_SCHEMAS files = Raise e
      /\ (forall (A : Type) (rest : dict -> outcome A),
            import_module files rest = Raise e).
Proof.
  intros files H.
  destruct (collect_schemas_raises files [] H) as [e He].
  exists e. split; [now apply (collect_schemas_load_errors files [])|].
  split; [|intros A rest; unfold import_module];
    unfold SPECIFIED_SCHEMAS; now rewrite He.
Qed.

(** A directory with one malformed file among good ones. *)
Lemma unloadable_file_witness :
  exists e,
    In e load_errors
    /\ SPECIFIED_SCHEMAS
         [Document (JDict [("title", JStr "Variable")]); Malformed] = Raise e
    /\ (forall (A : Type) (rest : dict -> outcome A),
          import_module
            [Document (JDict [("title", JStr "Variable")]); Malformed] rest
          = Raise e).
Proof.
  apply (unloadable_file_aborts_the_run
           [Document (JDict [("title", JStr "Variable")]); Malformed]).
  reflexivity.
Defined.

(** A file holding the empty document has no title and is skipped
    silently: loading returns. *)
Lemma empty_document_is_skipped :
  SPECIFIED_SCHEMAS [Document (JDict []); Document (JDict [("title", JStr "Variable")])]
  = Ok [("Variable", JDict [("title", JStr "Variable")])].
Proof. reflexivity. Qed.

(** ** The discriminant check *)

Lemma py_eq_str (v : json) (c : string) : py_eq v (JStr c) = true <-> v = JStr c.
Proof.
  destruct v as [| | |s|l|d]; cbn [py_eq]; split; try discriminate.
  - intros H. apply String.eqb_eq in H. now subst.
  - intros [= ->]. apply String.eqb_refl.
Qed.

(** C8. For a generated document whose discriminant constant is the string
    [c], the check passes exactly when the title of the generated document
    is [c] and the title of the specified document, its spaces removed, is a
    substring of [c].  Only the space character is removed, no other
    whitespace. *)
Theorem discriminant_check_passes_iff :
  forall generated specified c,
    discriminant generated = Ok (JStr c) ->
    (test_entity_type_matches_class_name generated specified = Ok tt
     <-> subscript generated "title" = Ok (JStr c)
         /\ exists t, subscript specified "title" = Ok (JStr t)
                      /\ is_substring (remove_spaces t) c = true).
Proof.
  intros generated specified c Hc.
  unfold test_entity_type_matches_class_name. rewrite Hc.
  destruct (subscript generated "title") as [title|e|]; cbn [bind];
    try (split; [discriminate|intros [[=] _]]).
  destruct (py_eq title (JStr c)) eqn:E; cbn [negb].
  - apply py_eq_str in E. subst title.
    destruct (subscript specified "title") as [st|e|]; cbn [bind];
      try (split; [discriminate|intros [_ [t [[=] _]]]]).
    destruct st as [| | |t| |]; cbn [replace_spaces bind];
      try (split; [discriminate|intros [_ [t' [[=] _]]]]).
    cbn [py_in bind].
    destruct (is_substring (remove_spaces t) c) eqn:S.
    + split; [intros _; split; [reflexivity|eauto]|reflexivity].
    + split; [discriminate|]. intros [_ [t' [[= <-] H]]]. congruence.
  - split; [discriminate|]. intros [[= ->] _].
    assert (py_eq (JStr c) (JStr c) = true) by now apply py_eq_str.
    congruence.
Qed.

(** The check on a pair of documents as the suite has them. *)
Lemma discriminant_check_witness :
  test_entity_type_matches_class_name
    (JDict [("title", JStr "ExtractedContactPoint");
            ("properties",
             JDict [("$type", JDict [("const", JStr "ExtractedContactPoint")])])])
    (JDict [("title", JStr "Contact Point")])
  = Ok tt.
Proof.
  apply (discriminant_check_passes_iff _ _ "ExtractedContactPoint"); [reflexivity|].
  split; [reflexivity|]. exists "Contact Point". split; reflexivity.
Defined.

(** A specified title with a tab in it: without its whitespace the title
    is the discriminant constant, but [replace] leaves the tab where it is
    and the second assertion fails. *)
Lemma tab_in_title_fails_the_check :
  test_entity_type_matches_class_name
    (JDict [("title", JStr "ContactPoint");
            ("properties", JDict [("$type", JDict [("const", JStr "ContactPoint")])])])
    (JDict [("title", JStr tabbed_title)])
  = Raise AssertionError
  /\ remove_spaces tabbed_title = tabbed_title
  /\ is_substring (remove_whitespace tabbed_title) "ContactPoint" = true.
Proof. split; [reflexivity|split; reflexivity]. Qed.

(** ** The settings context *)

Section SettingsFacts.

Variable cls : Type.
Variable issubclass : cls -> cls -> bool.
Variable validates : cls -> bool.

(** Every class is a subclass of itself. *)
Hypothesis issubclass_refl : forall c, issubclass c c = true.

Local Abbreviation get_settings := (get cls issubclass validates).

Lemma get_keeps_loaded (c : cls) (s : instance cls) (w : world cls) :
  context w = Some s -> isinstance cls issubclass s c = true ->
  get_settings c w = (Ok s, w).
Proof. intros Hc Hi. unfold get. now rewrite Hc, Hi. Qed.

(** C9. On an empty context [get] builds an instance of the class it was
    called on (when pydantic accepts the environment), stores it and
    returns it, and the next call returns that same object.  [get] raises a
    [RuntimeError] exactly when the context holds an object that is no
    instance of the class, and then the context is left as it was. *)
Theorem get_is_a_lazy_singleton :
  (forall c w,
     context w = None -> validates c = true ->
     exists s w',
       get_settings c w = (Ok s, w')
       /\ type_of s = c /\ context w' = Some s
       /\ get_settings c w' = (Ok s, w'))
  /\ (forall c w,
        fst (get_settings c w) = Raise RuntimeError
        <-> exists s, context w = Some s /\ isinstance cls issubclass s c = false)
  /\ (forall c w,
        fst (get_settings c w) = Raise RuntimeError -> snd (get_settings c w) = w).
Proof.
  split; [|split].
  - intros c w Hc Hv.
    exists {| type_of := c; ident := next_ident w |}.
    exists {| context := Some {| type_of := c; ident := next_ident w |};
              next_ident := S (next_ident w) |}.
    assert (get_settings c w
            = (Ok {| type_of := c; ident := next_ident w |},
               {| context := Some {| type_of := c; ident := next_ident w |};
                  next_ident := S (next_ident w) |})) as E.
    { unfold get, parse_obj. rewrite Hc, Hv. cbn.
      unfold isinstance. cbn. now rewrite issubclass_refl. }
    split; [exact E|]. split; [reflexivity|]. split; [reflexivity|].
    apply get_keeps_loaded; [reflexivity|].
    unfold isinstance. cbn. apply issubclass_refl.
  - intros c w. unfold get, parse_obj.
    destruct (context w) as [s|] eqn:Hc.
    + destruct (isinstance cls issubclass s c) eqn:Hi; cbn [fst]; split.
      * discriminate.
      * intros [s' [[= <-] H]]. congruence.
      * eauto.
      * reflexivity.
    + destruct (validates c); cbn.
      * unfold isinstance. cbn. rewrite issubclass_refl. cbn.
        split; [discriminate|]. intros [s [[=] _]].
      * split; [discriminate|]. intros [s [[=] _]].
  - intros c w. unfold get, parse_obj.
    destruct (context w) as [s|] eqn:Hc.
    + destruct (isinstance cls issubclass s c); cbn; [discriminate|reflexivity].
    + destruct (validates c); cbn.
      * unfold isinstance. cbn. rewrite issubclass_refl. discriminate.
      * discriminate.
Qed.

End SettingsFacts.

(** The subclass is requested first; a later request for the base class
    gets the same object, and the theorem's three parts hold here. *)
Lemma get_is_a_lazy_singleton_witness :
  (exists s w',
     get bool two_classes_issubclass (fun _ => true) true
         {| context := None; next_ident := 0 |} = (Ok s, w')
     /\ type_of s = true /\ context w' = Some s
     /\ get bool two_classes_issubclass (fun _ => true) true w' = (Ok s, w'))
  /\ fst (get bool two_classes_issubclass (fun _ => true) true
              {| context := Some {| type_of := false; ident := 0 |}; next_ident := 1 |})
     = Raise RuntimeError.
Proof.
  pose proof (get_is_a_lazy_singleton bool two_classes_issubclass (fun _ => true)
                (fun c => match c with true => eq_refl | false => eq_refl end))
    as [Build [Raises _]].
  split.
  - apply Build; reflexivity.
  - apply Raises. eexists. split; reflexivity.
Defined.

(** ** Wikidata data values *)

(** C10. A ["value"] that is [None] (or missing) or a string is wrapped
    into a structured value with no language; an input whose ["value"] is a
    mapping already is returned as it is. *)
Theorem transform_strings_to_dict_wraps :
  forall values,
    (dict_get "value" values = None \/ dict_get "value" values = Some JNull ->
     transform_strings_to_dict values
     = [("value", JDict [("language", JNull); ("text", JNull)])])
    /\ (forall s, dict_get "value" values = Some (JStr s) ->
          transform_strings_to_dict values
          = [("value", JDict [("language", JNull); ("text", JStr s)])])
    /\ (forall m, dict_get "value" values = Some (JDict m) ->
          transform_strings_to_dict values = values).
Proof.
  intros values. unfold transform_strings_to_dict. repeat split.
  - intros [H|H]; now rewrite H.
  - intros s H. now rewrite H.
  - intros m H. now rewrite H.
Qed.

(** A bare string and a structured value. *)
Lemma transform_strings_to_dict_witness :
  transform_strings_to_dict [("value", JStr "RKI"); ("type", JStr "string")]
  = [("value", JDict [("language", JNull); ("text", JStr "RKI")])]
  /\ transform_strings_to_dict
       [("value", JDict [("text", JStr "RKI"); ("language", JStr "de")])]
     = [("value", JDict [("text", JStr "RKI"); ("language", JStr "de")])].
Proof.
  split.
  - apply (proj1 (proj2 (transform_strings_to_dict_wraps _))). reflexivity.
  - apply (proj2 (proj2 (transform_strings_to_dict_wraps _))
             [("text", JStr "RKI"); ("language", JStr "de")]).
    reflexivity.
Defined.

(** ** Structural equality decides equality *)

Section JsonInduction.

Variable P : json -> Prop.
Hypothesis HNull : P JNull.
Hypothesis HBool : forall b, P (JBool b).
Hypothesis HNum : forall z, P (JNum z).
Hypothesis HStr : forall s, P (JStr s).
Hypothesis HList : forall l, Forall P l -> P (JList l).
Hypothesis HDict : forall d, Forall (fun kv => P (snd kv)) d -> P (JDict d).

Fixpoint json_induction (j : json) : P j :=
  match j with
  | JNull => HNull
  | JBool b => HBool b
  | JNum z => HNum z
  | JStr s => HStr s
  | JList l =>
      HList l ((fix go (l : list json) : Forall P l :=
                  match l with
                  | [] => Forall_nil _
                  | x :: l' => Forall_cons x (json_induction x) (go l')
                  end) l)
  | JDict d =>
      HDict d ((fix go (d : list (string * json)) : Forall (fun kv => P (snd kv)) d :=
                  match d with
                  | [] => Forall_nil _
                  | (k, v) :: d' =>
                      Forall_cons (P := fun kv => P (snd kv)) (k, v) (json_induction v) (go d')
                  end) d)
  end.

End JsonInduction.

Lemma json_eqb_eq (a b : json) : json_eqb a b = true <-> a = b.
Proof.
  revert b. induction a as [| b1 | z1 | s1 | l IH | d IH] using json_induction;
    intros [| b2 | z2 | s2 | m | e]; cbn [json_eqb];
    try (split; [discriminate|intros [=]]); try tauto.
  - rewrite Bool.eqb_true_iff. split; congruence.
  - rewrite Z.eqb_eq. split; congruence.
  - rewrite String.eqb_eq. split; congruence.
  - revert m. induction IH as [|x l Hx _ IHl]; intros [|y m];
      try (split; [discriminate|intros [=]]); try tauto.
    rewrite andb_true_iff, Hx. specialize (IHl m).
    split.
    + intros [-> H]. apply IHl in H. congruence.
    + intros [= -> ->]. split; [reflexivity|]. now apply IHl.
  - revert e. induction IH as [|[k x] d Hx _ IHd]; intros [|[k' y] e];
      try (split; [discriminate|intros [=]]); try tauto.
    cbn [snd] in Hx. rewrite !andb_true_iff, String.eqb_eq, Hx. specialize (IHd e).
    split.
    + intros [[-> ->] H]. apply IHd in H. congruence.
    + intros [= -> -> ->]. repeat split. now apply IHd.
Qed.

Lemma json_mem_In (x : json) (l : list json) : json_mem x l = true <-> In x l.
Proof.
  induction l as [|y l IH]; cbn [json_mem In]; [split; [discriminate|tauto]|].
  rewrite orb_true_iff, json_eqb_eq, IH. split; intros [H|H]; auto.
Qed.

(** ** [dict.fromkeys] keeps each item once *)

Lemma fromkeys_In (seen l : list json) (x : json) :
  In x (fromkeys seen l) <-> In x seen \/ In x l.
Proof.
  revert seen. induction l as [|y l IH]; intros seen; cbn [fromkeys].
  - rewrite <- in_rev. cbn [In]. tauto.
  - destruct (json_mem y seen) eqn:E; rewrite IH; cbn [In].
    + apply json_mem_In in E. split; [tauto|]. intros [H|[->|H]]; auto.
    + tauto.
Qed.

Lemma fromkeys_NoDup (seen l : list json) :
  NoDup seen -> NoDup (fromkeys seen l).
Proof.
  revert seen. induction l as [|y l IH]; intros seen Hs; cbn [fromkeys].
  - now apply NoDup_rev.
  - destruct (json_mem y seen) eqn:E; apply IH; auto.
    constructor; auto. rewrite <- json_mem_In. congruence.
Qed.

Lemma fromkeys_Permutation (l l' : list json) :
  Permutation l l' -> Permutation (fromkeys [] l) (fromkeys [] l').
Proof.
  intros H. apply NoDup_Permutation; try (apply fromkeys_NoDup; constructor).
  intros x. rewrite !fromkeys_In. cbn [In].
  split; intros [[]|K]; right;
    [apply (Permutation_in x H K)|apply (Permutation_in x (Permutation_sym H) K)].
Qed.

(** ** Single-choice unions *)




Section Unions.

Variable MEX_ID_PATTERN : string.
Variable TIMESTAMP_REGEX : string.
Variable dromedary_to_kebab : string -> string.
Variable anyOf_first : bool.

Local Abbreviation head := (prepare_head MEX_ID_PATTERN TIMESTAMP_REGEX dromedary_to_kebab).
Local Abbreviation prepare :=
  (prepare_field MEX_ID_PATTERN TIMESTAMP_REGEX dromedary_to_kebab anyOf_first).


End Unions.



Lemma filter_Permutation {A : Type} (p : A -> bool) (l l' : list A) :
  Permutation l l' -> Permutation (filter p l) (filter p l').
Proof.
  induction 1 as [|x l l' _ IH|x y l|l l' l'' _ IH1 _ IH2]; cbn [filter].
  - constructor.
  - destruct (p x); auto.
  - destruct (p x), (p y); auto. constructor.
  - now transitivity (filter p l').
Qed.

Lemma map_m_Permutation {A B : Type} (f : A -> outcome B) (l l' : list A) :
  Permutation l l' ->
  forall rs, map_m f l = Ok rs ->
  exists rs', map_m f l' = Ok rs' /\ Permutation rs rs'.
Proof.
  induction 1 as [|x l l' _ IH|x y l|l l' l'' _ IH1 _ IH2]; cbn [map_m]; intros rs.
  - intros [= <-]. eauto.
  - destruct (f x) as [r| |]; cbn [bind]; try discriminate.
    destruct (map_m f l) as [rs0| |]; cbn [bind]; try discriminate.
    intros [= <-]. destruct (IH rs0 eq_refl) as [rs' [-> Hp]]. cbn [bind]. eauto.
  - destruct (f y) as [ry| |]; cbn [bind]; try discriminate.
    destruct (f x) as [rx| |]; cbn [bind]; try discriminate.
    destruct (map_m f l) as [rs0| |]; cbn [bind]; try discriminate.
    intros [= <-]. eexists. split; [reflexivity|]. constructor.
  - intros H. destruct (IH1 rs H) as [rs1 [H1 P1]].
    destruct (IH2 rs1 H1) as [rs2 [H2 P2]].
    exists rs2. split; [assumption|]. now transitivity rs1.
Qed.

(** ** Reordering the alternatives of a union *)

Section Reordering.

(** The key of the union-like container whose alternatives are reordered. *)
Variable q : string.

Lemma reordered_refl (d : dict) : reordered q d d.
Proof. induction d; constructor; auto. split; [reflexivity|now left]. Qed.

Lemma reordered_get (k : string) (d d' : dict) :
  reordered q d d' ->
  match dict_get k d, dict_get k d' with
  | Some v, Some v' => same_or_permuted q k v v'
  | None, None => True
  | _, _ => False
  end.
Proof.
  induction 1 as [|[k1 v1] [k2 v2] d d' [Hk Hv] _ IH]; cbn [dict_get]; [exact I|].
  cbn [fst snd] in Hk, Hv. subst k2.
  destruct (String.eqb k k1) eqn:E; [|exact IH].
  apply String.eqb_eq in E. now subst k1.
Qed.

Lemma reordered_get_other (k : string) (d d' : dict) :
  reordered q d d' -> k <> q -> dict_get k d = dict_get k d'.
Proof.
  intros H Hk. pose proof (reordered_get k d d' H) as G.
  destruct (dict_get k d), (dict_get k d'); try contradiction; auto.
  destruct G as [->|[K _]]; [reflexivity|contradiction].
Qed.

Lemma reordered_str_is (k text : string) (d d' : dict) :
  reordered q d d' -> str_is k text d = str_is k text d'.
Proof.
  intros H. pose proof (reordered_get k d d' H) as G. unfold str_is.
  destruct (dict_get k d), (dict_get k d'); try contradiction; auto.
  destruct G as [->|[_ (l & l' & -> & -> & _)]]; reflexivity.
Qed.

Lemma reordered_mem (k : string) (d d' : dict) :
  reordered q d d' -> dict_mem k d = dict_mem k d'.
Proof.
  intros H. pose proof (reordered_get k d d' H) as G. unfold dict_mem.
  destruct (dict_get k d), (dict_get k d'); try contradiction; auto.
Qed.

Lemma reordered_pop_value (k : string) (default : json) (d d' : dict) :
  reordered q d d' -> k <> q -> pop_value k default d = pop_value k default d'.
Proof. intros H Hk. unfold pop_value. now rewrite (reordered_get_other k d d' H Hk). Qed.

Lemma reordered_pop (k : string) (d d' : dict) :
  reordered q d d' -> reordered q (dict_pop k d) (dict_pop k d').
Proof.
  induction 1 as [|[k1 v1] [k2 v2] d d' [Hk Hv] _ IH]; cbn [dict_pop]; [constructor|].
  cbn [fst snd] in Hk, Hv. subst k2.
  destruct (String.eqb k k1); [exact IH|]. constructor; auto.
Qed.

Lemma reordered_set (k : string) (v v' : json) (d d' : dict) :
  reordered q d d' -> same_or_permuted q k v v' ->
  reordered q (dict_set k v d) (dict_set k v' d').
Proof.
  intros H Hv.
  induction H as [|[k1 v1] [k2 v2] d d' [Hk Hv1] H IH]; cbn [dict_set].
  - constructor; [split; [reflexivity|exact Hv]|constructor].
  - cbn [fst snd] in Hk, Hv1. subst k2.
    destruct (String.eqb k k1) eqn:E.
    + apply String.eqb_eq in E. subst k1.
      constructor; [split; [reflexivity|exact Hv]|exact H].
    + constructor; [split; [reflexivity|exact Hv1]|exact IH].
Qed.

Lemma reordered_set_same (k : string) (v : json) (d d' : dict) :
  reordered q d d' -> reordered q (dict_set k v d) (dict_set k v d').
Proof. intros H. apply reordered_set; [assumption|now left]. Qed.

Lemma reordered_update (other d d' : dict) :
  reordered q d d' -> reordered q (dict_update d other) (dict_update d' other).
Proof.
  unfold dict_update. revert d d'.
  induction other as [|[k v] o IH]; intros d d' H; cbn [fold_left]; [assumption|].
  apply IH. cbn [fst snd]. now apply reordered_set_same.
Qed.

Lemma reordered_without (d d' : dict) :
  reordered q d d' -> dict_mem q d = false -> d = d'.
Proof.
  induction 1 as [|[k1 v1] [k2 v2] d d' [Hk Hv] _ IH]; [reflexivity|].
  cbn [fst snd] in Hk, Hv. subst k2. unfold dict_mem. cbn [dict_get].
  destruct (String.eqb q k1) eqn:E; [discriminate|]. intros Hm.
  destruct Hv as [->|[K _]].
  - f_equal. now apply IH.
  - subst k1. now rewrite String.eqb_refl in E.
Qed.

Lemma single_dict_Permutation (l l' : list json) :
  Permutation l l' -> single_dict l = single_dict l'.
Proof.
  intros H. destruct l as [|a [|b l]].
  - apply Permutation_nil in H. now subst.
  - apply Permutation_length_1_inv in H. now subst.
  - apply Permutation_length in H.
    destruct l' as [|a' [|b' l']]; try discriminate.
    destruct a, a'; reflexivity.
Qed.

Lemma dissolve_single_item_lists_list (d : dict) (k : string) (l : list json) :
  dict_get k d = Some (JList l) ->
  dissolve_single_item_lists d k
  = Ok (match single_dict l with
        | Some item => dict_update (dict_pop k d) item
        | None => d
        end).
Proof.
  intros H. unfold dissolve_single_item_lists. rewrite H.
  destruct l as [|[| | | |m|item] [|y l]]; reflexivity.
Qed.

Lemma deduplicate_dicts_reordered (k : string) (d d' d1 : dict) :
  reordered q d d' ->
  deduplicate_dicts d k = Ok d1 ->
  exists l l',
    d1 = dict_set k (JList l) d
    /\ deduplicate_dicts d' k = Ok (dict_set k (JList l') d')
    /\ same_or_permuted q k (JList l) (JList l').
Proof.
  intros H. pose proof (reordered_get k d d' H) as G.
  unfold deduplicate_dicts.
  destruct (dict_get k d) as [v|], (dict_get k d') as [v'|];
    try contradiction; try discriminate.
  destruct G as [<-|[-> (l & l' & -> & -> & Hp)]].
  - destruct (iterate v) as [l| |]; cbn [bind]; try discriminate.
    intros [= <-]. exists (fromkeys [] l), (fromkeys [] l). repeat split. now left.
  - cbn [iterate bind]. intros [= <-].
    exists (fromkeys [] l), (fromkeys [] l'). repeat split.
    right. split; [reflexivity|].
    exists (fromkeys [] l), (fromkeys [] l'). repeat split.
    now apply fromkeys_Permutation.
Qed.

Lemma prepare_quantifier_reordered (rec : json -> outcome json) (k : string)
      (d d' d1 : dict) :
  order_blind rec -> reordered q d d' ->
  prepare_quantifier rec k d = Ok d1 ->
  exists d1', prepare_quantifier rec k d' = Ok d1' /\ reordered q d1 d1'.
Proof.
  intros Hrec H. pose proof (reordered_get k d d' H) as G.
  unfold prepare_quantifier.
  destruct (dict_get k d) as [v|], (dict_get k d') as [v'|];
    try contradiction; try discriminate.
  assert (forall r, rec v = Ok r ->
            exists r', rec v' = Ok r' /\ same_or_permuted q k r r') as Hv.
  { destruct G as [<-|[-> (l & l' & -> & -> & Hp)]]; intros r Hr.
    - exists r. split; [assumption|now left].
    - destruct (Hrec l l' r Hp Hr) as (m & m' & -> & Hr' & Hm).
      exists (JList m'). split; [assumption|]. right. split; [reflexivity|eauto 6]. }
  destruct (rec v) as [r| |]; cbn [bind]; try discriminate.
  destruct (Hv r eq_refl) as (r' & -> & Hr). cbn [bind].
  pose proof (reordered_set k r r' d d' H Hr) as H1.
  destruct (deduplicate_dicts (dict_set k r d) k) as [d2| |] eqn:D; cbn [bind];
    try discriminate.
  destruct (deduplicate_dicts_reordered k _ _ d2 H1 D) as (l & l' & -> & -> & Hl).
  cbn [bind]. rewrite !dict_set_set.
  rewrite (dissolve_single_item_lists_list _ k l) by apply dict_get_set_same.
  rewrite (dissolve_single_item_lists_list _ k l') by apply dict_get_set_same.
  intros [= <-]. eexists. split; [reflexivity|].
  assert (single_dict l = single_dict l') as <-.
  { destruct Hl as [[= ->]|[_ (m & m' & [= ->] & [= ->] & Hp)]];
      [reflexivity|now apply single_dict_Permutation]. }
  destruct (single_dict l).
  - apply reordered_update. rewrite !dict_pop_set_same. now apply reordered_pop.
  - now apply reordered_set.
Qed.

Lemma fold_quantifiers_reordered (rec : json -> outcome json) (qs : list string)
      (d d' d1 : dict) :
  order_blind rec -> reordered q d d' ->
  fold_m (prepare_quantifier rec) qs d = Ok d1 ->
  exists d1', fold_m (prepare_quantifier rec) qs d' = Ok d1' /\ reordered q d1 d1'.
Proof.
  intros Hrec. revert d d'. induction qs as [|k qs IH]; intros d d' H; cbn [fold_m].
  - intros [= <-]. eauto.
  - destruct (prepare_quantifier rec k d) as [d2| |] eqn:E; cbn [bind]; try discriminate.
    destruct (prepare_quantifier_reordered rec k d d' d2 Hrec H E) as (d2' & -> & H2).
    cbn [bind]. now apply IH.
Qed.

End Reordering.

Section ReorderedFragments.

Variable MEX_ID_PATTERN : string.
Variable TIMESTAMP_REGEX : string.
Variable dromedary_to_kebab : string -> string.
Variable anyOf_first : bool.

Local Abbreviation head := (prepare_head MEX_ID_PATTERN TIMESTAMP_REGEX dromedary_to_kebab).
Local Abbreviation prepare :=
  (prepare_field MEX_ID_PATTERN TIMESTAMP_REGEX dromedary_to_kebab anyOf_first).

Variable q : string.
Hypothesis q_is_a_quantifier : q = "anyOf" \/ q = "allOf".

Lemma quantifier_not_title : "title" <> q.
Proof. destruct q_is_a_quantifier; subst q; str_neq. Qed.

Lemma quantifier_not_use_scheme : "useScheme" <> q.
Proof. destruct q_is_a_quantifier; subst q; str_neq. Qed.

Lemma quantifier_not_ref : "$ref" <> q.
Proof. destruct q_is_a_quantifier; subst q; str_neq. Qed.

Lemma quantifier_not_items : "items" <> q.
Proof. destruct q_is_a_quantifier; subst q; str_neq. Qed.

Lemma unify_dates_reordered (d d' : dict) :
  reordered q d d' ->
  reordered q (unify_dates TIMESTAMP_REGEX d) (unify_dates TIMESTAMP_REGEX d').
Proof.
  intros H. unfold unify_dates, is_date.
  rewrite <- !(reordered_str_is q _ _ d d' H).
  destruct (_ || _); [|assumption].
  apply reordered_set_same. now do 2 apply reordered_pop.
Qed.

Lemma align_identifier_reordered (field : string) (title : json) (d d' d1 : dict) :
  reordered q d d' ->
  align_identifier MEX_ID_PATTERN field title d = Ok d1 ->
  exists d1', align_identifier MEX_ID_PATTERN field title d' = Ok d1'
              /\ reordered q d1 d1'.
Proof.
  intros H. unfold align_identifier.
  rewrite <- (reordered_str_is q _ _ d d' H).
  destruct (str_is "pattern" MEX_ID_PATTERN d); [|intros [= <-]; eauto].
  pose proof (reordered_pop q "pattern" d d' H) as Hp.
  pose proof (reordered_get q "type" _ _ Hp) as G.
  destruct (dict_get "type" (dict_pop "pattern" d)),
           (dict_get "type" (dict_pop "pattern" d'));
    try contradiction; try discriminate.
  pose proof (reordered_pop q "type" _ _ Hp) as Ht.
  destruct (is_identifier_field field).
  - intros [= <-]. eexists. split; [reflexivity|now apply reordered_set_same].
  - destruct (entity_name title); cbn [bind]; try discriminate.
    intros [= <-]. eexists. split; [reflexivity|now apply reordered_set_same].
Qed.

Lemma align_concept_reordered (vocabulary : string) (d d' : dict) :
  reordered q d d' ->
  reordered q (align_concept vocabulary d) (align_concept vocabulary d').
Proof.
  intros H. unfold align_concept. rewrite <- (reordered_str_is q _ _ d d' H).
  destruct (str_is "$ref" concept_ref d); [now apply reordered_set_same|assumption].
Qed.

Lemma kebab_ref_reordered (d d' d1 : dict) :
  reordered q d d' ->
  kebab_ref dromedary_to_kebab d = Ok d1 ->
  exists d1', kebab_ref dromedary_to_kebab d' = Ok d1' /\ reordered q d1 d1'.
Proof.
  intros H. unfold kebab_ref.
  rewrite <- (reordered_get_other q "$ref" d d' H quantifier_not_ref).
  destruct (dict_get "$ref" d) as [[| | |s| |]|]; try discriminate; intros [= <-];
    eexists; (split; [reflexivity|]); [now apply reordered_set_same|assumption].
Qed.

Lemma prepare_head_reordered (field : string) (d d' d1 : dict) :
  reordered q d d' ->
  head field d = Ok d1 ->
  exists d1', head field d' = Ok d1' /\ reordered q d1 d1'.
Proof.
  intros H. unfold prepare_head.
  rewrite !pop_value_use_scheme, !pop_value_title.
  rewrite <- (reordered_pop_value q "useScheme" _ d d' H quantifier_not_use_scheme).
  rewrite <- (reordered_pop_value q "title" _ d d' H quantifier_not_title).
  destruct (pop_value "useScheme" (JStr "") d) as [| | |u| |]; cbn [bind]; try discriminate.
  fold (discard_annotations d). fold (discard_annotations d').
  assert (reordered q (discard_annotations d) (discard_annotations d')) as H0
      by (unfold discard_annotations; now repeat apply reordered_pop).
  apply unify_dates_reordered in H0.
  destruct (align_identifier _ _ _ (unify_dates _ (discard_annotations d)))
    as [d2| |] eqn:A; cbn [bind]; try discriminate.
  destruct (align_identifier_reordered _ _ _ _ d2 H0 A) as (d2' & -> & H2).
  cbn [bind]. apply kebab_ref_reordered. now apply align_concept_reordered.
Qed.

Lemma prepare_items_reordered (rec : json -> outcome json) (d d' d1 : dict) :
  reordered q d d' ->
  prepare_items rec d = Ok d1 ->
  exists d1', prepare_items rec d' = Ok d1' /\ reordered q d1 d1'.
Proof.
  intros H. unfold prepare_items.
  rewrite <- (reordered_str_is q _ _ d d' H).
  destruct (str_is "type" "array" d); [|intros [= <-]; eauto].
  rewrite <- (reordered_get_other q "items" d d' H quantifier_not_items).
  destruct (dict_get "items" d) as [items|]; [|discriminate].
  destruct (rec items); cbn [bind]; try discriminate.
  intros [= <-]. eexists. split; [reflexivity|now apply reordered_set_same].
Qed.

Lemma quantifiers_reordered (d d' : dict) :
  reordered q d d' -> quantifiers anyOf_first d = quantifiers anyOf_first d'.
Proof.
  intros H. unfold quantifiers.
  apply filter_ext. intros k. apply (reordered_mem q k d d' H).
Qed.

Lemma prepare_order_blind (fuel : nat) (field : string) :
  order_blind (prepare fuel field).
Proof.
  intros l l' r Hp. destruct fuel as [|fuel]; [discriminate|]. cbn [prepare_field].
  destruct (map_m _ l) as [rs| |] eqn:E; cbn [bind]; try discriminate.
  destruct (map_m_Permutation _ l l' Hp rs E) as (rs' & -> & Hrs).
  intros [= <-]. cbn [bind]. do 2 eexists. repeat split.
  now apply filter_Permutation.
Qed.

Lemma prepare_reordered (fuel : nat) (field : string) (d d' : dict) (r : json) :
  reordered q d d' ->
  prepare fuel field (JDict d) = Ok r ->
  exists e e', r = JDict e /\ prepare fuel field (JDict d') = Ok (JDict e')
               /\ reordered q e e'.
Proof.
  intros H. destruct fuel as [|fuel]; [discriminate|]. cbn [prepare_field].
  destruct (head field d) as [d1| |] eqn:E1; cbn [bind]; try discriminate.
  destruct (prepare_head_reordered field d d' d1 H E1) as (d1' & -> & H1).
  cbn [bind].
  destruct (prepare_items _ d1) as [d2| |] eqn:E2; cbn [bind]; try discriminate.
  destruct (prepare_items_reordered _ d1 d1' d2 H1 E2) as (d2' & -> & H2).
  cbn [bind]. rewrite <- (quantifiers_reordered d2 d2' H2).
  destruct (fold_m _ _ d2) as [d3| |] eqn:E3; cbn [bind]; try discriminate.
  destruct (fold_quantifiers_reordered q _ _ d2 d2' d3
              (prepare_order_blind fuel field) H2 E3) as (d3' & -> & H3).
  intros [= <-]. cbn [bind]. eauto.
Qed.

Lemma reordered_at (d : dict) (alts alts' : list json) :
  dict_get q d = Some (JList alts) -> Permutation alts alts' ->
  reordered q d (dict_set q (JList alts') d).
Proof.
  intros Hget Hp. induction d as [|[k v] d IH]; [discriminate|].
  cbn [dict_get dict_set] in *. destruct (String.eqb q k) eqn:E.
  - apply String.eqb_eq in E. injection Hget as ->. subst k.
    constructor; [|apply reordered_refl]. split; [reflexivity|].
    right. split; [reflexivity|]. exists alts, alts'. repeat split. exact Hp.
  - constructor; [split; [reflexivity|now left]|]. now apply IH.
Qed.

(** C6. Reordering the alternatives of a union-like container reorders
    the result: when the fragment normalizes, so does the reordered one,
    to a dict with the same keys and the same values except that the
    alternatives left under the container may come in another order.  The
    two results are the same dict when the container is gone from the
    result. *)
Theorem reordering_alternatives_reorders_the_result :
  forall fuel field d alts alts' r,
    dict_get q d = Some (JList alts) ->
    Permutation alts alts' ->
    prepare fuel field (JDict d) = Ok r ->
    exists e e',
      r = JDict e
      /\ prepare fuel field (JDict (dict_set q (JList alts') d)) = Ok (JDict e')
      /\ reordered q e e'
      /\ (dict_mem q e = false -> e' = e).
Proof.
  intros fuel field d alts alts' r Hget Hp Hr.
  destruct (prepare_reordered fuel field d _ r (reordered_at d alts alts' Hget Hp) Hr)
    as (e & e' & -> & He & Hree').
  exists e, e'. repeat split; auto.
  intros Hm. symmetry. now apply (reordered_without q).
Qed.

End ReorderedFragments.

(** A union whose alternatives repeat: both orders leave the same set of
    alternatives. *)
Lemma reordering_alternatives_witness :
  exists e e',
    JDict [("anyOf", JList [JDict [("type", JStr "string")];
                            JDict [("type", JStr "integer")]])] = JDict e
    /\ sample_prepare 4 "name"
         (JDict (dict_set "anyOf"
                   (JList [JDict [("type", JStr "integer")];
                           JDict [("type", JStr "string")];
                           JDict [("type", JStr "string")]])
                   [("anyOf", JList [JDict [("type", JStr "string")];
                                     JDict [("type", JStr "integer")];
                                     JDict [("type", JStr "string")]])]))
       = Ok (JDict e')
    /\ reordered "anyOf" e e'
    /\ (dict_mem "anyOf" e = false -> e' = e).
Proof.
  apply (reordering_alternatives_reorders_the_result
           sample_id_pattern sample_timestamp_regex kebab true "anyOf" (or_introl eq_refl)
           4 "name"
           [("anyOf", JList [JDict [("type", JStr "string")];
                             JDict [("type", JStr "integer")];
                             JDict [("type", JStr "string")]])]
           [JDict [("type", JStr "string")]; JDict [("type", JStr "integer")];
            JDict [("type", JStr "string")]]).
  - reflexivity.
  - apply perm_swap.
  - reflexivity.
Defined.

(** Two alternatives in the two orders: the results list them in the two
    orders, and Python compares lists in order. *)
Lemma reordered_alternatives_give_another_result :
  run "name" (JDict [("anyOf", JList [JDict [("type", JStr "string")];
                                      JDict [("type", JStr "integer")]])])
  = Ok (JDict [("anyOf", JList [JDict [("type", JStr "string")];
                                JDict [("type", JStr "integer")]])])
  /\ run "name" (JDict [("anyOf", JList [JDict [("type", JStr "integer")];
                                         JDict [("type", JStr "string")]])])
     = Ok (JDict [("anyOf", JList [JDict [("type", JStr "integer")];
                                   JDict [("type", JStr "string")]])])
  /\ py_eq (JDict [("anyOf", JList [JDict [("type", JStr "string")];
                                    JDict [("type", JStr "integer")]])])
           (JDict [("anyOf", JList [JDict [("type", JStr "integer")];
                                    JDict [("type", JStr "string")]])])
     = false.
Proof. repeat split. Qed.

(** ** Normalizing twice *)

Section Idempotence.

Variable MEX_ID_PATTERN : string.
Variable TIMESTAMP_REGEX : string.
Variable dromedary_to_kebab : string -> string.
Variable anyOf_first : bool.

Local Abbreviation head := (prepare_head MEX_ID_PATTERN TIMESTAMP_REGEX dromedary_to_kebab).
Local Abbreviation prepare :=
  (prepare_field MEX_ID_PATTERN TIMESTAMP_REGEX dromedary_to_kebab anyOf_first).

Lemma align_identifier_normal (field : string) (title : json) (d d' : dict) :
  align_identifier MEX_ID_PATTERN field title d = Ok d' ->
  str_is "pattern" MEX_ID_PATTERN d' = false
  /\ dict_get "format" d' = dict_get "format" d
  /\ dict_get "examples" d' = dict_get "examples" d
  /\ (dict_get "pattern" d' = None \/ dict_get "pattern" d' = dict_get "pattern" d).
Proof.
  unfold align_identifier.
  destruct (str_is "pattern" MEX_ID_PATTERN d) eqn:E; [|intros [= <-]; auto].
  destruct (dict_get "type" (dict_pop "pattern" d)); [|discriminate].
  assert (forall v,
            str_is "pattern" MEX_ID_PATTERN
                   (dict_set "$ref" v (dict_pop "type" (dict_pop "pattern" d))) = false
            /\ dict_get "format" (dict_set "$ref" v (dict_pop "type" (dict_pop "pattern" d)))
               = dict_get "format" d
            /\ dict_get "examples" (dict_set "$ref" v (dict_pop "type" (dict_pop "pattern" d)))
               = dict_get "examples" d
            /\ (dict_get "pattern" (dict_set "$ref" v (dict_pop "type" (dict_pop "pattern" d)))
                = None
                \/ dict_get "pattern" (dict_set "$ref" v (dict_pop "type" (dict_pop "pattern" d)))
                   = dict_get "pattern" d)) as K.
  { intros v. unfold str_is. dict_rw. auto. }
  destruct (is_identifier_field field); [intros [= <-]; apply K|].
  destruct (entity_name title); cbn [bind]; try discriminate.
  intros [= <-]. apply K.
Qed.

Lemma unify_dates_normal (d : dict) :
  (is_date TIMESTAMP_REGEX d = true ->
   dict_get "format" (unify_dates TIMESTAMP_REGEX d) = Some (JStr "date-time")
   /\ dict_get "pattern" (unify_dates TIMESTAMP_REGEX d) = None
   /\ dict_get "examples" (unify_dates TIMESTAMP_REGEX d) = None)
  /\ (is_date TIMESTAMP_REGEX d = false -> unify_dates TIMESTAMP_REGEX d = d).
Proof.
  unfold unify_dates. destruct (is_date TIMESTAMP_REGEX d); split; try discriminate; auto.
  intros _. now dict_rw.
Qed.

Lemma discard_annotations_absent (d : dict) :
  dict_get "sameAs" (discard_annotations d) = None
  /\ dict_get "subPropertyOf" (discard_annotations d) = None
  /\ dict_get "description" (discard_annotations d) = None
  /\ dict_get "title" (discard_annotations d) = None
  /\ dict_get "useScheme" (discard_annotations d) = None.
Proof. unfold discard_annotations. repeat split; now dict_rw. Qed.

Lemma kebab_ref_str (d d' : dict) :
  kebab_ref dromedary_to_kebab d = Ok d' -> str_or_absent "$ref" d' = true.
Proof.
  unfold kebab_ref, str_or_absent.
  destruct (dict_get "$ref" d) as [[| | |s| |]|] eqn:E; try discriminate; intros [= <-].
  - now rewrite dict_get_set_same.
  - now rewrite E.
Qed.

Lemma prepare_head_normal (field : string) (d d' : dict) :
  head field d = Ok d' -> head_normal MEX_ID_PATTERN TIMESTAMP_REGEX d'.
Proof.
  unfold prepare_head. fold (discard_annotations d).
  destruct (pop_value "useScheme" _ _) as [| | |u| |]; cbn [bind]; try discriminate.
  destruct (align_identifier _ _ _ _) as [d1| |] eqn:A; cbn [bind]; try discriminate.
  intros K.
  pose proof (kebab_ref_str _ _ K) as R.
  assert (forall k, k <> "$ref" -> dict_get k d' = dict_get k d1) as F.
  { intros k n. rewrite (kebab_ref_get_other _ k _ _ n K).
    now apply align_concept_get_other. }
  assert (forall k, k <> "$ref" -> k <> "pattern" -> k <> "type" ->
                    k <> "format" -> k <> "examples" ->
                    dict_get k d' = dict_get k (discard_annotations d)) as G.
  { intros k n1 n2 n3 n4 n5. rewrite F by assumption.
    rewrite (align_identifier_get_other _ _ k _ _ _ n1 n2 n3 A).
    now apply unify_dates_get_other. }
  destruct (align_identifier_normal _ _ _ _ A) as (N1 & N2 & N3 & N4).
  destruct (unify_dates_normal (discard_annotations d)) as (U1 & U2).
  destruct (discard_annotations_absent d) as (D1 & D2 & D3 & D4 & D5).
  assert (str_is "pattern" MEX_ID_PATTERN d' = false) as P
      by (unfold str_is in *; now rewrite F by str_neq).
  unfold head_normal.
  split; [rewrite G by str_neq; exact D1|].
  split; [rewrite G by str_neq; exact D2|].
  split; [rewrite G by str_neq; exact D3|].
  split; [rewrite G by str_neq; exact D4|].
  split; [rewrite G by str_neq; exact D5|].
  split; [exact P|]. split; [|exact R].
  rewrite (F "format"), (F "pattern"), (F "examples") by str_neq.
  rewrite N2, N3.
  destruct (is_date TIMESTAMP_REGEX (discard_annotations d)) eqn:Hd.
  - intros _. destruct (U1 eq_refl) as (V1 & V2 & V3).
    repeat split; try assumption. destruct N4 as [N4|N4]; congruence.
  - rewrite (U2 eq_refl) in *. intros H. exfalso.
    unfold is_date, str_is in H, Hd.
    rewrite (F "format"), (F "pattern") in H by str_neq.
    rewrite N2 in H.
    destruct N4 as [N4|N4]; rewrite N4 in H; [|congruence].
    rewrite orb_false_r in H.
    apply orb_false_iff in Hd as [Hd _]. congruence.
Qed.

Lemma ref_settled_true (d : dict) (s : string) :
  ref_settled dromedary_to_kebab d = true -> dict_get "$ref" d = Some (JStr s) ->
  sub_only_text dromedary_to_kebab s = s /\ s <> concept_ref.
Proof.
  unfold ref_settled. intros H E. rewrite E in H. apply andb_true_iff in H as [A B].
  apply String.eqb_eq in A. apply negb_true_iff, String.eqb_neq in B. auto.
Qed.

(** The head of the normalizer leaves a normal dict with a settled
    reference alone. *)
Lemma prepare_head_fixed (field : string) (d : dict) :
  head_normal MEX_ID_PATTERN TIMESTAMP_REGEX d -> ref_settled dromedary_to_kebab d = true -> head field d = Ok d.
Proof.
  intros (A1 & A2 & A3 & A4 & A5 & P & D & R) S.
  unfold prepare_head, pop_value.
  rewrite (dict_pop_absent "sameAs") by assumption.
  rewrite (dict_pop_absent "subPropertyOf") by assumption.
  rewrite (dict_pop_absent "description") by assumption.
  rewrite A4. rewrite (dict_pop_absent "title") by assumption.
  rewrite A5. rewrite (dict_pop_absent "useScheme") by assumption.
  cbn [bind].
  assert (unify_dates TIMESTAMP_REGEX d = d) as ->.
  { unfold unify_dates. destruct (is_date TIMESTAMP_REGEX d); [|reflexivity].
    destruct (D eq_refl) as (D1 & D2 & D3).
    rewrite (dict_pop_absent "examples") by assumption.
    rewrite (dict_pop_absent "pattern") by assumption.
    now apply dict_set_same_value. }
  unfold align_identifier. rewrite P. cbn [bind].
  unfold str_or_absent in R.
  destruct (dict_get "$ref" d) as [[| | |s| |]|] eqn:E; try discriminate.
  - destruct (ref_settled_true d s S E) as [Hfix Hneq].
    assert (align_concept (removeprefix "https://mex.rki.de/item/" "") d = d) as ->.
    { unfold align_concept, str_is. rewrite E.
      apply String.eqb_neq in Hneq. now rewrite Hneq. }
    unfold kebab_ref. rewrite E, Hfix. now rewrite dict_set_same_value.
  - assert (align_concept (removeprefix "https://mex.rki.de/item/" "") d = d) as ->
        by (unfold align_concept; now rewrite str_is_absent).
    unfold kebab_ref. now rewrite E.
Qed.

Lemma head_normal_set_items (v : json) (d : dict) :
  head_normal MEX_ID_PATTERN TIMESTAMP_REGEX d -> head_normal MEX_ID_PATTERN TIMESTAMP_REGEX (dict_set "items" v d).
Proof.
  unfold head_normal, is_date, str_or_absent. now dict_rw.
Qed.

Lemma ref_settled_set_items (v : json) (d : dict) :
  ref_settled dromedary_to_kebab (dict_set "items" v d)
  = ref_settled dromedary_to_kebab d.
Proof. unfold ref_settled. now dict_rw. Qed.

End Idempotence.

Lemma throughout_top (p : dict -> bool) (d : dict) :
  throughout p (JDict d) = true -> p d = true.
Proof. cbn [throughout]. intros H. now apply andb_true_iff in H. Qed.

Lemma throughout_items (p : dict -> bool) (d : dict) (v : json) :
  throughout p (JDict d) = true -> dict_get "items" d = Some v ->
  throughout p v = true.
Proof.
  cbn [throughout]. intros H. apply andb_true_iff in H as [_ H].
  induction d as [|[k x] d IH]; cbn [dict_get forallb fst snd] in *; [discriminate|].
  apply andb_true_iff in H as [Hx Hd].
  rewrite String.eqb_sym in Hx.
  destruct (String.eqb "items" k); [|now apply IH].
  intros [= <-]. exact Hx.
Qed.

Lemma throughout_list (p : dict -> bool) (l : list json) :
  throughout p (JList l) = true -> Forall (fun x => throughout p x = true) l.
Proof. cbn [throughout]. intros H. apply Forall_forall. now apply forallb_forall. Qed.

Lemma map_m_fixed {A : Type} (f : A -> outcome A) (ys : list A) :
  Forall (fun y => f y = Ok y) ys -> map_m f ys = Ok ys.
Proof.
  induction 1 as [|y ys Hy _ IH]; cbn [map_m]; [reflexivity|]. now rewrite Hy, IH.
Qed.

Lemma filter_filter {A : Type} (p : A -> bool) (l : list A) :
  filter p (filter p l) = filter p l.
Proof.
  induction l as [|x l IH]; cbn [filter]; [reflexivity|].
  destruct (p x) eqn:E; [cbn [filter]; rewrite E; congruence|exact IH].
Qed.

Section Twice.

Variable MEX_ID_PATTERN : string.
Variable TIMESTAMP_REGEX : string.
Variable dromedary_to_kebab : string -> string.
Variable anyOf_first : bool.

Local Abbreviation head := (prepare_head MEX_ID_PATTERN TIMESTAMP_REGEX dromedary_to_kebab).
Local Abbreviation prepare :=
  (prepare_field MEX_ID_PATTERN TIMESTAMP_REGEX dromedary_to_kebab anyOf_first).

(** C2. On a fragment without union containers normalization is
    idempotent as soon as the references it leaves are settled: when no
    dict that the normalizer reaches has an ["anyOf"] or ["allOf"] key, the
    call returns [r], and every ["$ref"] it reaches in [r] is a fixed point
    of the casing and is not the generic concept reference, then
    normalizing [r] returns [r]. *)
Theorem normalizing_twice_is_normalizing_once :
  forall fuel field obj r,
    union_free obj = true ->
    prepare fuel field obj = Ok r ->
    settled dromedary_to_kebab r = true ->
    prepare fuel field r = Ok r.
Proof.
  induction fuel as [|fuel IH]; intros field obj r Hu Hr Hs; [discriminate|].
  cbn [prepare_field] in Hr.
  destruct obj as [| | | |l|d]; try discriminate.
  - destruct (map_m _ l) as [rs| |] eqn:E; cbn [bind] in Hr; try discriminate.
    injection Hr as <-. cbn [prepare_field].
    apply throughout_list in Hu, Hs.
    apply map_m_Forall2 in E.
    assert (Forall (fun y => settled dromedary_to_kebab y = true ->
                             prepare fuel field y = Ok y) rs) as K.
    { clear Hs. induction E as [|x y l rs Hx _ IHE]; constructor.
      - intros Hy. apply (IH field x y); auto. now inversion Hu.
      - apply IHE. now inversion Hu. }
    rewrite map_m_fixed.
    + cbn [bind]. now rewrite filter_filter.
    + rewrite Forall_forall in *. intros y Hy.
      apply K; [apply filter_In in Hy; tauto|]. now apply Hs.
  - destruct (head field d) as [d1| |] eqn:E1; cbn [bind] in Hr; try discriminate.
    destruct (prepare_items _ d1) as [d2| |] eqn:E2; cbn [bind] in Hr; try discriminate.
    assert (no_union d2 = true) as Hn.
    { rewrite (prepare_items_no_union _ _ _ E2), (prepare_head_no_union _ _ _ _ _ _ E1).
      now apply throughout_top in Hu. }
    rewrite (quantifiers_no_union anyOf_first d2 Hn) in Hr. cbn [fold_m bind] in Hr.
    injection Hr as <-. cbn [prepare_field].
    pose proof (prepare_head_normal _ _ _ _ _ _ E1) as N1.
    assert (head_normal MEX_ID_PATTERN TIMESTAMP_REGEX d2
            /\ prepare_items (prepare fuel field) d2 = Ok d2) as [N2 I2].
    { revert E2. unfold prepare_items.
      destruct (str_is "type" "array" d1) eqn:T.
      - destruct (dict_get "items" d1) as [it|] eqn:Hit; [|discriminate].
        destruct (prepare fuel field it) as [ri| |] eqn:Ri; cbn [bind]; try discriminate.
        intros [= <-]. split; [now apply head_normal_set_items|].
        rewrite str_is_set_other by str_neq. rewrite T.
        rewrite dict_get_set_same.
        rewrite (IH field it ri); cbn [bind].
        + now rewrite dict_set_set.
        + apply (throughout_items _ d); [assumption|].
          rewrite <- Hit. symmetry.
          apply (prepare_head_frame _ _ _ "items" _ _ _ ltac:(cbv; intuition discriminate) E1).
        + assumption.
        + apply (throughout_items _ _ _ Hs), dict_get_set_same.
      - intros [= <-]. split; [assumption|]. now rewrite T. }
    rewrite (prepare_head_fixed _ _ _ field d2 N2 (throughout_top _ _ Hs)).
    cbn [bind]. rewrite I2. cbn [bind].
    rewrite (quantifiers_no_union anyOf_first d2 Hn). reflexivity.
Qed.

End Twice.

(** An array of dates, normalized and normalized again. *)
Lemma normalizing_twice_witness :
  sample_prepare 9 "created"
    (JDict [("type", JStr "array");
            ("items", JDict [("format", JStr "date-time")])])
  = Ok (JDict [("type", JStr "array");
               ("items", JDict [("format", JStr "date-time")])]).
Proof.
  apply (normalizing_twice_is_normalizing_once
           sample_id_pattern sample_timestamp_regex kebab true 9 "created"
           (JDict [("description", JStr "a list of days"); ("type", JStr "array");
                   ("items", JDict [("format", JStr "date"); ("title", JStr "Created");
                                    ("examples", JList [JStr "2020-01-01"])])]));
    reflexivity.
Defined.

(** A single-choice union next to examples: the first call splices a date
    into the parent, the second one applies the date rule to the parent and
    drops the examples. *)
Lemma normalizing_twice_drops_examples :
  run "created"
      (JDict [("examples", JList [JStr "2020-01-01"]);
              ("anyOf", JList [JDict [("format", JStr "date")]])])
  = Ok (JDict [("examples", JList [JStr "2020-01-01"]); ("format", JStr "date-time")])
  /\ run "created"
         (JDict [("examples", JList [JStr "2020-01-01"]); ("format", JStr "date-time")])
     = Ok (JDict [("format", JStr "date-time")])
  /\ py_eq (JDict [("examples", JList [JStr "2020-01-01"]); ("format", JStr "date-time")])
           (JDict [("format", JStr "date-time")])
     = false.
Proof. repeat split. Qed.

(** * Further properties *)

(** ** [sub_only_text] *)

Lemma append_assoc (a b c : string) : ((a ++ b) ++ c = a ++ (b ++ c))%string.
Proof. induction a as [|x a IH]; cbn; [reflexivity|now rewrite IH]. Qed.

Lemma append_empty_r (a : string) : (a ++ "")%string = a.
Proof. induction a as [|x a IH]; cbn; [reflexivity|now rewrite IH]. Qed.

Lemma sub_scan_separator (repl : string -> string) (a b tok : string) (c : ascii) :
  is_text_char c = false ->
  sub_scan repl tok (a ++ String c b)
  = (sub_scan repl tok a ++ String c (sub_scan repl "" b))%string.
Proof.
  intros Hc. revert tok. induction a as [|x a IH]; intros tok; cbn [append sub_scan].
  - now rewrite Hc.
  - destruct (is_text_char x); [apply IH|].
    rewrite IH, append_assoc. reflexivity.
Qed.

Lemma sub_scan_text (repl : string -> string) (s tok : string) :
  all_text s = true -> sub_scan repl tok s = flush repl (tok ++ s).
Proof.
  revert tok. induction s as [|x s IH]; intros tok; cbn [all_text sub_scan].
  - now rewrite append_empty_r.
  - intros H. apply andb_true_iff in H as [Hx Hs]. rewrite Hx, IH by assumption.
    now rewrite append_assoc.
Qed.

(** X1. [sub_only_text] works token by token: a character outside the
    class (a slash, a [#], a digit) stays where it is and splits the string
    into two parts that are substituted on their own, and a non-empty string
    of text characters only is handed to [repl] whole. *)
Theorem sub_only_text_splits_at_separators :
  forall repl,
    (forall a b c,
       is_text_char c = false ->
       sub_only_text repl (a ++ String c b)
       = (sub_only_text repl a ++ String c (sub_only_text repl b))%string)
    /\ (forall s, all_text s = true -> s <> EmptyString -> sub_only_text repl s = repl s)
    /\ sub_only_text repl EmptyString = EmptyString.
Proof.
  intros repl. split; [|split].
  - intros a b c Hc. now apply sub_scan_separator.
  - intros s Hs Hne. unfold sub_only_text. rewrite sub_scan_text by assumption.
    cbn [append]. destruct s; [contradiction|reflexivity].
  - reflexivity.
Qed.

(** A reference path, split at its first slash after the first token. *)
Lemma sub_only_text_witness :
  sub_only_text kebab ("MergedResource" ++ String "/"%char "identifier")
  = (sub_only_text kebab "MergedResource" ++ String "/"%char (sub_only_text kebab "identifier"))%string
  /\ sub_only_text kebab "MergedResource" = kebab "MergedResource".
Proof.
  split.
  - apply (proj1 (sub_only_text_splits_at_separators kebab)). reflexivity.
  - apply (proj1 (proj2 (sub_only_text_splits_at_separators kebab)));
      [reflexivity|discriminate].
Defined.

(** ** [deduplicate_dicts] *)

Lemma fromkeys_distinct (seen l : list json) :
  NoDup (rev seen ++ l) -> fromkeys seen l = rev seen ++ l.
Proof.
  revert seen. induction l as [|x l IH]; intros seen H; cbn [fromkeys].
  - now rewrite app_nil_r.
  - assert (json_mem x seen = false) as ->.
    { destruct (json_mem x seen) eqn:E; [|reflexivity].
      apply json_mem_In in E. apply NoDup_remove_2 in H.
      exfalso. apply H. apply in_or_app. left. now apply in_rev in E. }
    rewrite IH; cbn [rev]; rewrite <- app_assoc; [reflexivity|exact H].
Qed.

(** X2. On a list, [deduplicate_dicts] leaves under the key a list without
    repeats that has exactly the members of the old one, and touches no
    other key; a list without repeats is left as it is, so that
    deduplicating twice is deduplicating once. *)
Theorem deduplicate_dicts_keeps_one_of_each :
  forall dct key l,
    dict_get key dct = Some (JList l) ->
    exists l',
      deduplicate_dicts dct key = Ok (dict_set key (JList l') dct)
      /\ NoDup l' /\ (forall x, In x l' <-> In x l)
      /\ (NoDup l -> l' = l)
      /\ deduplicate_dicts (dict_set key (JList l') dct) key
         = Ok (dict_set key (JList l') dct).
Proof.
  intros dct key l H. exists (fromkeys [] l).
  assert (NoDup (fromkeys [] l)) as Hn by (apply fromkeys_NoDup; constructor).
  unfold deduplicate_dicts. rewrite H, dict_get_set_same. cbn [iterate bind].
  repeat split; auto.
  - intros Hx. apply fromkeys_In in Hx as [[]|Hx]. exact Hx.
  - intros Hx. apply fromkeys_In. now right.
  - intros Hl. now apply (fromkeys_distinct [] l).
  - rewrite dict_set_set. now rewrite (fromkeys_distinct [] (fromkeys [] l)).
Qed.

(** A date and its duplicate. *)
Lemma deduplicate_dicts_witness :
  exists l',
    deduplicate_dicts
      [("anyOf", JList [JDict [("format", JStr "date-time")];
                        JDict [("format", JStr "date-time")]])] "anyOf"
    = Ok (dict_set "anyOf" (JList l')
            [("anyOf", JList [JDict [("format", JStr "date-time")];
                              JDict [("format", JStr "date-time")]])])
    /\ NoDup l'
    /\ (forall x, In x l' <-> In x [JDict [("format", JStr "date-time")];
                                    JDict [("format", JStr "date-time")]])
    /\ (NoDup [JDict [("format", JStr "date-time")];
               JDict [("format", JStr "date-time")]] ->
        l' = [JDict [("format", JStr "date-time")]; JDict [("format", JStr "date-time")]])
    /\ deduplicate_dicts
         (dict_set "anyOf" (JList l')
            [("anyOf", JList [JDict [("format", JStr "date-time")];
                              JDict [("format", JStr "date-time")]])]) "anyOf"
       = Ok (dict_set "anyOf" (JList l')
               [("anyOf", JList [JDict [("format", JStr "date-time")];
                                 JDict [("format", JStr "date-time")]])]).
Proof.
  apply (deduplicate_dicts_keeps_one_of_each
           [("anyOf", JList [JDict [("format", JStr "date-time")];
                             JDict [("format", JStr "date-time")]])] "anyOf").
  reflexivity.
Defined.

(** ** [dissolve_single_item_lists] *)

Lemma dict_get_cons (k k0 : string) (v0 : json) (d : dict) :
  dict_get k ((k0, v0) :: d) = if String.eqb k k0 then Some v0 else dict_get k d.
Proof. reflexivity. Qed.

Lemma unique_keys_cons (k : string) (v : json) (d : dict) :
  unique_keys ((k, v) :: d) = true <-> dict_get k d = None /\ unique_keys d = true.
Proof.
  cbn [unique_keys]. rewrite andb_true_iff, negb_true_iff. unfold dict_mem.
  destruct (dict_get k d); split; intros [A B]; split; auto; discriminate.
Qed.

(** Reading a dict after [update]: the other dict decides where it has the
    key. *)
Lemma dict_get_update (k : string) (d other : dict) :
  unique_keys other = true ->
  dict_get k (dict_update d other)
  = match dict_get k other with
    | Some v => Some v
    | None => dict_get k d
    end.
Proof.
  unfold dict_update. revert d.
  induction other as [|[k0 v0] o IH]; intros d H; cbn [fold_left fst snd]; [reflexivity|].
  apply unique_keys_cons in H as [H0 Ho].
  rewrite IH by assumption. rewrite dict_get_cons.
  destruct (String.eqb k k0) eqn:E.
  - apply String.eqb_eq in E. subst k0. now rewrite H0, dict_get_set_same.
  - apply String.eqb_neq in E.
    destruct (dict_get k o); [reflexivity|]. now apply dict_get_set_other.
Qed.

(** X3. When the list under the key is a single dict with distinct keys,
    [dissolve_single_item_lists] returns a parent in which every key of the
    item reads as in the item, every other key but the dissolved one reads
    as before, and the dissolved key is gone unless the item brings it; a
    list that is empty, longer, or holds something else than a dict leaves
    the parent untouched. *)
Theorem dissolve_single_item_lists_merges :
  forall dct key,
    (forall item,
       dict_get key dct = Some (JList [JDict item]) ->
       unique_keys item = true ->
       exists dct',
         dissolve_single_item_lists dct key = Ok dct'
         /\ (forall k v, dict_get k item = Some v -> dict_get k dct' = Some v)
         /\ (forall k, dict_get k item = None -> k <> key ->
                       dict_get k dct' = dict_get k dct)
         /\ (dict_get key item = None -> dict_get key dct' = None))
    /\ (forall l,
          dict_get key dct = Some (JList l) -> single_dict l = None ->
          dissolve_single_item_lists dct key = Ok dct).
Proof.
  intros dct key. split.
  - intros item Hget Hu. eexists. split.
    + rewrite (dissolve_single_item_lists_list dct key _ Hget). reflexivity.
    + cbn [single_dict]. repeat split.
      * intros k v Hk. now rewrite dict_get_update, Hk.
      * intros k Hk Hne. rewrite dict_get_update, Hk by assumption.
        now apply dict_get_pop_other.
      * intros Hk. rewrite dict_get_update, Hk by assumption.
        apply dict_get_pop_same.
  - intros l Hget Hs. rewrite (dissolve_single_item_lists_list dct key l Hget).
    now rewrite Hs.
Qed.

(** A single choice dissolves, two choices stay. *)
Lemma dissolve_single_item_lists_witness :
  (exists dct',
     dissolve_single_item_lists
       [("examples", JList [JStr "a"]); ("anyOf", JList [JDict [("type", JStr "string")]])]
       "anyOf" = Ok dct'
     /\ dict_get "type" dct' = Some (JStr "string")
     /\ dict_get "anyOf" dct' = None)
  /\ dissolve_single_item_lists
       [("anyOf", JList [JDict [("type", JStr "string")]; JDict [("type", JStr "integer")]])]
       "anyOf"
     = Ok [("anyOf", JList [JDict [("type", JStr "string")]; JDict [("type", JStr "integer")]])].
Proof.
  split.
  - destruct (proj1 (dissolve_single_item_lists_merges
                       [("examples", JList [JStr "a"]);
                        ("anyOf", JList [JDict [("type", JStr "string")]])] "anyOf")
                [("type", JStr "string")] eq_refl eq_refl)
      as (dct' & H & Hin & _ & Hgone).
    exists dct'. split; [exact H|]. split; [now apply Hin|now apply Hgone].
  - apply (proj2 (dissolve_single_item_lists_merges _ "anyOf")
             [JDict [("type", JStr "string")]; JDict [("type", JStr "integer")]]);
      reflexivity.
Defined.

(** ** What the normalizer ignores *)

Lemma dict_pop_set_other (k k' : string) (v : json) (d : dict) :
  k <> k' -> dict_pop k (dict_set k' v d) = dict_set k' v (dict_pop k d).
Proof.
  intros H. induction d as [|[k0 v0] d IH]; cbn [dict_set dict_pop].
  - apply String.eqb_neq in H. now rewrite H.
  - destruct (String.eqb k' k0) eqn:E1; destruct (String.eqb k k0) eqn:E2;
      cbn [dict_pop dict_set]; rewrite ?E1, ?E2; try congruence.
    apply String.eqb_eq in E1, E2. congruence.
Qed.

Lemma dict_pop_pop (k k' : string) (d : dict) :
  dict_pop k (dict_pop k' d) = dict_pop k' (dict_pop k d).
Proof.
  induction d as [|[k0 v0] d IH]; cbn [dict_pop]; [reflexivity|].
  destruct (String.eqb k' k0) eqn:E1; destruct (String.eqb k k0) eqn:E2;
    cbn [dict_pop]; rewrite ?E1, ?E2; congruence.
Qed.

Section Ignored.

Variable MEX_ID_PATTERN : string.
Variable TIMESTAMP_REGEX : string.
Variable dromedary_to_kebab : string -> string.
Variable anyOf_first : bool.

Local Abbreviation head := (prepare_head MEX_ID_PATTERN TIMESTAMP_REGEX dromedary_to_kebab).
Local Abbreviation prepare :=
  (prepare_field MEX_ID_PATTERN TIMESTAMP_REGEX dromedary_to_kebab anyOf_first).

Lemma prepare_field_head (fuel : nat) (field : string) (d d' : dict) :
  head field d = head field d' ->
  prepare fuel field (JDict d) = prepare fuel field (JDict d').
Proof.
  intros H. destruct fuel as [|fuel]; [reflexivity|]. cbn [prepare_field]. now rewrite H.
Qed.

Lemma annotations_popped (k : string) (v : json) (d : dict) :
  In k ["sameAs"; "subPropertyOf"; "description"] ->
  dict_pop "description" (dict_pop "subPropertyOf" (dict_pop "sameAs" (dict_set k v d)))
  = dict_pop "description" (dict_pop "subPropertyOf" (dict_pop "sameAs" d)).
Proof.
  cbn [In]. intros [<-|[<-|[<-|[]]]].
  - now rewrite dict_pop_set_same.
  - rewrite dict_pop_set_other by str_neq. now rewrite dict_pop_set_same.
  - rewrite !dict_pop_set_other by str_neq. now rewrite dict_pop_set_same.
Qed.

(** X4. The annotations ["sameAs"], ["subPropertyOf"] and
    ["description"] never reach the comparison: writing any value under one
    of them changes nothing about what [prepare_field] makes of a dict. *)
Theorem ignorable_annotations_are_ignored :
  forall fuel field k v d,
    In k ["sameAs"; "subPropertyOf"; "description"] ->
    prepare fuel field (JDict (dict_set k v d)) = prepare fuel field (JDict d).
Proof.
  intros fuel field k v d Hk. apply prepare_field_head.
  unfold prepare_head. now rewrite (annotations_popped k v d Hk).
Qed.

Lemma unify_dates_format (text : string) (d : dict) :
  text = "date" \/ text = "date-time" ->
  unify_dates TIMESTAMP_REGEX (dict_set "format" (JStr text) d)
  = dict_set "format" (JStr "date-time") (dict_pop "pattern" (dict_pop "examples" d)).
Proof.
  intros H. unfold unify_dates.
  assert (is_date TIMESTAMP_REGEX (dict_set "format" (JStr text) d) = true) as ->.
  { unfold is_date, str_is. rewrite dict_get_set_same.
    destruct H as [-> | ->]; reflexivity. }
  rewrite !dict_pop_set_other by str_neq. apply dict_set_set.
Qed.

Lemma prepare_head_format (field text : string) (d : dict) :
  text = "date" \/ text = "date-time" ->
  head field (dict_set "format" (JStr text) d)
  = head field (dict_set "format" (JStr "date-time") d).
Proof.
  intros H. unfold prepare_head, pop_value.
  rewrite !dict_pop_set_other by str_neq.
  rewrite !dict_get_set_other by str_neq.
  rewrite (unify_dates_format text _ H).
  now rewrite (unify_dates_format "date-time" _ (or_intror eq_refl)).
Qed.

Lemma prepare_field_format (fuel : nat) (field : string) (d : dict) :
  prepare fuel field (JDict (dict_set "format" (JStr "date") d))
  = prepare fuel field (JDict (dict_set "format" (JStr "date-time") d)).
Proof. apply prepare_field_head. apply prepare_head_format. now left. Qed.

(** X5. Dates and date-times are not told apart: a dict normalizes the
    same way whether its format is set to ["date"] or to ["date-time"]. *)
Theorem date_and_date_time_normalize_alike :
  forall fuel field d,
    prepare fuel field (JDict (dict_set "format" (JStr "date") d))
    = prepare fuel field (JDict (dict_set "format" (JStr "date-time") d)).
Proof. exact prepare_field_format. Qed.

End Ignored.

(** A description on a string field. *)
Lemma ignorable_annotations_witness :
  sample_prepare 3 "name"
    (JDict (dict_set "description" (JStr "full name") [("type", JStr "string")]))
  = sample_prepare 3 "name" (JDict [("type", JStr "string")]).
Proof.
  apply (ignorable_annotations_are_ignored
           sample_id_pattern sample_timestamp_regex kebab true 3 "name" "description").
  cbn. tauto.
Defined.

(** ** What the normalizer returns *)

Lemma prepare_field_fuel_le (mex ts : string) (repl : string -> string) (af : bool)
      (field : string) (obj : json) (fuel extra : nat) :
  prepare_field mex ts repl af fuel field obj <> OutOfFuel ->
  prepare_field mex ts repl af (fuel + extra) field obj
  = prepare_field mex ts repl af fuel field obj.
Proof.
  intros H. induction extra as [|extra IH]; [now rewrite Nat.add_0_r|].
  rewrite Nat.add_succ_r, <- IH.
  apply prepare_field_more_fuel. now rewrite IH.
Qed.

(** X6. [prepare_field] returns only on a list or a dict (anything else
    has no [pop] and raises [AttributeError]), what it returns is again a
    list or a dict, and it has no more nodes than the fragment had. *)
Theorem normalizing_never_grows_a_fragment :
  forall mex ts repl af fuel field obj,
    (forall r,
       prepare_field mex ts repl af fuel field obj = Ok r ->
       is_container obj = true /\ is_container r = true /\ size r <= size obj)
    /\ (is_container obj = false ->
        prepare_field mex ts repl af (S fuel) field obj = Raise AttributeError).
Proof.
  intros mex ts repl af fuel field obj. split.
  - intros r H.
    assert (prepare_field mex ts repl af (fuel + size obj) field obj = Ok r) as H'
        by (rewrite prepare_field_fuel_le; [exact H|rewrite H; discriminate]).
    destruct (prepare_field_answers mex ts repl af (fuel + size obj) field obj)
      as [_ K]; [lia|].
    destruct (K r H') as [Hs Hc]. repeat split; auto.
    destruct fuel; [discriminate|]. destruct obj; try discriminate; reflexivity.
  - intros H. destruct obj; try discriminate; reflexivity.
Qed.

(** A bare string is no fragment. *)
Lemma normalizing_never_grows_witness :
  sample_prepare 1 "name" (JStr "string") = Raise AttributeError.
Proof.
  apply (proj2 (normalizing_never_grows_a_fragment
                  sample_id_pattern sample_timestamp_regex kebab true 0 "name"
                  (JStr "string"))).
  reflexivity.
Defined.

(** ** Dicts with distinct keys *)

Lemma dict_get_pop_none (k k' : string) (d : dict) :
  dict_get k d = None -> dict_get k (dict_pop k' d) = None.
Proof.
  intros H. destruct (string_dec k k') as [->|N].
  - apply dict_get_pop_same.
  - now rewrite dict_get_pop_other.
Qed.

Lemma unique_keys_pop (k : string) (d : dict) :
  unique_keys d = true -> unique_keys (dict_pop k d) = true.
Proof.
  induction d as [|[k0 v0] d IH]; cbn [dict_pop]; [auto|].
  intros H. apply unique_keys_cons in H as [H0 Hd].
  destruct (String.eqb k k0); [now apply IH|].
  apply unique_keys_cons. split; [now apply dict_get_pop_none|now apply IH].
Qed.

Lemma unique_keys_set (k : string) (v : json) (d : dict) :
  unique_keys d = true -> unique_keys (dict_set k v d) = true.
Proof.
  induction d as [|[k0 v0] d IH]; cbn [dict_set]; [reflexivity|].
  intros H. apply unique_keys_cons in H as [H0 Hd].
  destruct (String.eqb k k0) eqn:E.
  - now apply unique_keys_cons.
  - apply unique_keys_cons. split; [|now apply IH].
    rewrite dict_get_set_other; [assumption|].
    apply String.eqb_neq in E. congruence.
Qed.

Lemma unique_keys_update (d other : dict) :
  unique_keys d = true -> unique_keys (dict_update d other) = true.
Proof.
  unfold dict_update. revert d.
  induction other as [|[k v] o IH]; intros d H; cbn [fold_left]; [assumption|].
  apply IH. now apply unique_keys_set.
Qed.

Lemma values_all_pop (P : json -> Prop) (k : string) (d : dict) :
  values_all P d -> values_all P (dict_pop k d).
Proof.
  unfold values_all. induction 1 as [|[k0 v0] d H0 _ IH]; cbn [dict_pop]; [constructor|].
  destruct (String.eqb k k0); [assumption|now constructor].
Qed.

Lemma values_all_set (P : json -> Prop) (k : string) (v : json) (d : dict) :
  values_all P d -> P v -> values_all P (dict_set k v d).
Proof.
  unfold values_all. intros H Hv.
  induction H as [|[k0 v0] d H0 H IH]; cbn [dict_set]; [now repeat constructor|].
  destruct (String.eqb k k0); now constructor.
Qed.

Lemma values_all_update (P : json -> Prop) (d other : dict) :
  values_all P d -> values_all P other -> values_all P (dict_update d other).
Proof.
  unfold dict_update. intros Hd Ho. revert d Hd.
  induction Ho as [|[k v] o Hv _ IH]; intros d Hd; cbn [fold_left]; [assumption|].
  apply IH. now apply values_all_set.
Qed.

Lemma values_all_get (P : json -> Prop) (k : string) (v : json) (d : dict) :
  values_all P d -> dict_get k d = Some v -> P v.
Proof.
  unfold values_all. induction 1 as [|[k0 v0] d H0 _ IH]; cbn [dict_get]; [discriminate|].
  destruct (String.eqb k k0); [now intros [= <-]|exact IH].
Qed.

Lemma well_formed_dict (d : dict) :
  well_formed (JDict d) = true
  <-> unique_keys d = true /\ values_all (fun v => well_formed v = true) d.
Proof.
  cbn [well_formed]. rewrite andb_true_iff, forallb_forall. unfold values_all.
  rewrite Forall_forall. tauto.
Qed.

Lemma well_formed_list (l : list json) :
  well_formed (JList l) = true <-> Forall (fun v => well_formed v = true) l.
Proof. cbn [well_formed]. now rewrite forallb_forall, Forall_forall. Qed.

Lemma well_formed_pop (k : string) (d : dict) :
  well_formed (JDict d) = true -> well_formed (JDict (dict_pop k d)) = true.
Proof.
  rewrite !well_formed_dict. intros [U V].
  split; [now apply unique_keys_pop|now apply values_all_pop].
Qed.

Lemma well_formed_set (k : string) (v : json) (d : dict) :
  well_formed (JDict d) = true -> well_formed v = true ->
  well_formed (JDict (dict_set k v d)) = true.
Proof.
  rewrite !well_formed_dict. intros [U V] Hv.
  split; [now apply unique_keys_set|now apply values_all_set].
Qed.

Lemma well_formed_update (d other : dict) :
  well_formed (JDict d) = true -> well_formed (JDict other) = true ->
  well_formed (JDict (dict_update d other)) = true.
Proof.
  rewrite !well_formed_dict. intros [U V] [U' V'].
  split; [now apply unique_keys_update|now apply values_all_update].
Qed.

Lemma well_formed_get (k : string) (v : json) (d : dict) :
  well_formed (JDict d) = true -> dict_get k d = Some v -> well_formed v = true.
Proof.
  rewrite well_formed_dict. intros [_ V] H.
  exact (values_all_get _ k v d V H).
Qed.

Lemma well_formed_head (mex ts field : string) (repl : string -> string) (d d' : dict) :
  well_formed (JDict d) = true ->
  prepare_head mex ts repl field d = Ok d' -> well_formed (JDict d') = true.
Proof.
  intros W. unfold prepare_head. fold (discard_annotations d).
  destruct (pop_value "useScheme" _ _) as [| | |u| |]; cbn [bind]; try discriminate.
  assert (well_formed (JDict (unify_dates ts (discard_annotations d))) = true) as W1.
  { unfold unify_dates, discard_annotations.
    destruct (is_date _ _); [apply well_formed_set; [|reflexivity]|];
      repeat apply well_formed_pop; exact W. }
  destruct (align_identifier _ _ _ _) as [d1| |] eqn:A; cbn [bind]; try discriminate.
  assert (well_formed (JDict d1) = true) as W2.
  { revert A. unfold align_identifier.
    destruct (str_is "pattern" mex _); [|now intros [= <-]].
    destruct (dict_get "type" _); [|discriminate].
    destruct (is_identifier_field field).
    - intros [= <-]. apply well_formed_set; [|reflexivity].
      now repeat apply well_formed_pop.
    - destruct (entity_name _); cbn [bind]; try discriminate.
      intros [= <-]. apply well_formed_set; [|reflexivity].
      now repeat apply well_formed_pop. }
  assert (well_formed (JDict (align_concept (removeprefix "https://mex.rki.de/item/" u) d1))
          = true) as W3.
  { unfold align_concept. destruct (str_is "$ref" concept_ref d1); [|exact W2].
    now apply well_formed_set. }
  unfold kebab_ref. destruct (dict_get "$ref" _) as [[| | |s| |]|];
    try discriminate; intros [= <-]; [now apply well_formed_set|exact W3].
Qed.

(** ** What a normalized fragment never shows *)

(** [normal_keys] only reads the dict under these keys. *)
Lemma normal_keys_reads (mex ts : string) (a c : dict) :
  (forall k, In k normal_key_names -> dict_get k c = dict_get k a) ->
  normal_keys mex ts c = normal_keys mex ts a.
Proof.
  intros H. unfold normal_keys, dict_mem, str_is.
  rewrite !H by (cbn; tauto). reflexivity.
Qed.

Lemma normal_keys_choice (mex ts : string) (a b c : dict) :
  (forall k, In k normal_key_names ->
             dict_get k c = dict_get k a \/ dict_get k c = dict_get k b) ->
  normal_keys mex ts a = true -> normal_keys mex ts b = true ->
  normal_keys mex ts c = true.
Proof.
  intros H. unfold normal_keys, dict_mem, str_is. intros Ha Hb.
  repeat (apply andb_true_iff in Ha as [Ha ?]).
  repeat (apply andb_true_iff in Hb as [Hb ?]).
  repeat (apply andb_true_iff; split);
    match goal with
    | |- context [dict_get ?k c] =>
        destruct (H k ltac:(cbn; tauto)) as [-> | ->]; assumption
    end.
Qed.

Lemma normal_keys_set (mex ts k : string) (v : json) (d : dict) :
  ~ In k normal_key_names ->
  normal_keys mex ts (dict_set k v d) = normal_keys mex ts d.
Proof.
  intros H. apply normal_keys_reads. intros k' Hk'.
  apply dict_get_set_other. congruence.
Qed.

Lemma normal_keys_update (mex ts q : string) (a b : dict) :
  unique_keys b = true ->
  normal_keys mex ts a = true -> normal_keys mex ts b = true ->
  normal_keys mex ts (dict_update (dict_pop q a) b) = true.
Proof.
  intros U Ha Hb.
  assert (normal_keys mex ts (dict_pop q a) = true) as Hp.
  { revert Ha. unfold normal_keys, dict_mem, str_is. intros Ha.
    repeat (apply andb_true_iff in Ha as [Ha ?]).
    repeat (apply andb_true_iff; split);
      match goal with
      | |- context [dict_get ?k (dict_pop q a)] =>
          destruct (string_dec k q) as [E|E];
          [rewrite E, dict_get_pop_same; reflexivity
          |rewrite (dict_get_pop_other k q a E); assumption]
      end. }
  apply (normal_keys_choice mex ts (dict_pop q a) b); auto.
  intros k _. rewrite dict_get_update by assumption.
  destruct (dict_get k b); auto.
Qed.

Lemma head_normal_keys (mex ts : string) (d : dict) :
  head_normal mex ts d -> normal_keys mex ts d = true.
Proof.
  intros (A1 & A2 & A3 & A4 & A5 & P & D & _).
  unfold normal_keys, dict_mem. rewrite A1, A2, A3, A4, A5, P. cbn.
  destruct (is_date ts d) eqn:E.
  - destruct (D eq_refl) as (F & Pn & _).
    unfold str_is. now rewrite F, Pn.
  - unfold is_date in E. apply orb_false_iff in E as [E E3].
    apply orb_false_iff in E as [E1 _]. now rewrite E1, E3.
Qed.

Lemma quantifiers_names (af : bool) (d : dict) (q : string) :
  In q (quantifiers af d) -> q = "anyOf" \/ q = "allOf".
Proof.
  unfold quantifiers. intros H. apply filter_In in H as [H _].
  destruct af; cbn in H; intuition.
Qed.

Lemma quantifier_not_normal_key (q : string) :
  q = "anyOf" \/ q = "allOf" -> ~ In q normal_key_names.
Proof. intros [-> | ->]; cbv; intuition discriminate. Qed.

Lemma iterate_well_formed (mex ts : string) (r : json) (l : list json) :
  well_formed r = true -> normalized mex ts r = true -> iterate r = Ok l ->
  Forall (fun x => well_formed x = true /\ normalized mex ts x = true) l.
Proof.
  destruct r as [| | |s|m|e]; cbn [iterate]; try discriminate; intros W N [= <-].
  - unfold chars. apply Forall_forall. intros x Hx.
    apply in_map_iff in Hx as (c & <- & _). auto.
  - apply well_formed_list in W. cbn [normalized] in N.
    rewrite Forall_forall in *. rewrite forallb_forall in N. auto.
  - apply Forall_forall. intros x Hx.
    apply in_map_iff in Hx as (kv & <- & _). auto.
Qed.

Section Normalized.

Variable MEX_ID_PATTERN : string.
Variable TIMESTAMP_REGEX : string.
Variable dromedary_to_kebab : string -> string.
Variable anyOf_first : bool.

Local Abbreviation head := (prepare_head MEX_ID_PATTERN TIMESTAMP_REGEX dromedary_to_kebab).
Local Abbreviation prepare :=
  (prepare_field MEX_ID_PATTERN TIMESTAMP_REGEX dromedary_to_kebab anyOf_first).
Local Abbreviation normal := (normalized MEX_ID_PATTERN TIMESTAMP_REGEX).

Lemma prepare_quantifier_normal (rec : json -> outcome json) (q : string) (d d' : dict) :
  normalizes MEX_ID_PATTERN TIMESTAMP_REGEX rec -> q = "anyOf" \/ q = "allOf" ->
  normal_dict MEX_ID_PATTERN TIMESTAMP_REGEX d -> prepare_quantifier rec q d = Ok d' -> normal_dict MEX_ID_PATTERN TIMESTAMP_REGEX d'.
Proof.
  intros Hrec Hq [W N]. apply quantifier_not_normal_key in Hq.
  unfold prepare_quantifier.
  destruct (dict_get q d) as [v|] eqn:Hv; [|discriminate].
  destruct (rec v) as [r| |] eqn:Hr; cbn [bind]; try discriminate.
  destruct (Hrec v r (well_formed_get q v d W Hv) Hr) as [Wr Nr].
  unfold deduplicate_dicts. rewrite dict_get_set_same.
  destruct (iterate r) as [l| |] eqn:Hl; cbn [bind]; try discriminate.
  rewrite dict_set_set.
  pose proof (iterate_well_formed _ _ r l Wr Nr Hl) as Fl.
  assert (Forall (fun x => well_formed x = true /\ normal x = true) (fromkeys [] l)) as Fk.
  { rewrite Forall_forall in *. intros x Hx. apply Fl.
    apply fromkeys_In in Hx as [[]|Hx]. exact Hx. }
  assert (normal_dict MEX_ID_PATTERN TIMESTAMP_REGEX (dict_set q (JList (fromkeys [] l)) d)) as [W2 N2].
  { split.
    - apply well_formed_set; [exact W|]. apply well_formed_list.
      rewrite Forall_forall in *. intros x Hx. now apply Fk.
    - now rewrite normal_keys_set. }
  rewrite (dissolve_single_item_lists_list _ q (fromkeys [] l)) by apply dict_get_set_same.
  intros [= <-].
  destruct (single_dict (fromkeys [] l)) as [item|] eqn:S; [|now split].
  assert (In (JDict item) (fromkeys [] l)) as Hin.
  { destruct (fromkeys [] l) as [|[| | | |m|e] [|y k]]; try discriminate.
    injection S as ->. now left. }
  rewrite Forall_forall in Fk. destruct (Fk _ Hin) as [Wi Ni].
  cbn [normalized] in Ni. apply andb_true_iff in Ni as [Ui Ni].
  split.
  - apply well_formed_update; [now apply well_formed_pop|exact Wi].
  - now apply normal_keys_update.
Qed.

Lemma fold_quantifiers_normal (rec : json -> outcome json) (qs : list string) (d d' : dict) :
  normalizes MEX_ID_PATTERN TIMESTAMP_REGEX rec -> (forall q, In q qs -> q = "anyOf" \/ q = "allOf") ->
  normal_dict MEX_ID_PATTERN TIMESTAMP_REGEX d -> fold_m (prepare_quantifier rec) qs d = Ok d' -> normal_dict MEX_ID_PATTERN TIMESTAMP_REGEX d'.
Proof.
  intros Hrec. revert d. induction qs as [|q qs IH]; intros d Hqs Hd; cbn [fold_m].
  - now intros [= <-].
  - destruct (prepare_quantifier rec q d) as [d1| |] eqn:E; cbn [bind]; try discriminate.
    apply IH; [intros q' Hq'; apply Hqs; now right|].
    apply (prepare_quantifier_normal rec q d d1); auto. apply Hqs. now left.
Qed.

Lemma prepare_items_normal (rec : json -> outcome json) (d d' : dict) :
  normalizes MEX_ID_PATTERN TIMESTAMP_REGEX rec -> normal_dict MEX_ID_PATTERN TIMESTAMP_REGEX d -> prepare_items rec d = Ok d' -> normal_dict MEX_ID_PATTERN TIMESTAMP_REGEX d'.
Proof.
  intros Hrec [W N]. unfold prepare_items.
  destruct (str_is "type" "array" d); [|now intros [= <-]].
  destruct (dict_get "items" d) as [v|] eqn:Hv; [|discriminate].
  destruct (rec v) as [r| |] eqn:Hr; cbn [bind]; try discriminate.
  destruct (Hrec v r (well_formed_get _ v d W Hv) Hr) as [Wr _].
  intros [= <-]. split; [now apply well_formed_set|].
  rewrite normal_keys_set; [exact N|]. cbv. intuition discriminate.
Qed.

Lemma prepare_normalizes (fuel : nat) (field : string) : normalizes MEX_ID_PATTERN TIMESTAMP_REGEX (prepare fuel field).
Proof.
  induction fuel as [|fuel IH]; intros obj r W; [discriminate|]. cbn [prepare_field].
  destruct obj as [| | | |l|d]; try discriminate.
  - destruct (map_m _ l) as [rs| |] eqn:E; cbn [bind]; try discriminate.
    intros [= <-]. apply map_m_Forall2 in E. apply well_formed_list in W.
    assert (Forall (fun y => well_formed y = true /\ normal y = true) rs) as K.
    { induction E as [|x y l rs Hx _ IHE]; constructor.
      - apply (IH x y); [now inversion W|assumption].
      - apply IHE. now inversion W. }
    rewrite well_formed_list. cbn [normalized]. rewrite forallb_forall.
    rewrite Forall_forall in *. split; intros y Hy; apply filter_In in Hy as [Hy _];
      now apply K.
  - destruct (head field d) as [d1| |] eqn:E1; cbn [bind]; try discriminate.
    destruct (prepare_items _ d1) as [d2| |] eqn:E2; cbn [bind]; try discriminate.
    destruct (fold_m _ _ d2) as [d3| |] eqn:E3; cbn [bind]; try discriminate.
    intros [= <-].
    assert (normal_dict MEX_ID_PATTERN TIMESTAMP_REGEX d1) as N1.
    { split; [exact (well_formed_head _ _ _ _ _ _ W E1)|].
      apply head_normal_keys. exact (prepare_head_normal _ _ _ _ _ _ E1). }
    pose proof (prepare_items_normal _ _ _ IH N1 E2) as N2.
    destruct (fold_quantifiers_normal _ _ d2 d3 IH
                (quantifiers_names anyOf_first d2) N2 E3) as [W3 N3].
    split; [exact W3|]. cbn [normalized]. apply well_formed_dict in W3 as [U3 _].
    now rewrite U3, N3.
Qed.

(** X7. Whatever [prepare_field] returns on a fragment whose dicts have
    distinct keys is normalized: the dict it returns (and every dict of a
    list it returns) has distinct keys, none of the annotations ["sameAs"],
    ["subPropertyOf"], ["description"], ["title"] and ["useScheme"], no
    format ["date"], and neither the timestamp nor the identifier pattern;
    this also holds when unions were dissolved into the dict. *)
Theorem prepare_field_returns_normalized_fragments :
  forall fuel field obj r,
    well_formed obj = true ->
    prepare fuel field obj = Ok r ->
    normalized MEX_ID_PATTERN TIMESTAMP_REGEX r = true /\ well_formed r = true.
Proof.
  intros fuel field obj r W H.
  destruct (prepare_normalizes fuel field obj r W H). auto.
Qed.

End Normalized.

(** A union of a date and an annotated date-time. *)
Lemma prepare_field_returns_normalized_witness :
  normalized sample_id_pattern sample_timestamp_regex
    (JDict [("examples", JList [JStr "2020"]); ("format", JStr "date-time")]) = true
  /\ well_formed (JDict [("examples", JList [JStr "2020"]); ("format", JStr "date-time")])
     = true.
Proof.
  apply (prepare_field_returns_normalized_fragments
           sample_id_pattern sample_timestamp_regex kebab true 6 "created"
           (JDict [("examples", JList [JStr "2020"]);
                   ("anyOf", JList [JDict [("format", JStr "date")];
                                    JDict [("format", JStr "date-time");
                                           ("title", JStr "Created")]])]));
    reflexivity.
Defined.

(** ** The loaded schema sets *)

Lemma leb_lt (a b : string) :
  String.leb a b = true <-> a = b \/ String_as_OT.lt a b.
Proof.
  unfold String.leb. destruct (String.compare a b) eqn:E.
  - apply String_as_OT.cmp_eq in E. tauto.
  - apply String_as_OT.cmp_lt in E. tauto.
  - split; [discriminate|]. intros [->|H].
    + assert (String.compare b b = Eq) by now apply String_as_OT.cmp_eq.
      congruence.
    + apply String_as_OT.cmp_lt in H. unfold String_as_OT.cmp in H. congruence.
Qed.

Lemma leb_trans (a b c : string) :
  String.leb a b = true -> String.leb b c = true -> String.leb a c = true.
Proof.
  rewrite !leb_lt. intros [->|H1] [->|H2]; auto.
  right. exact (String_as_OT.lt_trans _ _ _ H1 H2).
Qed.

Lemma keys_insert_sorted (kv : string * json) (d : dict) :
  Permutation (insert_sorted kv d) (kv :: d).
Proof.
  induction d as [|kv' d IH]; cbn [insert_sorted]; [reflexivity|].
  destruct (String.leb (fst kv) (fst kv')); [reflexivity|].
  rewrite IH. apply perm_swap.
Qed.

Lemma sorted_Permutation (d : dict) : Permutation (sorted d) d.
Proof.
  unfold sorted. induction d as [|kv d IH]; cbn [fold_right]; [reflexivity|].
  rewrite keys_insert_sorted. now constructor.
Qed.

Lemma ascending_insert (kv : string * json) (d : dict) :
  ascending (keys d) -> ascending (keys (insert_sorted kv d)).
Proof.
  unfold ascending, keys. induction d as [|kv' d IH]; cbn [insert_sorted map].
  - intros _. repeat constructor.
  - intros H. inversion H as [|x l Hl Hx]; subst.
    destruct (String.leb (fst kv) (fst kv')) eqn:E; cbn [map].
    + constructor; [exact H|]. constructor; [exact E|].
      rewrite Forall_forall in *. intros y Hy. exact (leb_trans _ _ _ E (Hx y Hy)).
    + constructor; [now apply IH|].
      assert (String.leb (fst kv') (fst kv) = true) as E'
          by (destruct (String.leb_total (fst kv) (fst kv')); congruence).
      rewrite Forall_forall in *. intros y Hy.
      apply (Permutation_in y (Permutation_map fst (keys_insert_sorted kv d))) in Hy.
      destruct Hy as [<-|Hy]; auto.
Qed.

Lemma ascending_sorted (d : dict) : ascending (keys (sorted d)).
Proof.
  unfold sorted. induction d as [|kv d IH]; cbn [fold_right]; [constructor|].
  now apply ascending_insert.
Qed.

Lemma unique_keys_NoDup (d : dict) : unique_keys d = true <-> NoDup (keys d).
Proof.
  unfold keys. induction d as [|[k v] d IH]; cbn [map fst].
  - split; [constructor|reflexivity].
  - rewrite unique_keys_cons, IH. split.
    + intros [H Hd]. constructor; [|assumption].
      intros Hin. apply in_map_iff in Hin as ([k' v'] & E & Hin). cbn in E. subst k'.
      clear IH Hd. induction d as [|[k0 v0] d IHd]; [contradiction|].
      cbn [dict_get] in H. destruct (String.eqb k k0) eqn:E; [discriminate|].
      destruct Hin as [[= -> _]|Hin]; [now rewrite String.eqb_refl in E|auto].
    + intros H. inversion H as [|x l Hx Hl]; subst. split; [|assumption].
      clear IH H Hl. induction d as [|[k0 v0] d IHd]; [reflexivity|].
      cbn [dict_get]. destruct (String.eqb k k0) eqn:E.
      * apply String.eqb_eq in E. subst k0. exfalso. apply Hx. now left.
      * apply IHd. intros Hin. apply Hx. now right.
Qed.

Lemma ascending_unique (l1 l2 : list string) :
  ascending l1 -> ascending l2 -> NoDup l1 -> NoDup l2 ->
  (forall x, In x l1 <-> In x l2) -> l1 = l2.
Proof.
  unfold ascending. intros S1. revert l2.
  induction S1 as [|a l1 S1 IH Ha]; intros l2 S2 N1 N2 H.
  - destruct l2 as [|b l2]; [reflexivity|]. exfalso. apply (H b). now left.
  - destruct S2 as [|b l2 S2 Hb]; [exfalso; apply (H a); now left|].
    rewrite Forall_forall in Ha, Hb.
    assert (a = b) as <-.
    { assert (In a (b :: l2)) as [->|Ia] by (apply H; now left); [reflexivity|].
      assert (In b (a :: l1)) as [->|Ib] by (apply H; now left); [reflexivity|].
      apply String.leb_antisym; auto. }
    f_equal. inversion N1; inversion N2; subst. apply IH; auto.
    intros x. split; intros Hx.
    + assert (In x (a :: l2)) as [<-|K] by (apply H; now right); [contradiction|exact K].
    + assert (In x (a :: l1)) as [<-|K] by (apply H; now right); [contradiction|exact K].
Qed.

Lemma In_dict_set (k k' : string) (v v' : json) (d : dict) :
  In (k', v') (dict_set k v d) -> (k' = k /\ v' = v) \/ In (k', v') d.
Proof.
  induction d as [|[k0 v0] d IH]; cbn [dict_set].
  - intros [[= <- <-]|[]]. auto.
  - destruct (String.eqb k k0) eqn:E.
    + apply String.eqb_eq in E. subst k0.
      intros [[= <- <-]|H]; [auto|right; now right].
    + intros [H|H]; [right; now left|].
      destruct (IH H); [auto|right; now right].
Qed.

Lemma keys_dict_set (k : string) (v : json) (d : dict) (x : string) :
  In x (keys (dict_set k v d)) <-> x = k \/ In x (keys d).
Proof.
  unfold keys. induction d as [|[k0 v0] d IH]; cbn [dict_set map fst In].
  - intuition.
  - destruct (String.eqb k k0) eqn:E; cbn [map fst In].
    + apply String.eqb_eq in E. subst k0. intuition.
    + rewrite IH. intuition.
Qed.

Lemma remove_spaces_twice (s : string) :
  remove_spaces (remove_spaces s) = remove_spaces s.
Proof.
  induction s as [|c s IH]; cbn [remove_spaces]; [reflexivity|].
  destruct (Ascii.eqb c " ") eqn:E; [exact IH|].
  cbn [remove_spaces]. now rewrite E, IH.
Qed.

Lemma collect_schemas_kept (files : list file) (acc d : dict) :
  collect_schemas files acc = Ok d ->
  unique_keys acc = true ->
  unique_keys d = true
  /\ (forall k schema, In (k, schema) d -> In (k, schema) acc \/ kept_under files k schema)
  /\ (forall k, In k (keys acc) -> In k (keys d))
  /\ (forall k schema, kept_under files k schema -> In k (keys d)).
Proof.
  revert acc. induction files as [|f files IH]; intros acc; cbn [collect_schemas].
  - intros [= <-] U. repeat split; auto. intros k schema (H & _). contradiction.
  - destruct f as [|schema]; [discriminate|].
    assert (forall acc',
              collect_schemas files acc' = Ok d -> unique_keys acc' = true ->
              (forall k s, In (k, s) acc' -> In (k, s) acc \/ kept_under (Document schema :: files) k s) ->
              (forall k, In k (keys acc) -> In k (keys acc')) ->
              unique_keys d = true
              /\ (forall k s, In (k, s) d ->
                    In (k, s) acc \/ kept_under (Document schema :: files) k s)
              /\ (forall k, In k (keys acc) -> In k (keys d))
              /\ (forall k s, kept_under files k s -> In k (keys d))) as Step.
    { intros acc' H U Hin Hk. destruct (IH acc' H U) as (U' & A & B & C).
      repeat split; auto.
      intros k s Hs. destruct (A k s Hs) as [K|(K1 & K2)]; [auto|].
      right. split; [now right|exact K2]. }
    destruct (truthy schema) eqn:T.
    + destruct (subscript schema "title") as [title| |] eqn:E; cbn [bind]; try discriminate.
      destruct title as [| | |t| |]; cbn [startswith_concept replace_spaces bind];
        try discriminate.
      destruct (String.prefix "Concept" t) eqn:P.
      * intros H U. destruct (Step acc H U) as (U' & A & B & C); auto.
        repeat split; auto.
        intros k s (K1 & K2 & t' & K3 & K4 & K5). destruct K1 as [[= <-]|K1].
        -- congruence.
        -- apply (C k s). repeat split; eauto.
      * intros H U.
        destruct (Step (dict_set (remove_spaces t) schema acc) H) as (U' & A & B & C).
        -- now apply unique_keys_set.
        -- intros k s Hs. apply In_dict_set in Hs as [[-> ->]|Hs]; [|auto].
           right. split; [now left|]. split; [exact T|]. exists t. auto.
        -- intros k Hk. apply keys_dict_set. now right.
        -- repeat split; auto.
           intros k s (K1 & K2 & t' & K3 & K4 & K5). destruct K1 as [[= <-]|K1].
           ++ rewrite E in K3. injection K3 as <-. subst k.
              destruct (IH _ H (unique_keys_set _ _ _ U)) as (_ & _ & B' & _).
              apply B'. apply keys_dict_set. now left.
           ++ apply (C k s). repeat split; eauto.
    + intros H U. destruct (Step acc H U) as (U' & A & B & C); auto.
      repeat split; auto.
      intros k s (K1 & K2 & K3). destruct K1 as [[= <-]|K1]; [congruence|].
      apply (C k s). repeat split; auto.
Qed.

Lemma specified_schemas_keys (files : list file) (specified : dict) :
  SPECIFIED_SCHEMAS files = Ok specified ->
  ascending (keys specified) /\ NoDup (keys specified).
Proof.
  unfold SPECIFIED_SCHEMAS.
  destruct (collect_schemas files []) as [d| |] eqn:E; cbn [bind]; try discriminate.
  intros [= <-].
  destruct (collect_schemas_kept files [] d E eq_refl) as (U & _).
  split; [apply ascending_sorted|].
  apply (Permutation_NoDup (Permutation_map fst (Permutation_sym (sorted_Permutation d)))).
  now apply unique_keys_NoDup.
Qed.

(** X8. When loading the specified schemas returns, the documents come
    under their keys in ascending order and no key comes twice; every
    entry is a truthy document of the directory whose title does not start
    with ["Concept"], under its title without spaces; and every such
    document of the directory has its key in the result. *)
Theorem specified_schemas_are_sorted_by_title :
  forall files specified,
    SPECIFIED_SCHEMAS files = Ok specified ->
    ascending (keys specified) /\ NoDup (keys specified)
    /\ (forall key schema,
          In (key, schema) specified ->
          kept_under files key schema /\ remove_spaces key = key)
    /\ (forall key schema, kept_under files key schema -> In key (keys specified)).
Proof.
  intros files specified. unfold SPECIFIED_SCHEMAS.
  destruct (collect_schemas files []) as [d| |] eqn:E; cbn [bind]; try discriminate.
  intros [= <-].
  destruct (collect_schemas_kept files [] d E eq_refl) as (U & A & _ & C).
  pose proof (sorted_Permutation d) as P.
  split; [apply ascending_sorted|]. split.
  - apply (Permutation_NoDup (Permutation_map fst (Permutation_sym P))).
    now apply unique_keys_NoDup.
  - split.
    + intros key schema H. apply (Permutation_in _ P) in H.
      destruct (A key schema H) as [[]|K]. split; [exact K|].
      destruct K as (_ & _ & t & _ & _ & ->). apply remove_spaces_twice.
    + intros key schema K.
      apply (Permutation_in key (Permutation_map fst (Permutation_sym P))).
      now apply (C key schema).
Qed.

(** Two documents, found in descending order of their titles. *)
Lemma specified_schemas_witness :
  ascending (keys [("AccessPlatform", JDict [("title", JStr "Access Platform")]);
                   ("Variable", JDict [("title", JStr "Variable")])])
  /\ NoDup (keys [("AccessPlatform", JDict [("title", JStr "Access Platform")]);
                  ("Variable", JDict [("title", JStr "Variable")])]).
Proof.
  destruct (specified_schemas_are_sorted_by_title
              [Document (JDict [("title", JStr "Variable")]);
               Document (JDict [("title", JStr "Concept Scheme")]);
               Document (JDict [("title", JStr "Access Platform")])]
              [("AccessPlatform", JDict [("title", JStr "Access Platform")]);
               ("Variable", JDict [("title", JStr "Variable")])]
              eq_refl) as (A & N & _).
  split; assumption.
Defined.

(** ** The checks on names *)

Lemma unique_keys_fold_set (f : string -> string) (l acc : dict) :
  unique_keys acc = true ->
  unique_keys (fold_left (fun acc kv => dict_set (f (fst kv)) (snd kv) acc) l acc) = true.
Proof.
  revert acc. induction l as [|kv l IH]; intros acc U; cbn [fold_left]; [assumption|].
  apply IH. now apply unique_keys_set.
Qed.

Lemma keys_fold_set (f : string -> string) (l acc : dict) (x : string) :
  In x (keys (fold_left (fun acc kv => dict_set (f (fst kv)) (snd kv) acc) l acc))
  <-> In x (keys acc) \/ exists name, In name (keys l) /\ x = f name.
Proof.
  revert acc. induction l as [|[k v] l IH]; intros acc; cbn [fold_left fst snd].
  - split; [auto|]. intros [H|(n & [] & _)]. exact H.
  - rewrite IH, keys_dict_set.
    change (keys ((k, v) :: l)) with (k :: keys l). cbn [In]. split.
    + intros [[E|H]|(n & Hn & E)]; [right; exists k; auto|auto|right; exists n; auto].
    + intros [H|(n & [E|Hn] & E')]; [auto| |right; exists n; auto].
      left. left. congruence.
Qed.

(** X9. The entity names of the generated set are the class names
    without their ["Extracted"] prefix, and the check of the entity types
    passes exactly when the generated and the specified set have the same
    entity names, whatever the order in which classes and files were
    found. *)
Theorem entity_types_match_iff_same_names :
  forall schemas_by_name files specified,
    SPECIFIED_SCHEMAS files = Ok specified ->
    (forall k, In k (keys (GENERATED_SCHEMAS schemas_by_name))
               <-> exists name, In name (keys schemas_by_name)
                                /\ k = removeprefix "Extracted" name)
    /\ (test_entity_types_match_spec (GENERATED_SCHEMAS schemas_by_name) specified = Ok tt
        <-> forall k, In k (keys (GENERATED_SCHEMAS schemas_by_name))
                      <-> In k (keys specified)).
Proof.
  intros classes files specified H.
  destruct (specified_schemas_keys files specified H) as (A & N).
  unfold GENERATED_SCHEMAS.
  set (d := fold_left
              (fun acc kv => dict_set (removeprefix "Extracted" (fst kv)) (snd kv) acc)
              classes []).
  pose proof (sorted_Permutation d) as P.
  assert (forall k, In k (keys (sorted d)) <-> In k (keys d)) as Hk.
  { intros k. split; apply Permutation_in; apply Permutation_map;
      [exact P|exact (Permutation_sym P)]. }
  split.
  - intros k. rewrite Hk. subst d.
    rewrite (keys_fold_set (removeprefix "Extracted") classes [] k).
    cbn [keys map In]. tauto.
  - unfold test_entity_types_match_spec.
    destruct (list_eq_dec string_dec (keys (sorted d)) (keys specified)) as [E|E].
    + split; [intros _ k; now rewrite E|reflexivity].
    + split; [discriminate|]. intros K. exfalso. apply E.
      apply ascending_unique; auto; [apply ascending_sorted|].
      apply (Permutation_NoDup (Permutation_map fst (Permutation_sym P))).
      apply unique_keys_NoDup. subst d.
      now apply (unique_keys_fold_set (removeprefix "Extracted")).
Qed.

(** Two classes and two files, each found in another order. *)
Lemma entity_types_match_witness :
  test_entity_types_match_spec
    (GENERATED_SCHEMAS [("ExtractedVariable", JDict [("title", JStr "ExtractedVariable")]);
                        ("ExtractedActivity", JDict [("title", JStr "ExtractedActivity")])])
    [("Activity", JDict [("title", JStr "Activity")]);
     ("Variable", JDict [("title", JStr "Variable")])]
  = Ok tt.
Proof.
  apply (proj2 (entity_types_match_iff_same_names
                  [("ExtractedVariable", JDict [("title", JStr "ExtractedVariable")]);
                   ("ExtractedActivity", JDict [("title", JStr "ExtractedActivity")])]
                  [Document (JDict [("title", JStr "Variable")]);
                   Document (JDict [("title", JStr "Activity")])]
                  [("Activity", JDict [("title", JStr "Activity")]);
                   ("Variable", JDict [("title", JStr "Variable")])]
                  eq_refl)).
  intros k. reflexivity.
Defined.

Lemma existsb_py_eq_str (k : string) (l : list string) :
  existsb (py_eq (JStr k)) (map JStr l) = true <-> In k l.
Proof.
  rewrite existsb_exists. split.
  - intros (x & Hx & E). apply in_map_iff in Hx as (y & <- & Hy).
    cbn [py_eq] in E. apply String.eqb_eq in E. now subst.
  - intros H. exists (JStr k). split; [now apply in_map|apply String.eqb_refl].
Qed.

Lemma set_eq_names (a b : list string) :
  set_eq (map JStr a) (map JStr b) = true <-> forall k, In k a <-> In k b.
Proof.
  unfold set_eq. rewrite andb_true_iff, !forallb_forall. split.
  - intros [H1 H2] k. split; intros Hk.
    + apply existsb_py_eq_str. apply H1. now apply in_map.
    + apply existsb_py_eq_str. apply H2. now apply in_map.
  - intros H. split; intros x Hx; apply in_map_iff in Hx as (k & <- & Hk);
      apply existsb_py_eq_str; now apply H.
Qed.

Lemma forallb_hashable_names (l : list string) : forallb hashable (map JStr l) = true.
Proof. apply forallb_forall. intros x Hx. apply in_map_iff in Hx as (k & <- & _). reflexivity. Qed.

Lemma keys_pop (k x : string) (d : dict) :
  In x (keys (dict_pop k d)) <-> x <> k /\ In x (keys d).
Proof.
  unfold keys. induction d as [|[k0 v0] d IH]; cbn [dict_pop map fst In]; [tauto|].
  destruct (String.eqb k k0) eqn:E.
  - apply String.eqb_eq in E. subst k0. rewrite IH. intuition congruence.
  - apply String.eqb_neq in E. cbn [map fst In]. rewrite IH. intuition congruence.
Qed.

Lemma keys_as_json (d : dict) : map (fun kv => JStr (fst kv)) d = map JStr (keys d).
Proof. unfold keys. now rewrite map_map. Qed.

(** X10. For two documents whose properties are dicts, the check of the
    field names passes exactly when the specified fields are the generated
    fields other than the discriminant ["$type"]. *)
Theorem field_names_match_iff_same_fields :
  forall generated specified g s,
    subscript generated "properties" = Ok (JDict g) ->
    subscript specified "properties" = Ok (JDict s) ->
    (test_field_names_match_spec generated specified = Ok tt
     <-> forall k, In k (keys s) <-> (k <> "$type" /\ In k (keys g))).
Proof.
  intros generated specified g s Hg Hs.
  unfold test_field_names_match_spec, py_set. rewrite Hg, Hs.
  cbn [bind items_of iterate]. rewrite keys_as_json, forallb_hashable_names.
  cbn [bind].
  match goal with |- context [set_eq ?a ?b] => destruct (set_eq a b) eqn:E end.
  - pose proof (proj1 (set_eq_names _ _) E) as E'. split; [intros _ k|reflexivity].
    rewrite <- E'. now rewrite keys_pop.
  - split; [discriminate|]. intros K.
    assert (set_eq (map JStr (keys (dict_pop "$type" g))) (map JStr (keys s)) = true)
      by (apply set_eq_names; intros k; rewrite keys_pop; now rewrite K).
    congruence.
Qed.

(** The discriminant is only on the generated side. *)
Lemma field_names_match_witness :
  test_field_names_match_spec
    (JDict [("properties", JDict [("$type", JDict [("const", JStr "ExtractedVariable")]);
                                  ("label", JDict []); ("usedIn", JDict [])])])
    (JDict [("properties", JDict [("usedIn", JDict []); ("label", JDict [])])])
  = Ok tt.
Proof.
  apply (proj2 (field_names_match_iff_same_fields
                  (JDict [("properties",
                           JDict [("$type", JDict [("const", JStr "ExtractedVariable")]);
                                  ("label", JDict []); ("usedIn", JDict [])])])
                  (JDict [("properties", JDict [("usedIn", JDict []); ("label", JDict [])])])
                  [("$type", JDict [("const", JStr "ExtractedVariable")]);
                   ("label", JDict []); ("usedIn", JDict [])]
                  [("usedIn", JDict []); ("label", JDict [])]
                  eq_refl eq_refl)).
  intros k. cbn. split.
  - intros [<-|[<-|[]]]; (split; [discriminate|tauto]).
  - intros [N [<-|[<-|[<-|[]]]]]; tauto.
Defined.

(** X11. For two documents whose required fields are lists of names, the
    check of the required fields passes exactly when both lists have the
    same members: neither order nor repetition counts.  A list that holds a
    list or a dict cannot be made a set and raises [TypeError]. *)
Theorem required_fields_match_iff_same_members :
  forall generated specified,
    (forall g s,
       subscript generated "required" = Ok (JList (map JStr g)) ->
       subscript specified "required" = Ok (JList (map JStr s)) ->
       (test_required_fields_match_spec generated specified = Ok tt
        <-> forall k, In k g <-> In k s))
    /\ (forall l,
          subscript generated "required" = Ok (JList l) ->
          forallb hashable l = false ->
          test_required_fields_match_spec generated specified = Raise TypeError).
Proof.
  intros generated specified. split.
  - intros g s Hg Hs. unfold test_required_fields_match_spec, py_set.
    rewrite Hg, Hs. cbn [bind iterate]. rewrite !forallb_hashable_names. cbn [bind].
    match goal with |- context [set_eq ?a ?b] => destruct (set_eq a b) eqn:E end.
    + pose proof (proj1 (set_eq_names _ _) E). tauto.
    + split; [discriminate|]. intros K. pose proof (proj2 (set_eq_names _ _) K). congruence.
  - intros l Hl Hh. unfold test_required_fields_match_spec, py_set.
    rewrite Hl. cbn [bind iterate]. now rewrite Hh.
Qed.

(** The same required fields, listed in another order and one of them
    twice. *)
Lemma required_fields_match_witness :
  test_required_fields_match_spec
    (JDict [("required", JList [JStr "identifier"; JStr "label"; JStr "identifier"])])
    (JDict [("required", JList [JStr "label"; JStr "identifier"])])
  = Ok tt.
Proof.
  apply (proj1 (required_fields_match_iff_same_members
                  (JDict [("required",
                           JList [JStr "identifier"; JStr "label"; JStr "identifier"])])
                  (JDict [("required", JList [JStr "label"; JStr "identifier"])]))
           ["identifier"; "label"; "identifier"] ["label"; "identifier"]
           eq_refl eq_refl).
  intros k. cbn. tauto.
Defined.

(** ** Wikidata data values, again *)

(** X12. After the pre-parse transform the ["value"] is structured
    whenever the input had a string, [None] or nothing there, a structured
    input stays structured, and the transform changes nothing when it runs a
    second time. *)
Theorem transform_strings_to_dict_settles :
  forall values,
    transform_strings_to_dict (transform_strings_to_dict values)
    = transform_strings_to_dict values
    /\ (structured values = false ->
        structured (transform_strings_to_dict values) = true)
    /\ (structured values = true -> transform_strings_to_dict values = values).
Proof.
  intros values. unfold transform_strings_to_dict, structured.
  destruct (dict_get "value" values) as [[| | |s| |]|] eqn:E;
    repeat split; try reflexivity; try discriminate; rewrite ?E; reflexivity.
Qed.

(** A bare string. *)
Lemma transform_strings_to_dict_settles_witness :
  structured (transform_strings_to_dict [("value", JStr "RKI")]) = true.
Proof.
  apply (proj1 (proj2 (transform_strings_to_dict_settles [("value", JStr "RKI")]))).
  reflexivity.
Defined.

(** ** The settings context, again *)

Section SettingsAgain.

Variable cls : Type.
Variable issubclass : cls -> cls -> bool.
Variable validates : cls -> bool.

Local Abbreviation get_settings := (get cls issubclass validates).

(** X13. Once [get] has returned an object for a class, the context
    holds that object, it is an instance of the class, and every further
    [get] on the class returns it and leaves the context alone, whatever the
    context was before. *)
Theorem get_returns_the_loaded_settings :
  forall c w s w',
    get_settings c w = (Ok s, w') ->
    context w' = Some s
    /\ isinstance cls issubclass s c = true
    /\ get_settings c w' = (Ok s, w').
Proof.
  intros c w s w'. unfold get at 1, parse_obj.
  destruct (context w) as [s0|] eqn:Hc.
  - destruct (isinstance cls issubclass s0 c) eqn:Hi; [|discriminate].
    intros [= <- <-]. repeat split; auto. now apply get_keeps_loaded.
  - destruct (validates c); [|discriminate]. cbn.
    destruct (isinstance cls issubclass _ c) eqn:Hi; [|discriminate].
    intros [= <- <-]. repeat split; auto. now apply get_keeps_loaded.
Qed.

(** X14. After the plugin's [isolate_settings_context] has reset the
    context, [get] never raises a [RuntimeError], whatever was loaded
    before: it builds a new object of exactly the requested class (or
    raises pydantic's [ValidationError]). *)
Theorem isolated_context_loads_afresh :
  (forall c, issubclass c c = true) ->
  forall c w,
    fst (get_settings c (isolate_settings_context w)) <> Raise RuntimeError
    /\ (validates c = true ->
        exists s w',
          get_settings c (isolate_settings_context w) = (Ok s, w')
          /\ type_of s = c /\ ident s = next_ident w /\ context w' = Some s)
    /\ (validates c = false ->
        get_settings c (isolate_settings_context w)
        = (Raise ValidationError, isolate_settings_context w)).
Proof.
  intros Hrefl c w. unfold get, parse_obj, isolate_settings_context, context_set. cbn.
  destruct (validates c); cbn.
  - unfold isinstance. cbn. rewrite Hrefl. cbn.
    split; [discriminate|]. split; [|discriminate].
    intros _. do 2 eexists. repeat split.
  - split; [discriminate|]. split; [discriminate|reflexivity].
Qed.

End SettingsAgain.

(** The base class is loaded, a subclass is requested: an error without
    the reset, a new object after it. *)
Lemma get_returns_the_loaded_settings_witness :
  context {| context := Some {| type_of := true; ident := 0 |}; next_ident := 1 |}
  = Some {| type_of := true; ident := 0 |}
  /\ isinstance bool two_classes_issubclass {| type_of := true; ident := 0 |} false = true
  /\ get bool two_classes_issubclass (fun _ => true) false
         {| context := Some {| type_of := true; ident := 0 |}; next_ident := 1 |}
     = (Ok {| type_of := true; ident := 0 |},
        {| context := Some {| type_of := true; ident := 0 |}; next_ident := 1 |}).
Proof.
  apply (get_returns_the_loaded_settings bool two_classes_issubclass (fun _ => true)
           true {| context := None; next_ident := 0 |}).
  reflexivity.
Defined.

Lemma isolated_context_witness :
  fst (get bool two_classes_issubclass (fun _ => true) true
           (isolate_settings_context
              {| context := Some {| type_of := false; ident := 0 |}; next_ident := 1 |}))
  <> Raise RuntimeError.
Proof.
  apply (isolated_context_loads_afresh bool two_classes_issubclass (fun _ => true)
           (fun c => match c with true => eq_refl | false => eq_refl end)).
Defined.

(** ** The text of the environment *)

Lemma escape_quotes_head (s : string) (b : string) :
  escape_quotes s <> String quote b.
Proof.
  destruct s as [|c s]; cbn [escape_quotes]; [discriminate|].
  destruct (Ascii.eqb c quote) eqn:E.
  - intros [=].
  - intros [= -> _]. now rewrite Ascii.eqb_refl in E.
Qed.

(** X15. The escaping of [env_text] puts a backslash before every double
    quote of a value and before nothing else, and loses nothing: two values
    with the same escaped text are the same value. *)
Theorem escape_quotes_is_faithful :
  (forall s a b,
     escape_quotes s = (a ++ String quote b)%string ->
     exists a', a = (a' ++ String backslash EmptyString)%string)
  /\ (forall s t, escape_quotes s = escape_quotes t -> s = t)
  /\ (forall s, String.length (escape_quotes s)
                = String.length s
                  + List.length (filter (Ascii.eqb quote) (list_ascii_of_string s))).
Proof.
  split; [|split].
  - induction s as [|c s IH]; intros a b; cbn [escape_quotes].
    + destruct a; discriminate.
    + destruct (Ascii.eqb c quote) eqn:E.
      * destruct a as [|x a]; cbn [append]; [intros [=]|].
        intros [= <- H]. destruct a as [|y a]; cbn [append] in *.
        -- exists EmptyString. reflexivity.
        -- injection H as <- H. destruct (IH a b H) as [a' ->].
           exists (String backslash (String quote a')). reflexivity.
      * destruct a as [|x a]; cbn [append].
        -- intros [= -> _]. now rewrite Ascii.eqb_refl in E.
        -- intros [= <- H]. destruct (IH a b H) as [a' ->].
           exists (String c a'). reflexivity.
  - induction s as [|c s IH]; intros [|d t]; cbn [escape_quotes]; auto.
    + destruct (Ascii.eqb d quote); discriminate.
    + destruct (Ascii.eqb c quote); discriminate.
    + destruct (Ascii.eqb c quote) eqn:E1; destruct (Ascii.eqb d quote) eqn:E2.
      * apply Ascii.eqb_eq in E1, E2. subst. intros [= H]. f_equal. now apply IH.
      * intros [= <- H]. symmetry in H. now apply escape_quotes_head in H.
      * intros [= -> H]. now apply escape_quotes_head in H.
      * intros [= -> H]. f_equal. now apply IH.
  - induction s as [|c s IH]; cbn [escape_quotes list_ascii_of_string filter]; [reflexivity|].
    rewrite (Ascii.eqb_sym quote c).
    destruct (Ascii.eqb c quote); cbn [String.length List.length]; rewrite IH; lia.
Qed.

(** A value with one quote. *)
Lemma escape_quotes_witness :
  exists a', ("say" ++ String backslash EmptyString)%string
             = (a' ++ String backslash EmptyString)%string.
Proof.
  apply (proj1 escape_quotes_is_faithful
           ("say" ++ String quote "hi")%string
           ("say" ++ String backslash EmptyString)%string "hi").
  reflexivity.
Defined.

(** ** The lookup tables of the organigram *)

Lemma lookup_assign (k k' v : string) (m : Organigram.mapping) :
  Organigram.lookup k (Organigram.assign k' v m)
  = if String.eqb k k' then Some v else Organigram.lookup k m.
Proof.
  induction m as [|[k0 v0] m IH]; cbn [Organigram.assign Organigram.lookup].
  - reflexivity.
  - destruct (String.eqb k' k0) eqn:E; cbn [Organigram.lookup].
    + apply String.eqb_eq in E. subst k0. now destruct (String.eqb k k').
    + rewrite IH. destruct (String.eqb k k0) eqn:E0; [|reflexivity].
      apply String.eqb_eq in E0. subst k0. rewrite String.eqb_sym in E. now rewrite E.
Qed.

(** Reading a table after one more unit: the unit decides for its keys. *)
Lemma lookup_assign_all (k v : string) (ks : list string) (m : Organigram.mapping) :
  Organigram.lookup k (fold_left (fun acc k' => Organigram.assign k' v acc) ks m)
  = if in_dec string_dec k ks then Some v else Organigram.lookup k m.
Proof.
  revert m. induction ks as [|k0 ks IH]; intros m; cbn [fold_left]; [reflexivity|].
  rewrite IH, lookup_assign.
  destruct (in_dec string_dec k ks) as [H|H]; destruct (in_dec string_dec k (k0 :: ks)) as [H'|H'].
  - reflexivity.
  - exfalso. apply H'. now right.
  - destruct H' as [->|H']; [now rewrite String.eqb_refl|contradiction].
  - destruct (String.eqb k k0) eqn:E; [|reflexivity].
    apply String.eqb_eq in E. subst k0. exfalso. apply H'. now left.
Qed.

Lemma index_by_app (keys_of : Organigram.ExtractedOrganizationalUnit -> list string)
      (before after : list Organigram.ExtractedOrganizationalUnit) :
  index_by keys_of (before ++ after)
  = fold_left
      (fun acc unit =>
         fold_left (fun acc k => Organigram.assign k (Organigram.stableTargetId unit) acc)
                   (keys_of unit) acc)
      after (index_by keys_of before).
Proof. unfold index_by. now rewrite fold_left_app. Qed.

Lemma lookup_later_units (keys_of : Organigram.ExtractedOrganizationalUnit -> list string)
      (k : string) (after : list Organigram.ExtractedOrganizationalUnit)
      (m : Organigram.mapping) :
  (forall u, In u after -> ~ In k (keys_of u)) ->
  Organigram.lookup k
    (fold_left
       (fun acc unit =>
          fold_left (fun acc k => Organigram.assign k (Organigram.stableTargetId unit) acc)
                    (keys_of unit) acc)
       after m)
  = Organigram.lookup k m.
Proof.
  revert m. induction after as [|u after IH]; intros m H; cbn [fold_left]; [reflexivity|].
  rewrite IH by (intros u' Hu'; apply H; now right).
  rewrite lookup_assign_all.
  destruct (in_dec string_dec k (keys_of u)) as [K|K]; [|reflexivity].
  exfalso. apply (H u); [now left|exact K].
Qed.

Lemma lookup_index_by (keys_of : Organigram.ExtractedOrganizationalUnit -> list string)
      (units : list Organigram.ExtractedOrganizationalUnit) (k id : string) :
  Organigram.lookup k (index_by keys_of units) = Some id ->
  exists u, In u units /\ In k (keys_of u) /\ Organigram.stableTargetId u = id.
Proof.
  induction units as [|u units IH] using rev_ind; [discriminate|].
  rewrite index_by_app. cbn [fold_left]. rewrite lookup_assign_all.
  destruct (in_dec string_dec k (keys_of u)) as [K|K].
  - intros [= <-]. exists u. split; [apply in_or_app; right; now left|auto].
  - intros H. destruct (IH H) as (u' & Hu' & Hk & Hid).
    exists u'. split; [apply in_or_app; now left|auto].
Qed.

(** What both tables have in common. *)
Lemma index_by_last_wins (keys_of : Organigram.ExtractedOrganizationalUnit -> list string)
      (before after : list Organigram.ExtractedOrganizationalUnit)
      (u : Organigram.ExtractedOrganizationalUnit) (k : string) :
  In k (keys_of u) ->
  (forall u', In u' after -> ~ In k (keys_of u')) ->
  Organigram.lookup k (index_by keys_of (before ++ u :: after))
  = Some (Organigram.stableTargetId u).
Proof.
  intros Hk Hafter.
  replace (before ++ u :: after) with ((before ++ [u]) ++ after)
    by (now rewrite <- app_assoc).
  rewrite index_by_app, lookup_later_units by assumption.
  rewrite index_by_app. cbn [fold_left]. rewrite lookup_assign_all.
  now destruct (in_dec string_dec k (keys_of u)).
Qed.

Lemma fold_left_map {A B C : Type} (g : A -> C -> A) (f : B -> C) (l : list B) (a : A) :
  fold_left (fun acc x => g acc (f x)) l a = fold_left g (map f l) a.
Proof. revert a. induction l as [|x l IH]; intros a; cbn [fold_left map]; auto. Qed.

Lemma synonyms_index (units : list Organigram.ExtractedOrganizationalUnit) :
  Organigram.get_unit_merged_ids_by_synonyms units
  = index_by (fun u => map Organigram.value (Organigram.get_synonyms u)) units.
Proof.
  unfold Organigram.get_unit_merged_ids_by_synonyms, index_by.
  generalize (@nil (string * string)).
  induction units as [|u units IH]; intros m; cbn [fold_left]; [reflexivity|].
  rewrite IH. f_equal.
  exact (fold_left_map (fun acc k => Organigram.assign k (Organigram.stableTargetId u) acc)
           Organigram.value (Organigram.get_synonyms u) m).
Qed.

Lemma emails_index (str_lower : string -> string)
      (units : list Organigram.ExtractedOrganizationalUnit) :
  Organigram.get_unit_merged_ids_by_emails str_lower units
  = index_by (fun u => map str_lower (Organigram.email u)) units.
Proof.
  unfold Organigram.get_unit_merged_ids_by_emails, index_by.
  generalize (@nil (string * string)).
  induction units as [|u units IH]; intros m; cbn [fold_left]; [reflexivity|].
  rewrite IH. f_equal.
  exact (fold_left_map (fun acc k => Organigram.assign k (Organigram.stableTargetId u) acc)
           str_lower (Organigram.email u) m).
Qed.

(** X16. The table of synonyms maps every name, short name and
    alternative name of every unit to an identifier, and only those; a
    synonym maps to the identifier of the last unit that carries it, so a
    synonym shared by two units is lost for the earlier one. *)
Theorem synonyms_map_to_the_last_unit :
  forall units,
    (forall k id,
       Organigram.lookup k (Organigram.get_unit_merged_ids_by_synonyms units) = Some id ->
       exists u synonym,
         In u units
         /\ (In synonym (Organigram.name u) \/ In synonym (Organigram.shortName u)
             \/ In synonym (Organigram.alternativeName u))
         /\ Organigram.value synonym = k /\ Organigram.stableTargetId u = id)
    /\ (forall before u after synonym,
          units = before ++ u :: after ->
          In synonym (Organigram.get_synonyms u) ->
          (forall u' synonym',
             In u' after -> In synonym' (Organigram.get_synonyms u') ->
             Organigram.value synonym' <> Organigram.value synonym) ->
          Organigram.lookup (Organigram.value synonym)
                            (Organigram.get_unit_merged_ids_by_synonyms units)
          = Some (Organigram.stableTargetId u)).
Proof.
  intros units. rewrite synonyms_index. split.
  - intros k id H. apply lookup_index_by in H as (u & Hu & Hk & Hid).
    apply in_map_iff in Hk as (synonym & Hv & Hs).
    exists u, synonym. repeat split; auto.
    unfold Organigram.get_synonyms in Hs.
    apply in_app_or in Hs as [Hs|Hs]; [auto|].
    apply in_app_or in Hs as [Hs|Hs]; auto.
  - intros before u after synonym -> Hs Hafter.
    apply index_by_last_wins; [now apply in_map|].
    intros u' Hu' Hk. apply in_map_iff in Hk as (synonym' & Hv & Hs').
    exact (Hafter u' synonym' Hu' Hs' Hv).
Qed.

(** X17. The table of emails is keyed by the lowered addresses: every
    key is the lowering of an address of the unit it maps to, and looking up
    the lowering of an address gives the identifier of the last unit with an
    address that lowers to the same text, however the address was cased. *)
Theorem emails_map_lowercased_to_the_last_unit :
  forall str_lower units,
    (forall k id,
       Organigram.lookup k (Organigram.get_unit_merged_ids_by_emails str_lower units)
       = Some id ->
       exists u address,
         In u units /\ In address (Organigram.email u)
         /\ str_lower address = k /\ Organigram.stableTargetId u = id)
    /\ (forall before u after address,
          units = before ++ u :: after ->
          In address (Organigram.email u) ->
          (forall u' address',
             In u' after -> In address' (Organigram.email u') ->
             str_lower address' <> str_lower address) ->
          Organigram.lookup (str_lower address)
                            (Organigram.get_unit_merged_ids_by_emails str_lower units)
          = Some (Organigram.stableTargetId u)).
Proof.
  intros str_lower units. rewrite emails_index. split.
  - intros k id H. apply lookup_index_by in H as (u & Hu & Hk & Hid).
    apply in_map_iff in Hk as (address & Hv & Hs). eauto 8.
  - intros before u after address -> Hs Hafter.
    apply index_by_last_wins; [now apply in_map|].
    intros u' Hu' Hk. apply in_map_iff in Hk as (address' & Hv & Hs').
    exact (Hafter u' address' Hu' Hs' Hv).
Qed.

(** Two units that share the short name ["FG"]. *)
Lemma synonyms_witness :
  Organigram.lookup "FG"
    (Organigram.get_unit_merged_ids_by_synonyms
       [{| Organigram.name := [{| Organigram.value := "Fachgebiet 1";
                                  Organigram.language := Some "de" |}];
           Organigram.shortName := [{| Organigram.value := "FG";
                                       Organigram.language := None |}];
           Organigram.alternativeName := [];
           Organigram.email := ["FG1@rki.de"];
           Organigram.stableTargetId := "unit1" |};
        {| Organigram.name := [{| Organigram.value := "Fachgebiet 2";
                                  Organigram.language := Some "de" |}];
           Organigram.shortName := [{| Organigram.value := "FG";
                                       Organigram.language := None |}];
           Organigram.alternativeName := [];
           Organigram.email := ["fg2@rki.de"];
           Organigram.stableTargetId := "unit2" |}])
  = Some "unit2".
Proof.
  apply (proj2 (synonyms_map_to_the_last_unit _)
           [{| Organigram.name := [{| Organigram.value := "Fachgebiet 1";
                                      Organigram.language := Some "de" |}];
               Organigram.shortName := [{| Organigram.value := "FG";
                                           Organigram.language := None |}];
               Organigram.alternativeName := [];
               Organigram.email := ["FG1@rki.de"];
               Organigram.stableTargetId := "unit1" |}]
           {| Organigram.name := [{| Organigram.value := "Fachgebiet 2";
                                     Organigram.language := Some "de" |}];
              Organigram.shortName := [{| Organigram.value := "FG";
                                          Organigram.language := None |}];
              Organigram.alternativeName := [];
              Organigram.email := ["fg2@rki.de"];
              Organigram.stableTargetId := "unit2" |}
           [] {| Organigram.value := "FG"; Organigram.language := None |}).
  - reflexivity.
  - cbn. tauto.
  - intros u' synonym' [].
Defined.

(** An address in capitals, looked up in lower case. *)
Lemma emails_witness :
  Organigram.lookup "fg1@rki.de"
    (Organigram.get_unit_merged_ids_by_emails Organigram.ascii_lower
       [{| Organigram.name := []; Organigram.shortName := [];
           Organigram.alternativeName := [];
           Organigram.email := ["FG1@rki.de"];
           Organigram.stableTargetId := "unit1" |}])
  = Some "unit1".
Proof.
  apply (proj2 (emails_map_lowercased_to_the_last_unit Organigram.ascii_lower _)
           []
           {| Organigram.name := []; Organigram.shortName := [];
              Organigram.alternativeName := [];
              Organigram.email := ["FG1@rki.de"];
              Organigram.stableTargetId := "unit1" |}
           [] "FG1@rki.de").
  - reflexivity.
  - now left.
  - intros u' address' [].
Defined.

(** ** Comparing two fragments *)

Lemma dict_get_In (k : string) (x : json) (d : dict) :
  unique_keys d = true -> In (k, x) d -> dict_get k d = Some x.
Proof.
  induction d as [|[k0 v0] d IH]; [contradiction|].
  intros U. apply unique_keys_cons in U as [U0 Ud]. cbn [dict_get].
  intros [[= -> ->]|H]; [now rewrite String.eqb_refl|].
  destruct (String.eqb k k0) eqn:E; [|now apply IH].
  apply String.eqb_eq in E. subst k0. rewrite (IH Ud H) in U0. discriminate.
Qed.

(** A value whose dicts have distinct keys equals itself. *)
Lemma py_eq_refl (j : json) : well_formed j = true -> py_eq j j = true.
Proof.
  induction j as [| b | z | s | l IH | d IH] using json_induction; cbn [py_eq]; auto.
  - intros _. apply Bool.eqb_reflx.
  - intros _. apply Z.eqb_refl.
  - intros _. apply String.eqb_refl.
  - intros W. apply well_formed_list in W.
    induction IH as [|x l Hx _ IHl]; [reflexivity|].
    inversion W; subst. rewrite Hx by assumption. cbn [andb]. now apply IHl.
  - intros W. apply well_formed_dict in W as [U V]. rewrite Nat.eqb_refl. cbn [andb].
    assert (forall d',
              incl d' d ->
              Forall (fun kv => well_formed (snd kv) = true -> py_eq (snd kv) (snd kv) = true) d' ->
              (fix go (d0 : list (string * json)) : bool :=
                 match d0 with
                 | [] => true
                 | (k, x) :: d1 =>
                     match dict_get k d with
                     | Some y => py_eq x y
                     | None => false
                     end && go d1
                 end) d' = true) as K.
    { induction d' as [|[k x] d' IHd]; intros Hi Hf; [reflexivity|].
      inversion Hf as [|? ? Hx Hd']; subst. cbn [snd] in Hx.
      assert (In (k, x) d) as Hin by (apply Hi; now left).
      rewrite (dict_get_In k x d U Hin).
      rewrite Hx by exact (values_all_get _ k x d V (dict_get_In k x d U Hin)).
      cbn [andb]. apply IHd; [|assumption].
      intros kv Hkv. apply Hi. now right. }
    apply K; [apply incl_refl|exact IH].
Qed.

(** X18. The comparison of a field does not tell a date from a
    date-time: when the generated fragment and the specified one are the
    same dict but for the format, ["date-time"] on one side and ["date"] on
    the other, the comparison passes as soon as normalization returns. *)
Theorem date_and_date_time_compare_equal :
  forall mex ts repl af fuel field_name d r,
    well_formed (JDict d) = true ->
    prepare_field mex ts repl af fuel field_name
                  (JDict (dict_set "format" (JStr "date") d)) = Ok r ->
    compare_fragments mex ts repl af fuel field_name
                      (JDict (dict_set "format" (JStr "date-time") d))
                      (JDict (dict_set "format" (JStr "date") d))
    = Ok tt.
Proof.
  intros mex ts repl af fuel field_name d r W H. unfold compare_fragments.
  rewrite <- (prepare_field_format mex ts repl af fuel field_name d).
  rewrite H. cbn [bind].
  destruct (prepare_normalizes mex ts repl af fuel field_name _ r
              (well_formed_set "format" (JStr "date") d W eq_refl) H) as [Wr _].
  now rewrite py_eq_refl.
Qed.

(** A day in the specification, a timestamp in the model. *)
Lemma date_and_date_time_compare_witness :
  compare_fragments sample_id_pattern sample_timestamp_regex kebab true 3 "created"
    (JDict (dict_set "format" (JStr "date-time") [("type", JStr "string")]))
    (JDict (dict_set "format" (JStr "date") [("type", JStr "string")]))
  = Ok tt.
Proof.
  apply (date_and_date_time_compare_equal
           sample_id_pattern sample_timestamp_regex kebab true 3 "created"
           [("type", JStr "string")]
           (JDict [("type", JStr "string"); ("format", JStr "date-time")]));
    reflexivity.
Defined.
